(** * The interactive CLI state machine of [clica/interface/states.py]

    A shallow embedding of the state handlers of the interactive code agent
    CLI, together with the properties of its behaviour.

    The handlers are Python static methods that mutate one shared [cli]
    object and talk to a terminal, an agent, a workspace ([cli.env]), an
    action log ([cli.db]) and a few services.  They are embedded as
    computations in a state monad over a [World]: the fields of [cli], the
    store of workspace objects (so that aliasing between [cli.env] and the
    training snapshots is visible), the script of pending key events, and
    the traces of what was drawn and which collaborators were invoked.

    Collaborators that live outside [states.py] are interfaces (type
    classes).  A collaborator call is taken to return normally, except where
    the source guards the call with [try]/[except]: there the collaborator
    returns either a result or the exception it raised. *)

From Stdlib Require Import ZArith String Ascii List Bool Lia Sorted.
From stdpp Require Import base tactics option list strings gmap pretty.
Import ListNotations.

(** ** Data *)

(** [clica.database.ActionSource] *)
Inductive ActionSource := HUMAN | AI.

(** [clica.database.ActionType]; only [SET_INSTRUCTION] is named in
    [states.py], the kind of an applied workspace action is [ACTION]. *)
Inductive ActionType := SET_INSTRUCTION | ACTION.

(** The [state_id] of every [CLIState] subclass of the file. *)
Inductive StateId :=
| PROMPT | AUTO_PROMPT | EXAMPLE | AUTO_SOLVE | EXIT | AGENT_TURN
| TRAIN | SAVE_MODEL | LOAD_MODEL | RESET_SESSION | EVAL | MENU.

Global Instance ActionSource_eq_dec : EqDecision ActionSource.
Proof. solve_decision. Defined.
Global Instance StateId_eq_dec : EqDecision StateId.
Proof. solve_decision. Defined.

(** A row of the action log.  [train_agent] reads column 0, the sequence
    id; the other columns are carried along for the agent. *)
Inductive Payload := PText (s : string) | PAction (a : Z).

Record ActionLogEntry := {
  sequence_id : Z;
  payload : Payload;
  action_kind : ActionType;
  source : ActionSource
}.

(** A caught Python exception: [str(e)] and [traceback.format_exc()]. *)
Record Exn := { exn_str : string; exn_trace : string }.

Global Instance ActionType_eq_dec : EqDecision ActionType.
Proof. solve_decision. Defined.
Global Instance Payload_eq_dec : EqDecision Payload.
Proof. solve_decision. Defined.
Global Instance ActionLogEntry_eq_dec : EqDecision ActionLogEntry.
Proof. solve_decision. Defined.
Global Instance Exn_eq_dec : EqDecision Exn.
Proof. solve_decision. Defined.

(** References to workspace objects. *)
Definition loc := positive.

(** What reaches the terminal.  [Render st] stands for one call of the
    [_render] method of state [st]: it only draws. *)
Inductive Attr := A_NORMAL | A_BOLD | A_ITALIC.

Inductive TermOp :=
| Clear
| Refresh
| AddStr (y x : Z) (s : string)
| WriterWrite (s : string) (a : Attr)
| WriterSkip (n : Z)
| Subwin (h w y x : Z)
| Keypad (b : bool)
| Render (st : StateId)
| SaveTty
| ResetShellMode
| ResetTty
| System (cmd : string)
| Print (s : string).

Global Instance Attr_eq_dec : EqDecision Attr.
Proof. solve_decision. Defined.
Global Instance TermOp_eq_dec : EqDecision TermOp.
Proof. solve_decision. Defined.

(** ** Collaborator interfaces *)

(** [clica.interface.inputs] *)
Class Inputs := {
  KEY_ENTER_TOKEN : string;
  KEY_CTRL_RIGHT_TOKEN : string;
  COMMAND_TOKENS : list string;
  KEY_CTRL_P : string;
  KEY_CTRL_E : string
}.

(** [cli.agent.tokenizer] *)
Class Tokenizer := {
  encode : string → list Z;
  convert_tokens_to_ids : string → Z
}.

(** The workspace [cli.env] and the [cli._get_env_*] readers. *)
Class Workspace := {
  Env : Type;
  Obs : Type;
  new_env : Env;
  env_step : Env → Z → Env;
  get_obs : Env → Obs;
  get_env_instruction : Env → string;
  get_env_code : Env → string;
  get_env_exec_output : Env → string;
  get_dict_obs_code : Env → list Z;
  cursor_pos : Env → Z
}.

Global Instance Env_inhabited `{Workspace} : Inhabited Env := populate new_env.

(** [cli.agent].  [train_on_actions] receives a reference to the snapshot
    and may update the store; [load] and [run_agent_eval] may raise. *)
Class AgentAPI `{Workspace} := {
  Agent : Type;
  RecurrentState : Type;
  max_gen_length : Agent → Z;
  eos_token : Agent → Z;
  get_action : Agent → option RecurrentState → Obs → option RecurrentState * Z;
  train_on_actions :
    Agent → gmap loc Env → loc → list ActionLogEntry → Agent * gmap loc Env * loc;
  agent_load : Agent → string → Agent * option Exn;
  run_agent_eval : Agent → string → Agent * (Exn + list (string * string))
}.

(** Services: generators, the prompts of [curses_utils] and [os]. *)
Class Services := {
  generate_solution : string → string → string → string;
  get_actions_from_diff : list Z → list Z → Z → list Z;
  get_text_input : string → option string;
  select_from_list : list string → string → list string;
  select_multiple_from_list : list string → string → list string;
  listdir : string → list string;
  isdir : string → bool;
  path_exists : string → bool;
  os_name : string
}.

(** ** The session and the world around it *)

(** The fields of the [cli] object that the handlers read or write.
    [env] and the two training snapshots are references into the store. *)
Record CLI `{AgentAPI} := {
  insert_queue : string;
  curr_reward : Z;
  loaded_model_name : option string;
  model_save_dir : option string;
  eval_data_path : option string;
  last_trained_step : Z;
  last_trained_env : loc;
  last_trained_env_state : option loc;
  env : loc;
  agent : Agent;
  use_db : bool
}.

(** Collaborator invocations worth observing. *)
Inductive Call :=
| GenerateSolution (instruction code exec_output : string)
| GetTextInput (default : string)
| AgentSave (path : string)
| AgentLoad (path : string)
| RunAgentEval (path : string)
| TrainOnActions (snapshot : loc) (ids : list Z).

Global Instance Call_eq_dec : EqDecision Call.
Proof. solve_decision. Defined.

Record World `{AgentAPI} := {
  cli : CLI;
  heap : gmap loc Env;                 (* workspace objects *)
  db : list ActionLogEntry;            (* rows of the action log store *)
  keys : list string;                  (* pending key events *)
  rng : list nat;                      (* pending draws of [random] *)
  term : list TermOp;                  (* terminal trace, oldest first *)
  applied : list (Z * ActionSource);   (* actions applied to [cli.env] *)
  calls : list Call;                   (* collaborator trace *)
  saved : list (string * Agent)        (* what [agent.save] persisted *)
}.

Section Session.
Context `{AgentAPI}.

Definition set_insert_queue (s : string) (c : CLI) : CLI :=
  {| insert_queue := s; curr_reward := curr_reward c;
     loaded_model_name := loaded_model_name c;
     model_save_dir := model_save_dir c; eval_data_path := eval_data_path c;
     last_trained_step := last_trained_step c;
     last_trained_env := last_trained_env c;
     last_trained_env_state := last_trained_env_state c;
     env := env c; agent := agent c; use_db := use_db c |}.

Definition set_curr_reward (r : Z) (c : CLI) : CLI :=
  {| insert_queue := insert_queue c; curr_reward := r;
     loaded_model_name := loaded_model_name c;
     model_save_dir := model_save_dir c; eval_data_path := eval_data_path c;
     last_trained_step := last_trained_step c;
     last_trained_env := last_trained_env c;
     last_trained_env_state := last_trained_env_state c;
     env := env c; agent := agent c; use_db := use_db c |}.

Definition set_loaded_model_name (n : option string) (c : CLI) : CLI :=
  {| insert_queue := insert_queue c; curr_reward := curr_reward c;
     loaded_model_name := n;
     model_save_dir := model_save_dir c; eval_data_path := eval_data_path c;
     last_trained_step := last_trained_step c;
     last_trained_env := last_trained_env c;
     last_trained_env_state := last_trained_env_state c;
     env := env c; agent := agent c; use_db := use_db c |}.

Definition set_last_trained_step (k : Z) (c : CLI) : CLI :=
  {| insert_queue := insert_queue c; curr_reward := curr_reward c;
     loaded_model_name := loaded_model_name c;
     model_save_dir := model_save_dir c; eval_data_path := eval_data_path c;
     last_trained_step := k;
     last_trained_env := last_trained_env c;
     last_trained_env_state := last_trained_env_state c;
     env := env c; agent := agent c; use_db := use_db c |}.

Definition set_last_trained_env (l : loc) (c : CLI) : CLI :=
  {| insert_queue := insert_queue c; curr_reward := curr_reward c;
     loaded_model_name := loaded_model_name c;
     model_save_dir := model_save_dir c; eval_data_path := eval_data_path c;
     last_trained_step := last_trained_step c;
     last_trained_env := l;
     last_trained_env_state := last_trained_env_state c;
     env := env c; agent := agent c; use_db := use_db c |}.

Definition set_last_trained_env_state (l : option loc) (c : CLI) : CLI :=
  {| insert_queue := insert_queue c; curr_reward := curr_reward c;
     loaded_model_name := loaded_model_name c;
     model_save_dir := model_save_dir c; eval_data_path := eval_data_path c;
     last_trained_step := last_trained_step c;
     last_trained_env := last_trained_env c;
     last_trained_env_state := l;
     env := env c; agent := agent c; use_db := use_db c |}.

Definition set_agent (a : Agent) (c : CLI) : CLI :=
  {| insert_queue := insert_queue c; curr_reward := curr_reward c;
     loaded_model_name := loaded_model_name c;
     model_save_dir := model_save_dir c; eval_data_path := eval_data_path c;
     last_trained_step := last_trained_step c;
     last_trained_env := last_trained_env c;
     last_trained_env_state := last_trained_env_state c;
     env := env c; agent := a; use_db := use_db c |}.

Definition with_cli (f : CLI → CLI) (w : World) : World :=
  {| cli := f (cli w); heap := heap w; db := db w; keys := keys w;
     rng := rng w; term := term w; applied := applied w; calls := calls w;
     saved := saved w |}.

Definition with_heap (h : gmap loc Env) (w : World) : World :=
  {| cli := cli w; heap := h; db := db w; keys := keys w;
     rng := rng w; term := term w; applied := applied w; calls := calls w;
     saved := saved w |}.

Definition with_db (d : list ActionLogEntry) (w : World) : World :=
  {| cli := cli w; heap := heap w; db := d; keys := keys w;
     rng := rng w; term := term w; applied := applied w; calls := calls w;
     saved := saved w |}.

Definition with_keys (k : list string) (w : World) : World :=
  {| cli := cli w; heap := heap w; db := db w; keys := k;
     rng := rng w; term := term w; applied := applied w; calls := calls w;
     saved := saved w |}.

Definition with_rng (r : list nat) (w : World) : World :=
  {| cli := cli w; heap := heap w; db := db w; keys := keys w;
     rng := r; term := term w; applied := applied w; calls := calls w;
     saved := saved w |}.

Definition with_term (t : list TermOp) (w : World) : World :=
  {| cli := cli w; heap := heap w; db := db w; keys := keys w;
     rng := rng w; term := t; applied := applied w; calls := calls w;
     saved := saved w |}.

Definition with_applied (a : list (Z * ActionSource)) (w : World) : World :=
  {| cli := cli w; heap := heap w; db := db w; keys := keys w;
     rng := rng w; term := term w; applied := a; calls := calls w;
     saved := saved w |}.

Definition with_calls (c : list Call) (w : World) : World :=
  {| cli := cli w; heap := heap w; db := db w; keys := keys w;
     rng := rng w; term := term w; applied := applied w; calls := c;
     saved := saved w |}.

Definition with_saved (s : list (string * Agent)) (w : World) : World :=
  {| cli := cli w; heap := heap w; db := db w; keys := keys w;
     rng := rng w; term := term w; applied := applied w; calls := calls w;
     saved := s |}.

(** *** The monad of handlers

    A handler either returns, or waits for a key event that the script
    does not hold, or exhausts the fuel of a [while True] loop. *)
Inductive Outcome (A : Type) :=
| Ok (a : A) (w : World)
| Blocked (w : World)
| OutOfFuel.
Global Arguments Ok {A} a w.
Global Arguments Blocked {A} w.
Global Arguments OutOfFuel {A}.

Definition M (A : Type) : Type := World → Outcome A.

Definition ret {A} (a : A) : M A := λ w, Ok a w.

Definition bind {A B} (m : M A) (f : A → M B) : M B :=
  λ w, match m w with
       | Ok a w' => f a w'
       | Blocked w' => Blocked w'
       | OutOfFuel => OutOfFuel
       end.

Definition gets {A} (f : World → A) : M A := λ w, Ok (f w) w.
Definition modify (f : World → World) : M unit := λ w, Ok tt (f w).
End Session.

Notation "x <- c ;; k" := (bind c (λ x, k))
  (at level 100, c at next level, k at level 200, right associativity,
   format "'[v' x  <-  c  ;; '/' k ']'").
Notation "c ;;; k" := (bind c (λ _, k))
  (at level 100, k at level 200, right associativity,
   format "'[v' c  ;;; '/' k ']'").

(** ** Python and library helpers *)

(** Truthiness of an optional string: [None] and [''] are falsy. *)
Definition truthy (o : option string) : bool :=
  match o with
  | Some s => negb (String.eqb s "")
  | None => false
  end.

Definition ESC : string := String "027" "".
Definition NL : string := String "010" "".
Definition CR : string := String "013" "".
Definition CTRL_C : string := String "003" "".

(** [s * n] *)
Fixpoint str_repeat (s : string) (n : nat) : string :=
  match n with
  | O => ""
  | S n' => s +:+ str_repeat s n'
  end.

Definition startswith_sep (s : string) : bool :=
  match s with
  | String "/" _ => true
  | _ => false
  end.

Fixpoint endswith_sep (s : string) : bool :=
  match s with
  | "" => false
  | String c "" => Ascii.eqb c "/"
  | String _ s' => endswith_sep s'
  end.

(** [os.path.join(a, b)] of [posixpath]. *)
Definition os_path_join (a b : string) : string :=
  if startswith_sep b then b
  else if String.eqb a "" || endswith_sep a then a +:+ b
  else a +:+ "/" +:+ b.

(** [str.isspace] on one character; characters are code points below 256. *)
Definition is_space (c : ascii) : bool :=
  let n := nat_of_ascii c in
  ((9 <=? n) && (n <=? 13) || (28 <=? n) && (n <=? 32)
   || (n =? 133) || (n =? 160))%nat.

Fixpoint lstrip (s : string) : string :=
  match s with
  | "" => ""
  | String c s' => if is_space c then lstrip s' else s
  end.

Fixpoint rstrip (s : string) : string :=
  match s with
  | "" => ""
  | String c s' =>
      match rstrip s' with
      | "" => if is_space c then "" else String c ""
      | r => String c r
      end
  end.

(** [s.strip()] *)
Definition strip (s : string) : string := rstrip (lstrip s).

(** [d[k] = v] on an insertion-ordered [dict]: an existing key keeps its
    position. *)
Fixpoint dict_set {V} (k : string) (v : V) (d : list (string * V))
  : list (string * V) :=
  match d with
  | [] => [(k, v)]
  | (k', v') :: d' =>
      if decide (k' = k) then (k, v) :: d' else (k', v') :: dict_set k v d'
  end.

(** Modelled from the spec: [cli.db.get_actions_since_action_id] belongs to
    [clica.database]; it returns, in log order, "all log entries strictly
    after" the given sequence id. *)
Definition get_actions_since_action_id
    (d : list ActionLogEntry) (k : Z) : list ActionLogEntry :=
  List.filter (λ e, (k <? sequence_id e)%Z) d.

Definition next_sequence_id (d : list ActionLogEntry) : Z :=
  (1 + foldr (λ e m, Z.max (sequence_id e) m) 0 d)%Z.

(** ** Primitives of the handlers *)

Inductive Ctl (S R : Type) :=
| Continue (s : S)
| Break (r : R).
Global Arguments Continue {S R} s.
Global Arguments Break {S R} r.

Section Primitives.
Context `{AgentAPI}.

(** One terminal call. *)
Definition term_op (op : TermOp) : M unit :=
  modify (λ w, with_term (term w ++ [op]) w).

(** [cli.stdscr.getkey()]: the next key event of the script. *)
Definition getkey : M string :=
  λ w, match keys w with
       | [] => Blocked w
       | k :: ks => Ok k (with_keys ks w)
       end.

(** [cli.stdscr.getch()] where the code ignores the key. *)
Definition getch : M unit := _ <- getkey ;; ret tt.

(** Modelled from the spec: [cli._query_and_parse_user_key] is a method of
    [cli.py]; it "obtains one input event", already parsed into a plain
    character or a command token. *)
Definition _query_and_parse_user_key : M string := getkey.

Definition record_call (c : Call) : M unit :=
  modify (λ w, with_calls (calls w ++ [c]) w).

Definition update_cli (f : CLI → CLI) : M unit := modify (with_cli f).

(** The object behind [cli.env]. *)
Definition live_env (w : World) : Env := heap w !!! env (cli w).

(** Modelled from the spec: the effect of [cli._env_enact], a method of
    [cli.py].  It applies one action to the workspace ("every mutation of
    the workspace happens through exactly one Action") and, when the log is
    in use, appends its row ("ActionLogEntries are created on every applied
    Action", "sequence_id strictly increasing"). *)
Definition enact_world (action_id : Z) (src : ActionSource) (w : World)
  : World :=
  let w1 :=
    with_heap (alter (λ e, env_step e action_id) (env (cli w)) (heap w)) w in
  let w2 := with_applied (applied w ++ [(action_id, src)]) w1 in
  if use_db (cli w)
  then with_db (db w ++ [ {| sequence_id := next_sequence_id (db w);
                             payload := PAction action_id;
                             action_kind := ACTION;
                             source := src |} ]) w2
  else w2.

(** Modelled from the spec: [cli._env_enact(action_id, source)], see
    [enact_world]. *)
Definition _env_enact (action_id : Z) (src : ActionSource) : M unit :=
  modify (enact_world action_id src).

(** [copy.deepcopy(obj)]: a new object with the same contents. *)
Definition deepcopy (src : loc) : M loc :=
  λ w, let l := fresh (dom (heap w)) in
       Ok l (with_heap (<[l := heap w !!! src]> (heap w)) w).

(** [for x in l: f(x)] *)
Fixpoint for_each {A} (l : list A) (f : A → M unit) : M unit :=
  match l with
  | [] => ret tt
  | x :: l' => f x ;;; for_each l' f
  end.

(** A [for] loop that updates a local variable. *)
Fixpoint for_fold {A S} (l : list A) (f : S → A → M S) (s : S) : M S :=
  match l with
  | [] => ret s
  | x :: l' => s' <- f s x ;; for_fold l' f s'
  end.

(** A [while] loop over local variables [s]: the body either continues
    with new locals or leaves the loop. *)
Fixpoint while_loop {S R} (fuel : nat) (body : S → M (Ctl S R)) (s : S)
  : M R :=
  match fuel with
  | O => λ _, OutOfFuel
  | Datatypes.S fuel' =>
      c <- body s ;;
      match c with
      | Continue s' => while_loop fuel' body s'
      | Break r => ret r
      end
  end.

(** The first [n] iterations of the loop, the last of them included. *)
Fixpoint iterations {S R} (n : nat) (body : S → M (Ctl S R)) (s : S)
  : M (Ctl S R) :=
  match n with
  | O => ret (Continue s)
  | Datatypes.S n' =>
      c <- body s ;;
      match c with
      | Continue s' => iterations n' body s'
      | Break r => ret (Break r)
      end
  end.

(** One draw of the random generator; an exhausted script yields 0. *)
Definition draw : M nat :=
  λ w, match rng w with
       | [] => Ok 0%nat w
       | d :: r => Ok d (with_rng r w)
       end.

(** [random.choices(population, k=k)] *)
Fixpoint random_choices (population : list ascii) (k : nat) : M (list ascii) :=
  match k with
  | O => ret []
  | Datatypes.S k' =>
      d <- draw ;;
      rest <- random_choices population k' ;;
      ret (List.nth (d mod length population) population "000"%char :: rest)
  end.
End Primitives.

(** ** The states *)

(** *** [ExampleState]: the code editor *)
Module ExampleState.
Section Handler.
Context `{AgentAPI} `{!Inputs} `{!Tokenizer}.

Definition _render : M unit := term_op (Render EXAMPLE).

(** The local variables of the loop: [queued_actions] and [render_queued]. *)
Definition Locals : Type := list Z * bool.

(** One pass through the body of [while True].  [Break] carries the value
    of [queued_actions] at the [break]. *)
Definition loop_body (st : Locals) : M (Ctl Locals (list Z)) :=
  let '(queued_actions, render_queued) := st in
  _render ;;;
  match queued_actions with
  | action_id :: queued_actions' =>
      (* queued_actions.pop(0) *)
      _env_enact action_id HUMAN ;;;
      ret (Continue (queued_actions', true))
  | [] =>
      (if render_queued then _render else ret tt) ;;;
      key <- _query_and_parse_user_key ;;
      if decide (key = ESC) then
        buf <- gets (λ w, insert_queue (cli w)) ;;
        if (0 <? String.length buf)%nat then
          let actions := encode buf in
          let queued_actions' :=
            queued_actions ++ [convert_tokens_to_ids KEY_ENTER_TOKEN] in
          update_cli (set_insert_queue "") ;;;
          for_each actions (λ act, _env_enact act HUMAN) ;;;
          ret (Break queued_actions')
        else ret (Break queued_actions)
      else if decide (key = "KEY_RESIZE") then
        ret (Continue (queued_actions, false))
      else if decide (key = KEY_CTRL_RIGHT_TOKEN) then
        buf <- gets (λ w, insert_queue (cli w)) ;;
        update_cli (set_insert_queue "") ;;;
        ret (Continue
               (queued_actions ++ encode buf
                  ++ [convert_tokens_to_ids KEY_ENTER_TOKEN], false))
      else if negb (bool_decide (key ∈ COMMAND_TOKENS)) then
        buf <- gets (λ w, insert_queue (cli w)) ;;
        update_cli (set_insert_queue (buf +:+ key)) ;;;
        ret (Continue (queued_actions, false))
      else
        buf <- gets (λ w, insert_queue (cli w)) ;;
        if (0 <? String.length buf)%nat then
          update_cli (set_insert_queue "") ;;;
          ret (Continue
                 (queued_actions ++ encode buf
                    ++ [convert_tokens_to_ids KEY_ENTER_TOKEN]
                    ++ [convert_tokens_to_ids key], false))
        else
          _env_enact (convert_tokens_to_ids key) HUMAN ;;;
          ret (Continue (queued_actions, false))
  end.

(** Everything up to the end of the loop; the result is the final
    [queued_actions]. *)
Definition edit_loop (fuel : nat) : M (list Z) :=
  term_op (Keypad false) ;;;
  update_cli (set_insert_queue "") ;;;
  while_loop fuel loop_body ([], false).

Definition handle_execution (fuel : nat) : M (option StateId) :=
  _ <- edit_loop fuel ;;
  term_op (Keypad true) ;;;
  ret (Some MENU).

End Handler.
End ExampleState.

(** *** [AutoSolveState] *)
Module AutoSolveState.
Section Handler.
Context `{AgentAPI} `{!Tokenizer} `{!Services}.

Definition _render : M unit := term_op (Render AUTO_SOLVE).

Definition handle_execution : M (option StateId) :=
  _render ;;;
  instruction <- gets (λ w, get_env_instruction (live_env w)) ;;
  if String.eqb (strip instruction) "" then ret (Some MENU)
  else
    code <- gets (λ w, get_env_code (live_env w)) ;;
    exec_output <- gets (λ w, get_env_exec_output (live_env w)) ;;
    record_call (GenerateSolution instruction code exec_output) ;;;
    let solution := generate_solution instruction code exec_output in
    let solution_ids := encode solution in
    current_ids <- gets (λ w, get_dict_obs_code (live_env w)) ;;
    pos <- gets (λ w, cursor_pos (live_env w)) ;;
    let actions := get_actions_from_diff current_ids solution_ids pos in
    for_each actions (λ action, _env_enact action AI ;;; _render) ;;;
    ret (Some MENU).

End Handler.
End AutoSolveState.

(** *** [ExitState] *)
Module ExitState.
Section Handler.
Context `{AgentAPI}.

Definition handle_execution : M (option StateId) := ret None.

End Handler.
End ExitState.

(** *** [AgentTurnState] *)
Module AgentTurnState.
Section Handler.
Context `{AgentAPI}.

(** [MenuState._render(cli)] *)
Definition _render : M unit := term_op (Render MENU).

(** The local variables of the loop: [recurrent_state] and [act_idx]. *)
Definition Locals : Type := option RecurrentState * Z.

Definition loop_body (st : Locals) : M (Ctl Locals unit) :=
  let '(recurrent_state, act_idx) := st in
  max_len <- gets (λ w, max_gen_length (agent (cli w))) ;;
  if (act_idx <? max_len)%Z then
    _render ;;;
    obs <- gets (λ w, get_obs (live_env w)) ;;
    ag <- gets (λ w, agent (cli w)) ;;
    let '(recurrent_state', action) := get_action ag recurrent_state obs in
    _env_enact action AI ;;;
    if (action =? eos_token ag)%Z then ret (Break tt)
    else ret (Continue (recurrent_state', (act_idx + 1)%Z))
  else ret (Break tt).

Definition handle_execution (fuel : nat) : M (option StateId) :=
  while_loop fuel loop_body (None, 0%Z) ;;;
  ret (Some MENU).

End Handler.
End AgentTurnState.

(** *** [TrainState] *)
Module TrainState.
Section Handler.
Context `{AgentAPI}.

Definition train_agent : M unit :=
  actions <- gets (λ w, get_actions_since_action_id
                          (db w) (last_trained_step (cli w))) ;;
  match actions with
  | [] => ret tt
  | first :: _ =>
      env0 <- gets (λ w, last_trained_env (cli w)) ;;
      (* cli.last_trained_env = cli.agent.train_on_actions(env, actions) *)
      record_call (TrainOnActions env0 (sequence_id <$> actions)) ;;;
      modify (λ w,
        let '(ag, h, r) :=
          train_on_actions (agent (cli w)) (heap w) env0 actions in
        with_cli (λ c, set_last_trained_env r (set_agent ag c))
                 (with_heap h w)) ;;;
      (* cli.last_trained_step = actions[-1][0] *)
      update_cli (set_last_trained_step
                    (sequence_id (default first (last actions)))) ;;;
      (* cli.last_trained_env_state = copy.deepcopy(cli.env) *)
      live <- gets (λ w, env (cli w)) ;;
      l <- deepcopy live ;;
      update_cli (set_last_trained_env_state (Some l))
  end.

Definition handle_execution : M (option StateId) :=
  term_op Clear ;;;
  term_op Refresh ;;;
  train_agent ;;;
  term_op (Print "") ;;;
  term_op (Print (str_repeat "=" 40)) ;;;
  term_op (Print "") ;;;
  term_op (Print "Training complete, press any key to return to the menu...") ;;;
  getch ;;;
  ret (Some MENU).

End Handler.
End TrainState.

(** *** [SaveModelState] *)
Module SaveModelState.
Section Handler.
Context `{AgentAPI} `{!Services}.

Definition ascii_lowercase : string := "abcdefghijklmnopqrstuvwxyz".
Definition digits : string := "0123456789".

Definition _generate_default_model_name : M string :=
  picks <- random_choices
             (list_ascii_of_string (ascii_lowercase +:+ digits)) 6 ;;
  let random_id := string_of_list_ascii picks in
  ret ("model_" +:+ random_id).

(** [cli.agent.save(full_path)] *)
Definition agent_save (full_path : string) : M unit :=
  record_call (AgentSave full_path) ;;;
  modify (λ w, with_saved (saved w ++ [(full_path, agent (cli w))]) w).

Definition handle_execution : M (option StateId) :=
  term_op Clear ;;;
  save_dir <- gets (λ w, model_save_dir (cli w)) ;;
  if negb (truthy save_dir) then
    term_op (AddStr 0 0 "Error: model_save_dir not set in config") ;;;
    term_op (AddStr 2 0 "Press any key to continue...") ;;;
    term_op Refresh ;;;
    getch ;;;
    ret (Some MENU)
  else
    let prompt := "Enter model name to save: " in
    term_op (WriterWrite prompt A_BOLD) ;;;
    term_op (WriterSkip 1) ;;;
    term_op (WriterWrite "[ENTER] save | [ESC] cancel" A_NORMAL) ;;;
    loaded <- gets (λ w, loaded_model_name (cli w)) ;;
    default_name <-
      (if truthy loaded then ret (default "" loaded)
       else _generate_default_model_name) ;;
    term_op (Subwin 1 40 0 (Z.of_nat (String.length prompt))) ;;;
    term_op Refresh ;;;
    record_call (GetTextInput default_name) ;;;
    match get_text_input default_name with
    | None => ret (Some MENU)
    | Some model_name =>
        term_op Clear ;;;
        if String.eqb model_name "" then
          term_op (AddStr 0 0 "Error: Model needs a name to save") ;;;
          term_op (AddStr 2 0 "Press any key to try again...") ;;;
          getch ;;;
          ret (Some SAVE_MODEL)
        else
          let full_path := os_path_join (default "" save_dir) model_name in
          agent_save full_path ;;;
          update_cli (set_loaded_model_name (Some model_name)) ;;;
          term_op (AddStr 0 0 ("Model saved to: " +:+ full_path)) ;;;
          term_op (AddStr 2 0 "Press any key to continue...") ;;;
          getch ;;;
          ret (Some MENU)
    end.

End Handler.
End SaveModelState.

(** *** [LoadModelState] *)
Module LoadModelState.
Section Handler.
Context `{AgentAPI} `{!Services}.

(** [cli.agent.load(full_path)]: the exception, if one was raised. *)
Definition load (full_path : string) : M (option Exn) :=
  record_call (AgentLoad full_path) ;;;
  ag <- gets (λ w, agent (cli w)) ;;
  let '(ag', r) := agent_load ag full_path in
  update_cli (set_agent ag') ;;;
  ret r.

(** The body of [for selected_model in selected_models]. *)
Definition load_one (save_dir selected_model : string) : M unit :=
  let full_path := os_path_join save_dir selected_model in
  term_op Clear ;;;
  term_op (AddStr 0 0 ("Loading model '" +:+ selected_model +:+ "'...")) ;;;
  term_op Refresh ;;;
  r <- load full_path ;;
  match r with
  | None => update_cli (set_loaded_model_name (Some selected_model))
  | Some e =>
      term_op Clear ;;;
      term_op (AddStr 0 0 ("Error loading model '" +:+ selected_model
                             +:+ "': " +:+ exn_str e)) ;;;
      term_op (AddStr 2 0 "Press any key to continue...") ;;;
      term_op Refresh ;;;
      getch
  end.

Definition handle_execution : M (option StateId) :=
  save_dir <- gets (λ w, model_save_dir (cli w)) ;;
  if negb (truthy save_dir) then
    term_op Clear ;;;
    term_op (AddStr 0 0 "Error: model_save_dir not set in config") ;;;
    term_op (AddStr 2 0 "Press any key to continue...") ;;;
    term_op Refresh ;;;
    getch ;;;
    ret (Some MENU)
  else
    let dir := default "" save_dir in
    let model_files :=
      List.filter (λ f, isdir (os_path_join dir f)) (listdir dir) in
    match model_files with
    | [] =>
        term_op Clear ;;;
        term_op (AddStr 0 0 "No saved models found.") ;;;
        term_op (AddStr 2 0 "Press any key to continue...") ;;;
        term_op Refresh ;;;
        getch ;;;
        ret (Some MENU)
    | _ =>
        let selected_models :=
          select_from_list model_files "Select model to load:" in
        match selected_models with
        | [] => ret (Some MENU)
        | first :: others =>
            for_each selected_models (load_one dir) ;;;
            term_op Clear ;;;
            term_op (AddStr 0 0
              (match others with
               | [] => "Model '" +:+ first +:+ "' loaded!"
               | _ => pretty (length selected_models) +:+ " models loaded!"
               end)) ;;;
            term_op (AddStr 2 0 "Press any key to continue...") ;;;
            term_op Refresh ;;;
            getch ;;;
            ret (Some MENU)
        end
    end.

End Handler.
End LoadModelState.

(** *** [EvalState] *)
Module EvalState.
Section Handler.
Context `{AgentAPI} `{!Services}.

(** The [results] dictionary: item to its metrics, in insertion order. *)
Definition Results : Type := list (string * list (string * string)).

(** [run_agent_eval(cli.agent, item_path)]: a result or the exception. *)
Definition run_eval (item_path : string)
  : M (Exn + list (string * string)) :=
  record_call (RunAgentEval item_path) ;;;
  ag <- gets (λ w, agent (cli w)) ;;
  let '(ag', r) := run_agent_eval ag item_path in
  update_cli (set_agent ag') ;;;
  ret r.

(** The body of [for item in selected_items]. *)
Definition eval_one (eval_data_path : string) (results : Results)
    (item : string) : M Results :=
  term_op (System (if String.eqb os_name "nt" then "cls" else "clear")) ;;;
  term_op (Print (NL +:+ "Running evaluation: " +:+ item +:+ NL)) ;;;
  term_op (Print (str_repeat "=" 40)) ;;;
  let item_path := os_path_join eval_data_path item in
  r <- run_eval item_path ;;
  match r with
  | inr result => ret (dict_set item result results)
  | inl e =>
      let stack_trace := exn_trace e in
      ret (dict_set item
             [("error", exn_str e); ("stack_trace", stack_trace)] results)
  end.

(** The body of [for item, result in results.items()]. *)
Definition show_one (entry : string * list (string * string)) : M unit :=
  let '(item, result) := entry in
  term_op (WriterWrite ("=== " +:+ item +:+ " ===") A_BOLD) ;;;
  for_each result (λ mv,
    term_op (WriterWrite (mv.1 +:+ ": " +:+ mv.2) A_NORMAL)) ;;;
  term_op (WriterSkip 1).

Definition press_any_key_to_menu (msg : string) : M (option StateId) :=
  term_op (AddStr 0 0 msg) ;;;
  term_op (AddStr 2 0 "Press any key to continue...") ;;;
  term_op Refresh ;;;
  getch ;;;
  ret (Some MENU).

Definition handle_execution : M (option StateId) :=
  eval_data_path <- gets (λ w, eval_data_path (cli w)) ;;
  term_op Clear ;;;
  if negb (truthy eval_data_path) then
    press_any_key_to_menu "Error: eval_data_path not set in config"
  else
    let path := default "" eval_data_path in
    if negb (path_exists path) then
      press_any_key_to_menu
        ("Error: Invalid eval_data_path in config: " +:+ path)
    else
      let eval_items :=
        List.filter (λ f, path_exists (os_path_join path f)) (listdir path) in
      match eval_items with
      | [] => press_any_key_to_menu "No eval options found."
      | _ =>
          let selected_items :=
            select_multiple_from_list eval_items "Select evals to run:" in
          match selected_items with
          | [] => ret (Some MENU)
          | _ =>
              term_op Refresh ;;;
              term_op SaveTty ;;;
              term_op ResetShellMode ;;;
              results <- for_fold selected_items (eval_one path) [] ;;
              term_op ResetTty ;;;
              term_op Clear ;;;
              for_each results show_one ;;;
              term_op (WriterWrite "Press any key to continue..." A_NORMAL) ;;;
              term_op Refresh ;;;
              getch ;;;
              ret (Some MENU)
          end
      end.

End Handler.
End EvalState.

(** *** [MenuState] *)
Module MenuState.
Section Handler.
Context `{AgentAPI} `{!Inputs}.

(** The dictionary literal [key_to_state]: a later duplicate key wins. *)
Definition key_to_state : gmap string StateId :=
  foldl (λ m kv, <[kv.1 := kv.2]> m) ∅
    [ ("p", PROMPT);
      (KEY_CTRL_P, AUTO_PROMPT);
      (",", AUTO_PROMPT);
      ("e", EXAMPLE);
      ("t", TRAIN);
      ("s", SAVE_MODEL);
      ("l", LOAD_MODEL);
      (NL, AGENT_TURN);
      (CR, AGENT_TURN);
      (KEY_CTRL_E, AUTO_SOLVE);
      (".", AUTO_SOLVE);
      (ESC, EXIT);
      (CTRL_C, EXIT);
      ("r", RESET_SESSION);
      ("v", EVAL) ].

Definition _render : M unit := term_op (Render MENU).

Definition handle_execution : M (option StateId) :=
  _render ;;;
  key <- getkey ;;
  state <-
    match key_to_state !! key with
    | Some st => ret (Some st)
    | None =>
        if bool_decide (key ∈ ["+"; "="]) then
          update_cli (λ c, set_curr_reward (curr_reward c + 1)%Z c) ;;;
          ret None
        else if decide (key = "-") then
          update_cli (λ c, set_curr_reward (curr_reward c - 1)%Z c) ;;;
          ret None
        else ret None
    end ;;
  (* return state or MenuState *)
  ret (Some (default MENU state)).

End Handler.
End MenuState.

(** ** A concrete session

    Small collaborators on which the handlers can be run: a tokenizer that
    maps a character to its code and a command token to its rank, a
    workspace that remembers its instruction and the actions applied to it,
    an agent that plays back a script, and scripted services. *)
Module Fixture.

Definition CTRL_P : string := String "016" "".
Definition CTRL_E : string := String "005" "".

#[export] Instance inputs : Inputs := {|
  KEY_ENTER_TOKEN := "<|KEY_ENTER|>";
  KEY_CTRL_RIGHT_TOKEN := "<|KEY_CTRL_RIGHT|>";
  COMMAND_TOKENS :=
    ["<|KEY_ENTER|>"; "<|KEY_CTRL_RIGHT|>"; "<|KEY_UP|>"; "<|KEY_DOWN|>";
     "<|KEY_CTRL_R|>"];
  KEY_CTRL_P := CTRL_P;
  KEY_CTRL_E := CTRL_E
|}.

Fixpoint rank (tok : string) (l : list string) : Z :=
  match l with
  | [] => 0
  | t :: l' => if String.eqb t tok then 256 else 1 + rank tok l'
  end.

#[export] Instance tokenizer : Tokenizer := {|
  encode := λ s, (λ c, Z.of_nat (nat_of_ascii c)) <$> list_ascii_of_string s;
  convert_tokens_to_ids := λ tok, rank tok COMMAND_TOKENS
|}.

#[export] Instance workspace : Workspace := {|
  Env := string * list Z;
  Obs := list Z;
  new_env := ("", []);
  env_step := λ e a, (e.1, e.2 ++ [a]);
  get_obs := snd;
  get_env_instruction := fst;
  get_env_code := λ _, "";
  get_env_exec_output := λ _, "";
  get_dict_obs_code := snd;
  cursor_pos := λ e, Z.of_nat (length e.2)
|}.

Record ScriptedAgent := {
  script : list Z;
  max_len : Z;
  eos : Z
}.

Definition action_of (e : ActionLogEntry) : Z :=
  match payload e with
  | PAction a => a
  | PText _ => 0
  end.

Definition broken_exn : Exn :=
  {| exn_str := "corrupt checkpoint"; exn_trace := "Traceback: load" |}.

#[export] Instance agent_api : AgentAPI := {|
  Agent := ScriptedAgent;
  RecurrentState := nat;
  max_gen_length := max_len;
  eos_token := eos;
  get_action := λ ag rs _,
    let i := default 0%nat rs in
    (Some (S i), List.nth i (script ag) (eos ag));
  train_on_actions := λ ag h l actions,
    (ag, alter (λ e : string * list Z, (e.1, e.2 ++ (action_of <$> actions))) l h, l);
  agent_load := λ ag path,
    if String.eqb path "models/broken" then (ag, Some broken_exn)
    else ({| script := [Z.of_nat (String.length path)];
             max_len := max_len ag; eos := eos ag |}, None);
  run_agent_eval := λ ag path,
    if String.eqb path "evals/bad" then (ag, inl broken_exn)
    else (ag, inr [("accuracy", "1.0")])
|}.

(** Services whose prompts answer with [answer] and [selection]. *)
Definition services (answer : option string) (selection : list string)
  : Services := {|
  generate_solution := λ _ _ _, "x";
  get_actions_from_diff := λ _ solution_ids _, solution_ids;
  get_text_input := λ _, answer;
  select_from_list := λ _ _, selection;
  select_multiple_from_list := λ _ _, selection;
  listdir := λ d, if String.eqb d "models" then ["a"; "broken"; "c"]
                  else if String.eqb d "evals" then ["good"; "bad"; "fine"]
                  else [];
  isdir := λ _, true;
  path_exists := λ _, true;
  os_name := "posix"
|}.

Definition agent0 : ScriptedAgent :=
  {| script := [7; 8; 9; 5; 6]; max_len := 4; eos := 9 |}%Z.

Definition cli0 : CLI := {|
  insert_queue := "";
  curr_reward := 0;
  loaded_model_name := None;
  model_save_dir := Some "models";
  eval_data_path := Some "evals";
  last_trained_step := 0;
  last_trained_env := 2%positive;
  last_trained_env_state := None;
  env := 1%positive;
  agent := agent0;
  use_db := true
|}.

Definition world0 (ks : list string) : World := {|
  cli := cli0;
  heap := {[ 1%positive := ("", []); 2%positive := ("", []) ]};
  db := [];
  keys := ks;
  rng := [3; 40; 0; 35; 26; 7]%nat;
  term := [];
  applied := [];
  calls := [];
  saved := []
|}.

End Fixture.

(** ** Vocabulary of the statements *)

Section PrimitiveVocabulary.
Context `{AgentAPI}.

(** Applying a list of actions, one call of [_env_enact] each. *)
Definition enact_all (l : list Z) (src : ActionSource) (w : World) : World :=
  foldl (λ w a, enact_world a src w) w l.

End PrimitiveVocabulary.

Section ExampleVocabulary.
Context `{AgentAPI} `{!Inputs} `{!Tokenizer}.
Import ExampleState.

(** [queued_actions] is drained one action per pass, each after a redraw. *)
Definition drained (q : list Z) (w : World) : World :=
  foldl (λ w a, enact_world a HUMAN (with_term (term w ++ [Render EXAMPLE]) w))
        w q.

(** The text typed by a run of keys. *)
Definition typed (txt : list string) : string := foldr String.app "" txt.

(** A key that is appended to the text buffer. *)
Definition plain_text (key : string) : Prop :=
  key ≠ ESC ∧ key ≠ "KEY_RESIZE" ∧ key ≠ KEY_CTRL_RIGHT_TOKEN
  ∧ key ∉ COMMAND_TOKENS.

(** The redraws at the top of one pass that reads a key. *)
Definition redrawn (render_queued : bool) (w : World) : World :=
  with_term (term w ++ [Render EXAMPLE]
               ++ (if render_queued then [Render EXAMPLE] else [])) w.

End ExampleVocabulary.

Section TrainVocabulary.
Context `{AgentAPI}.
Import TrainState.

(** The rows [train_agent] reads: those after the checkpoint marker. *)
Definition entries_after (w : World) : list ActionLogEntry :=
  get_actions_since_action_id (db w) (last_trained_step (cli w)).

(** Repeated training, each call seeing its own state of the log. *)
Fixpoint train_all (logs : list (list ActionLogEntry)) : M (list Z) :=
  match logs with
  | [] => ret []
  | d :: logs' =>
      modify (with_db d) ;;;
      train_agent ;;;
      k <- gets (λ w, last_trained_step (cli w)) ;;
      ks <- train_all logs' ;;
      ret (k :: ks)
  end.

Definition by_sequence_id (a b : ActionLogEntry) : Prop :=
  (sequence_id a < sequence_id b)%Z.

(** What C2 says of the snapshot: the object the next [train_agent] call
    replays against is new, is not the live workspace, and holds a copy of
    the live workspace.  [w] is the world before the call, [w'] after. *)
Definition baseline_is_copy_of_live (w w' : World) : Prop :=
  (last_trained_env (cli w') ∉ dom (heap w))
  ∧ last_trained_env (cli w') ≠ env (cli w')
  ∧ heap w' !! last_trained_env (cli w') = heap w' !! env (cli w').

End TrainVocabulary.

Section MenuVocabulary.
Context `{AgentAPI} `{!Inputs}.
Import MenuState.


End MenuVocabulary.

Section AutoSolveVocabulary.
Context `{AgentAPI} `{!Tokenizer} `{!Services}.
Import AutoSolveState.

(** Empty or made of whitespace only. *)
Fixpoint all_whitespace (s : string) : bool :=
  match s with
  | "" => true
  | String c s' => is_space c && all_whitespace s'
  end.

End AutoSolveVocabulary.

Section SaveModelVocabulary.
Context `{AgentAPI} `{!Services}.
Import SaveModelState.

(** The characters a random identifier is drawn from. *)
Definition alphabet : list ascii :=
  list_ascii_of_string (ascii_lowercase +:+ digits).

(** What [random.choices] picks for a given script of draws. *)
Fixpoint pick_chars (population : list ascii) (k : nat) (draws : list nat)
  : list ascii :=
  match k with
  | O => []
  | S k' =>
      match draws with
      | [] => List.nth (0 mod length population) population "000"%char
                :: pick_chars population k' []
      | d :: draws' =>
          List.nth (d mod length population) population "000"%char
            :: pick_chars population k' draws'
      end
  end.

(** The name the prompt of [SaveModelState] offers. *)
Definition offered_default (w : World) : string :=
  if truthy (loaded_model_name (cli w))
  then default "" (loaded_model_name (cli w))
  else "model_" +:+ string_of_list_ascii (pick_chars alphabet 6 (rng w)).

(** The world when [get_text_input] is called. *)
Definition prompted (w : World) : World :=
  with_calls (calls w ++ [GetTextInput (offered_default w)])
    (with_term (term w ++ [Clear;
        WriterWrite "Enter model name to save: " A_BOLD; WriterSkip 1;
        WriterWrite "[ENTER] save | [ESC] cancel" A_NORMAL;
        Subwin 1 40 0 26; Refresh])
       (with_rng (if truthy (loaded_model_name (cli w)) then rng w
                  else drop 6 (rng w)) w)).

(** What C8 says of a visit with a save directory configured: unless the
    entered name is empty, the agent is persisted under directory/name,
    that name becomes the remembered loaded name and the state returns to
    the menu.  [w] is the world before the visit, [next] and [w'] are what
    the visit returned. *)
Definition persisted_unless_empty
    (w : World) (next : option StateId) (w' : World) : Prop :=
  get_text_input (offered_default w) ≠ Some "" →
  next = Some MENU
  ∧ ∃ name,
      saved w'
      = saved w ++ [(os_path_join (default "" (model_save_dir (cli w))) name,
                     agent (cli w))]
      ∧ loaded_model_name (cli w') = Some name.

End SaveModelVocabulary.

Section LoadModelVocabulary.
Context `{AgentAPI} `{!Services}.
Import LoadModelState.

(** What [cli.agent.load] answers for each selected model, in order; the
    agent is the one left by the previous call. *)
Fixpoint load_outcomes (ag : Agent) (dir : string) (selected : list string)
  : list (string * option Exn) :=
  match selected with
  | [] => []
  | m :: ms =>
      (m, (agent_load ag (os_path_join dir m)).2)
        :: load_outcomes (agent_load ag (os_path_join dir m)).1 dir ms
  end.

Definition load_failed (o : string * option Exn) : bool :=
  match o.2 with
  | Some _ => true
  | None => false
  end.

(** The name remembered after a run of loads. *)
Definition remembered (old : option string)
    (outcomes : list (string * option Exn)) : option string :=
  foldl (λ name o, if load_failed o then name else Some o.1) old outcomes.

Definition load_error_line (m : string) (e : Exn) : TermOp :=
  AddStr 0 0 ("Error loading model '" +:+ m +:+ "': " +:+ exn_str e).

End LoadModelVocabulary.

Section EvalVocabulary.
Context `{AgentAPI} `{!Services}.
Import EvalState.

(** What is stored in [results] for an evaluation that returned or raised. *)
Definition as_result (o : Exn + list (string * string))
  : list (string * string) :=
  match o with
  | inr result => result
  | inl e => [("error", exn_str e); ("stack_trace", exn_trace e)]
  end.

(** What [run_agent_eval] answers for each selected item, in order. *)
Fixpoint eval_outcomes (ag : Agent) (path : string) (items : list string)
  : list (string * (Exn + list (string * string))) :=
  match items with
  | [] => []
  | item :: rest =>
      (item, (run_agent_eval ag (os_path_join path item)).2)
        :: eval_outcomes (run_agent_eval ag (os_path_join path item)).1
             path rest
  end.

(** What is printed before an item is evaluated. *)
Definition eval_banner (item : string) : list TermOp :=
  [System (if String.eqb os_name "nt" then "cls" else "clear");
   Print (NL +:+ "Running evaluation: " +:+ item +:+ NL);
   Print (str_repeat "=" 40)].

(** The lines of the results view for one entry of [results]. *)
Definition result_section (entry : string * list (string * string))
  : list TermOp :=
  WriterWrite ("=== " +:+ entry.1 +:+ " ===") A_BOLD
    :: ((λ mv, WriterWrite (mv.1 +:+ ": " +:+ mv.2) A_NORMAL) <$> entry.2)
    ++ [WriterSkip 1].

End EvalVocabulary.

Section EditorVocabulary.
Context `{AgentAPI} `{!Inputs} `{!Tokenizer}.
Import ExampleState.

(** What the editor may do to the world: it applies actions as the human,
    consumes key events and edits the text buffer; it leaves the
    collaborators, the saved models, the random draws and every other field
    of [cli] alone. *)
Definition editor_step (w w1 : World) : Prop :=
  (∃ acts, applied w1 = applied w ++ ((λ a, (a, HUMAN)) <$> acts))
  ∧ calls w1 = calls w
  ∧ saved w1 = saved w
  ∧ rng w1 = rng w
  ∧ set_insert_queue "" (cli w1) = set_insert_queue "" (cli w)
  ∧ (∃ used, keys w = used ++ keys w1).

End EditorVocabulary.

Section AgentTurnTraceVocabulary.
Context `{AgentAPI}.
Import AgentTurnState.

(** The actions of a turn of at most [n] steps: each is chosen from the
    observation of the workspace as the previous action left it and from
    the recurrent state that the previous call returned. *)
Fixpoint generated (ag : Agent) (n : nat) (rs : option RecurrentState)
    (e : Env) : list Z :=
  match n with
  | O => []
  | S n' =>
      let ra := get_action ag rs (get_obs e) in
      ra.2 :: (if (ra.2 =? eos_token ag)%Z then []
               else generated ag n' ra.1 (env_step e ra.2))
  end.

End AgentTurnTraceVocabulary.

Section LoadModelRunVocabulary.
Context `{AgentAPI} `{!Services}.
Import LoadModelState.

(** The last view of [LoadModelState]. *)
Definition closing_view (selected : list string) : list TermOp :=
  [Clear;
   AddStr 0 0 (match selected with
               | [m] => "Model '" +:+ m +:+ "' loaded!"
               | _ => pretty (length selected) +:+ " models loaded!"
               end);
   AddStr 2 0 "Press any key to continue...";
   Refresh].

End LoadModelRunVocabulary.

Section EvalRunVocabulary.
Context `{AgentAPI} `{!Services}.
Import EvalState.

(** The [results] dictionary after the loop over the selected items. *)
Definition collected
    (outcomes : list (string * (Exn + list (string * string)))) : Results :=
  foldl (λ d o, dict_set o.1 (as_result o.2) d) [] outcomes.

End EvalRunVocabulary.

(** ** Scenarios *)
Module Scenarios.
Import Fixture.

(** The user types "hi" and leaves the editor. *)
Definition types_hi_then_escape : World := world0 ["h"; "i"; ESC].

(** "hi" is pending in the text buffer when the up key arrives. *)
Definition pending_hi_then_up : World :=
  with_cli (set_insert_queue "hi") (world0 ["<|KEY_UP|>"; ESC]).

(** One action was logged; the snapshot of the last training is empty, and
    the live workspace also carries an instruction. *)
Definition logged_action : ActionLogEntry :=
  {| sequence_id := 1; payload := PAction 5; action_kind := ACTION;
     source := HUMAN |}.

Definition edited_then_logged : World :=
  with_db [logged_action]
    (with_heap {[ 1%positive := ("demo", [5%Z]); 2%positive := ("", []) ]}
       (world0 [])).

(** The instruction of the workspace is a space, a tab and a newline. *)
Definition blank_instruction : World :=
  with_heap {[ 1%positive := (String " " (String "009" NL), [4%Z]);
               2%positive := ("", []) ]}
    (world0 []).

(** The agent is configured with a negative generation length. *)
Definition no_budget : World :=
  with_cli (set_agent {| script := [7%Z]; max_len := (-2)%Z; eos := 9%Z |})
    (world0 ["k"]).

End Scenarios.

(** * Lemmas *)

(** ** Facts about the primitives *)
Section PrimitiveFacts.
Context `{AgentAPI}.

Lemma getch_cons (w : World) (k : string) (ks : list string) :
  keys w = k :: ks → getch w = Ok tt (with_keys ks w).
Proof. intros E. unfold getch, bind, getkey. by rewrite E. Qed.

(** Two worlds with the same components are equal. *)
Lemma world_eq (w1 w2 : World) :
  cli w1 = cli w2 → heap w1 = heap w2 → db w1 = db w2 → keys w1 = keys w2 →
  rng w1 = rng w2 → term w1 = term w2 → applied w1 = applied w2 →
  calls w1 = calls w2 → saved w1 = saved w2 → w1 = w2.
Proof. destruct w1, w2; cbn; congruence. Qed.

Lemma cli_enact_world a src (w : World) : cli (enact_world a src w) = cli w.
Proof. unfold enact_world. by destruct (use_db (cli w)). Qed.

Lemma keys_enact_world a src (w : World) : keys (enact_world a src w) = keys w.
Proof. unfold enact_world. by destruct (use_db (cli w)). Qed.

Lemma calls_enact_world a src (w : World) : calls (enact_world a src w) = calls w.
Proof. unfold enact_world. by destruct (use_db (cli w)). Qed.

Lemma applied_enact_world a src (w : World) :
  applied (enact_world a src w) = applied w ++ [(a, src)].
Proof. unfold enact_world. by destruct (use_db (cli w)). Qed.

Lemma enact_all_cons a l src (w : World) :
  enact_all (a :: l) src w = enact_all l src (enact_world a src w).
Proof. done. Qed.

Lemma for_each_enact (l : list Z) src (w : World) :
  for_each l (λ a, _env_enact a src) w = Ok tt (enact_all l src w).
Proof.
  revert w. induction l as [|a l IH]; intros w; [done|].
  cbn. unfold bind. cbn. apply IH.
Qed.

Lemma cli_enact_all l src (w : World) : cli (enact_all l src w) = cli w.
Proof.
  revert w. induction l as [|a l IH]; intros w; [done|].
  rewrite enact_all_cons, IH. apply cli_enact_world.
Qed.

Lemma keys_enact_all l src (w : World) : keys (enact_all l src w) = keys w.
Proof.
  revert w. induction l as [|a l IH]; intros w; [done|].
  rewrite enact_all_cons, IH. apply keys_enact_world.
Qed.

Lemma applied_enact_all l src (w : World) :
  applied (enact_all l src w) = applied w ++ ((λ a, (a, src)) <$> l).
Proof.
  revert w. induction l as [|a l IH]; intros w.
  - cbn. by rewrite app_nil_r.
  - rewrite enact_all_cons, IH, applied_enact_world, <- app_assoc. done.
Qed.

End PrimitiveFacts.

(** Equality of two results, component by component. *)
Ltac same_world :=
  f_equal; apply world_eq; cbn; rewrite <- ?app_assoc; try done.

(** A decidable proposition holds when its decision procedure says so. *)
Ltac decide_by_compute := apply (bool_decide_unpack _); vm_compute; exact I.

(** ** [ExampleState] *)
Section ExampleFacts.
Context `{AgentAPI} `{!Inputs} `{!Tokenizer}.
Import ExampleState.

Lemma loop_body_plain (w : World) (rq : bool) (key : string) (rest : list string) :
  keys w = key :: rest → plain_text key →
  loop_body ([], rq) w
  = Ok (Continue ([], false))
       (with_cli (set_insert_queue (insert_queue (cli w) +:+ key))
          (with_keys rest (redrawn rq w))).
Proof.
  intros Hk (Hesc & Hres & Hright & Hcmd).
  unfold loop_body, bind, _render, term_op, modify,
    _query_and_parse_user_key, getkey.
  destruct rq; cbn; rewrite Hk; cbn;
    rewrite !decide_False by done; rewrite bool_decide_false by done; cbn;
    unfold redrawn, with_term, with_keys, with_cli; cbn;
    rewrite <- ?app_assoc; done.
Qed.

Lemma loop_body_pop (w : World) (rq : bool) (a : Z) (q : list Z) :
  loop_body (a :: q, rq) w
  = Ok (Continue (q, true))
       (enact_world a HUMAN (with_term (term w ++ [Render EXAMPLE]) w)).
Proof. done. Qed.

Lemma loop_body_escape (w : World) (rq : bool) (rest : list string) :
  keys w = ESC :: rest →
  loop_body ([], rq) w
  = if (0 <? String.length (insert_queue (cli w)))%nat
    then Ok (Break [convert_tokens_to_ids KEY_ENTER_TOKEN])
            (enact_all (encode (insert_queue (cli w))) HUMAN
               (with_cli (set_insert_queue "")
                  (with_keys rest (redrawn rq w))))
    else Ok (Break []) (with_keys rest (redrawn rq w)).
Proof.
  intros Hk.
  unfold loop_body, bind, _render, term_op, modify, gets, update_cli,
    _query_and_parse_user_key, getkey.
  destruct rq; cbn -[for_each _env_enact]; rewrite Hk;
    cbn -[for_each _env_enact]; rewrite decide_True by done;
    cbn -[for_each _env_enact];
    (destruct (String.length (insert_queue (cli w))); cbn -[for_each _env_enact];
     [ | rewrite for_each_enact; cbn ];
     unfold redrawn, with_term, with_keys, with_cli; cbn;
     rewrite <- ?app_assoc; done).
Qed.

Lemma loop_body_command (w : World) (rq : bool) (key : string) (rest : list string) :
  keys w = key :: rest →
  key ≠ ESC → key ≠ "KEY_RESIZE" → key ≠ KEY_CTRL_RIGHT_TOKEN →
  key ∈ COMMAND_TOKENS →
  insert_queue (cli w) ≠ "" →
  loop_body ([], rq) w
  = Ok (Continue (encode (insert_queue (cli w))
                    ++ [convert_tokens_to_ids KEY_ENTER_TOKEN;
                        convert_tokens_to_ids key], false))
       (with_cli (set_insert_queue "") (with_keys rest (redrawn rq w))).
Proof.
  intros Hk Hesc Hres Hright Hcmd Hbuf.
  assert (∃ n, String.length (insert_queue (cli w)) = S n) as [n Hlen].
  { destruct (insert_queue (cli w)); [done|]. cbn. eauto. }
  unfold loop_body, bind, _render, term_op, modify, gets, update_cli,
    _query_and_parse_user_key, getkey.
  destruct rq; cbn; rewrite Hk; cbn;
    rewrite !decide_False by done; rewrite bool_decide_true by done; cbn;
    rewrite Hlen; cbn;
    unfold redrawn, with_term, with_keys, with_cli; cbn;
    rewrite <- ?app_assoc; done.
Qed.

Lemma iterations_drain (q : list Z) (rq : bool) (w : World) :
  iterations (length q) loop_body (q, rq) w
  = Ok (Continue ([], match q with [] => rq | _ => true end)) (drained q w).
Proof.
  revert rq w. induction q as [|a q IH]; intros rq w; [done|].
  cbn [length iterations]. unfold bind at 1. rewrite loop_body_pop.
  rewrite IH. by destruct q.
Qed.

Lemma cli_drained q (w : World) : cli (drained q w) = cli w.
Proof.
  revert w. induction q as [|a q IH]; intros w; [done|].
  cbn. unfold drained in IH. rewrite IH, cli_enact_world. done.
Qed.

Lemma keys_drained q (w : World) : keys (drained q w) = keys w.
Proof.
  revert w. induction q as [|a q IH]; intros w; [done|].
  cbn. unfold drained in IH. rewrite IH, keys_enact_world. done.
Qed.

Lemma applied_drained q (w : World) :
  applied (drained q w) = applied w ++ ((λ a, (a, HUMAN)) <$> q).
Proof.
  revert w. induction q as [|a q IH]; intros w.
  - cbn. by rewrite app_nil_r.
  - cbn. unfold drained in IH. rewrite IH, applied_enact_world.
    cbn. by rewrite <- app_assoc.
Qed.

Lemma str_app_assoc (a b c : string) : (a +:+ b) +:+ c = a +:+ (b +:+ c).
Proof.
  induction a as [|x a IH]; [done|].
  change (String x ((a +:+ b) +:+ c) = String x (a +:+ (b +:+ c))).
  by rewrite IH.
Qed.

Lemma str_app_nil_r (a : string) : a +:+ "" = a.
Proof.
  induction a as [|x a IH]; [done|].
  change (String x (a +:+ "") = String x a). by rewrite IH.
Qed.

(** Typing plain text and then escape: the buffered text is applied, the
    commit action is appended to [queued_actions] and the loop is left. *)
Lemma while_loop_text_then_escape (txt rest : list string) :
  ∀ (w : World) (rq : bool) (fuel : nat),
    keys w = txt ++ ESC :: rest →
    Forall plain_text txt →
    length txt < fuel →
    let buf := insert_queue (cli w) +:+ typed txt in
    ∃ w', while_loop fuel loop_body ([], rq) w
          = Ok (if (0 <? String.length buf)%nat
                then [convert_tokens_to_ids KEY_ENTER_TOKEN] else []) w'
        ∧ applied w'
          = applied w ++ (if (0 <? String.length buf)%nat
                          then (λ a, (a, HUMAN)) <$> encode buf else [])
        ∧ insert_queue (cli w') = (if (0 <? String.length buf)%nat then "" else buf)
        ∧ keys w' = rest.
Proof.
  induction txt as [|key txt IH]; intros w rq fuel Hk Hplain Hfuel buf.
  - destruct fuel as [|fuel]; [cbn in Hfuel; lia|].
    subst buf. cbn [typed foldr]. rewrite str_app_nil_r.
    cbn [while_loop]. unfold bind at 1.
    rewrite (loop_body_escape w rq rest Hk).
    destruct (0 <? String.length (insert_queue (cli w)))%nat eqn:E.
    + eexists. split; [done|].
      rewrite applied_enact_all, cli_enact_all, keys_enact_all.
      destruct rq; done.
    + eexists. split; [done|]. cbn. rewrite app_nil_r.
      destruct rq; done.
  - destruct fuel as [|fuel]; [cbn in Hfuel; lia|].
    apply Forall_cons in Hplain as [Hkey Hplain].
    cbn [while_loop]. unfold bind at 1.
    rewrite (loop_body_plain w rq key (txt ++ ESC :: rest) Hk Hkey).
    edestruct (IH (with_cli (set_insert_queue (insert_queue (cli w) +:+ key))
                     (with_keys (txt ++ ESC :: rest) (redrawn rq w)))
                 false fuel) as (w' & Hrun & Happ & Hbuf & Hkeys);
      [done|done|cbn in Hfuel; lia|].
    cbn [cli with_cli insert_queue set_insert_queue] in Hrun, Happ, Hbuf.
    rewrite str_app_assoc in Hrun, Happ, Hbuf.
    exists w'. subst buf. cbn [typed foldr].
    split; [done|]. split; [|done].
    rewrite Happ. by destruct rq.
Qed.

End ExampleFacts.

(** ** [AgentTurnState] *)
Section AgentTurnFacts.
Context `{AgentAPI}.
Import AgentTurnState.

Lemma loop_body_done (w : World) rs (idx : Z) :
  (max_gen_length (agent (cli w)) <= idx)%Z →
  loop_body (rs, idx) w = Ok (Break tt) w.
Proof.
  intros Hle. unfold loop_body, bind, gets. cbn -[Z.ltb].
  apply Z.ltb_ge in Hle. rewrite Hle. reflexivity.
Qed.

Lemma loop_body_turn (w : World) rs (idx : Z) :
  (idx < max_gen_length (agent (cli w)))%Z →
  let w1 := with_term (term w ++ [Render MENU]) w in
  let ra := get_action (agent (cli w)) rs (get_obs (live_env w)) in
  loop_body (rs, idx) w
  = Ok (if (ra.2 =? eos_token (agent (cli w)))%Z then Break tt
        else Continue (ra.1, (idx + 1)%Z))
       (enact_world ra.2 AI w1).
Proof.
  intros Hlt w1 ra. unfold loop_body, bind, gets. cbn -[Z.ltb Z.eqb].
  apply Z.ltb_lt in Hlt. rewrite Hlt. cbn -[Z.eqb].
  subst ra w1.
  change (live_env (with_term (term w ++ [Render MENU]) w)) with (live_env w).
  destruct (get_action (agent (cli w)) rs (get_obs (live_env w))) as [rs' a].
  cbn -[Z.eqb]. by destruct (a =? eos_token (agent (cli w)))%Z.
Qed.

Lemma while_loop_turn (n : nat) :
  ∀ (fuel : nat) (w : World) rs (idx : Z),
    Z.to_nat (max_gen_length (agent (cli w)) - idx) = n →
    n < fuel →
    ∃ (w' : World) (acts : list Z),
      while_loop fuel loop_body (rs, idx) w = Ok tt w'
      ∧ applied w' = applied w ++ ((λ a, (a, AI)) <$> acts)
      ∧ length acts ≤ n
      ∧ (∀ i a, acts !! i = Some a → a = eos_token (agent (cli w)) →
                S i = length acts)
      ∧ (length acts < n → last acts = Some (eos_token (agent (cli w))))
      ∧ cli w' = cli w ∧ keys w' = keys w.
Proof.
  induction n as [|n IH]; intros fuel w rs idx Hn Hfuel;
    (destruct fuel as [|fuel]; [lia|]); cbn [while_loop]; unfold bind at 1.
  - rewrite loop_body_done by lia.
    exists w, []. cbn. rewrite app_nil_r. repeat split; try done; lia.
  - rewrite loop_body_turn by lia. cbn zeta.
    set (w1 := with_term (term w ++ [Render MENU]) w).
    destruct (get_action (agent (cli w)) rs (get_obs (live_env w)))
      as [rs' a]. cbn [fst snd].
    destruct (a =? eos_token (agent (cli w)))%Z eqn:Heos.
    + apply Z.eqb_eq in Heos.
      exists (enact_world a AI w1), [a]. cbn.
      rewrite applied_enact_world, cli_enact_world, keys_enact_world.
      repeat split; try done; try lia.
      * intros [|i] b; cbn; done.
      * intros _. by rewrite Heos.
    + apply Z.eqb_neq in Heos.
      destruct (IH fuel (enact_world a AI w1) rs' (idx + 1)%Z)
        as (w' & acts & Hrun & Happ & Hlen & Hlast & Hfull & Hcli & Hkeys).
      { rewrite cli_enact_world. cbn. lia. }
      { lia. }
      rewrite cli_enact_world in Hlast, Hfull, Hcli. cbn in Hlast, Hfull, Hcli.
      rewrite applied_enact_world, keys_enact_world in *. cbn in Happ, Hkeys.
      exists w', (a :: acts). cbn [length fmap list_fmap].
      rewrite Happ, <- app_assoc. cbn.
      repeat split; try done; try lia.
      * intros [|i] b; cbn.
        -- intros [= ->] ->. done.
        -- intros Hi Hb. f_equal. by apply (Hlast i b).
      * intros Hshort. rewrite last_cons.
        rewrite Hfull by lia. done.
Qed.

End AgentTurnFacts.

(** ** [TrainState] *)
Section TrainFacts.
Context `{AgentAPI}.
Import TrainState.

Lemma train_agent_none (w : World) :
  entries_after w = [] → train_agent w = Ok tt w.
Proof.
  unfold entries_after. intros E. unfold train_agent, bind, gets.
  by rewrite E.
Qed.

Lemma train_agent_some (w : World) (first : ActionLogEntry) rest :
  entries_after w = first :: rest →
  let actions := first :: rest in
  let env0 := last_trained_env (cli w) in
  let t := train_on_actions (agent (cli w)) (heap w) env0 actions in
  let l := fresh (dom t.1.2) in
  train_agent w
  = Ok tt
      (with_cli (λ c, set_last_trained_env_state (Some l)
                        (set_last_trained_step
                           (sequence_id (default first (last actions)))
                           (set_last_trained_env t.2 (set_agent t.1.1 c))))
         (with_heap (<[l := t.1.2 !!! env (cli w)]> t.1.2)
            (with_calls (calls w ++ [TrainOnActions env0
                                       (sequence_id <$> actions)]) w))).
Proof.
  unfold entries_after. intros E. cbn zeta.
  unfold train_agent, bind, gets. rewrite E.
  unfold record_call, modify, update_cli, modify, deepcopy. cbn.
  destruct (train_on_actions (agent (cli w)) (heap w)
              (last_trained_env (cli w)) (first :: rest)) as [[ag h] r].
  reflexivity.
Qed.

Lemma entries_after_gt (w : World) (e : ActionLogEntry) :
  In e (entries_after w) → (last_trained_step (cli w) < sequence_id e)%Z.
Proof.
  unfold entries_after, get_actions_since_action_id.
  intros [_ Hlt]%filter_In. by apply Z.ltb_lt.
Qed.

Lemma default_last {A} (d : A) (l : list A) :
  default d (last l) = List.last l d.
Proof.
  induction l as [|a l IH]; [done|].
  destruct l as [|b l]; [done|]. rewrite last_cons_cons. exact IH.
Qed.

Lemma default_last_In {A} (x : A) (l : list A) :
  In (default x (last (x :: l))) (x :: l).
Proof.
  revert x. induction l as [|y l IH]; intros x; [by left|].
  rewrite last_cons_cons. right.
  destruct (last (y :: l)) eqn:E.
  - specialize (IH y). by rewrite E in IH.
  - by apply last_None in E.
Qed.

Lemma train_agent_marker (w : World) :
  ∃ w', train_agent w = Ok tt w'
      ∧ (last_trained_step (cli w) ≤ last_trained_step (cli w'))%Z
      ∧ db w' = db w.
Proof.
  destruct (entries_after w) as [|first rest] eqn:E.
  - exists w. by rewrite train_agent_none.
  - eexists. split; [by apply train_agent_some|]. cbn. split; [|done].
    apply Z.lt_le_incl, entries_after_gt. rewrite E.
    apply default_last_In.
Qed.

Lemma train_all_markers (logs : list (list ActionLogEntry)) :
  ∀ w : World,
    ∃ ks w', train_all logs w = Ok ks w'
           ∧ length ks = length logs
           ∧ Sorted Z.le (last_trained_step (cli w) :: ks).
Proof.
  induction logs as [|d logs IH]; intros w.
  - exists [], w. repeat split. by repeat constructor.
  - destruct (train_agent_marker (with_db d w)) as (w1 & Hrun & Hle & _).
    destruct (IH w1) as (ks & w' & Hall & Hlen & Hsorted).
    exists (last_trained_step (cli w1) :: ks), w'.
    cbn [train_all]. unfold bind at 1. cbn [modify].
    unfold bind at 1. rewrite Hrun.
    unfold bind at 1. cbn [gets].
    unfold bind at 1. rewrite Hall.
    cbn. split; [done|]. split; [by rewrite Hlen|].
    constructor; [done|]. by constructor.
Qed.

(** In a log sorted by sequence id nothing lies after its last row. *)
Lemma sorted_last_max (l : list ActionLogEntry) (z : ActionLogEntry) :
  StronglySorted by_sequence_id l → last l = Some z →
  ∀ x, In x l → (sequence_id x ≤ sequence_id z)%Z.
Proof.
  induction 1 as [|y l Hs IH Hall]; [done|].
  intros Hlast x Hin. destruct l as [|y' l'].
  - cbn in Hlast. destruct Hin as [->|[]]. by injection Hlast as ->.
  - rewrite last_cons_cons in Hlast. destruct Hin as [->|Hin].
    + apply Z.lt_le_incl. rewrite Forall_forall in Hall.
      apply (Hall z). apply last_Some_elem_of, Hlast.
    + by apply IH.
Qed.

Lemma sorted_filter (p : ActionLogEntry → bool) (l : list ActionLogEntry) :
  StronglySorted by_sequence_id l →
  StronglySorted by_sequence_id (List.filter p l).
Proof.
  induction 1 as [|y l Hs IH Hall]; cbn; [constructor|].
  destruct (p y); [|done]. constructor; [done|].
  rewrite Forall_forall in *. intros x Hx. apply Hall.
  apply list_elem_of_In in Hx. apply filter_In in Hx as [Hx _].
  by apply list_elem_of_In.
Qed.

Lemma train_agent_twice (w : World) :
  StronglySorted by_sequence_id (db w) →
  ∃ w1, train_agent w = Ok tt w1 ∧ train_agent w1 = Ok tt w1.
Proof.
  intros Hsorted. destruct (entries_after w) as [|first rest] eqn:E.
  - exists w. by rewrite train_agent_none.
  - eexists. split; [by apply train_agent_some|].
    apply train_agent_none.
    unfold entries_after, get_actions_since_action_id. cbn.
    set (z := default first (last (first :: rest))).
    destruct (List.filter _ (db w)) as [|x xs] eqn:F; [done|exfalso].
    assert (In x (List.filter (λ e, (sequence_id z <? sequence_id e)%Z) (db w)))
      as [Hx Hlt%Z.ltb_lt]%filter_In by (rewrite F; by left).
    assert (In x (entries_after w)) as Hin.
    { unfold entries_after, get_actions_since_action_id.
      apply filter_In. split; [done|]. apply Z.ltb_lt.
      assert (In z (entries_after w)) as Hz%entries_after_gt
        by (rewrite E; apply default_last_In).
      lia. }
    assert (last (entries_after w) = Some z) as Hlast.
    { rewrite E. subst z. destruct (last (first :: rest)) eqn:L; [done|].
      by apply last_None in L. }
    pose proof (sorted_last_max (entries_after w) z
                  (sorted_filter _ _ Hsorted) Hlast x Hin).
    lia.
Qed.

End TrainFacts.

(** ** [MenuState] *)
Section MenuFacts.
Context `{AgentAPI} `{!Inputs}.
Import MenuState.


Lemma menu_unbound_key (w : World) (key : string) (rest : list string) :
  keys w = key :: rest → key_to_state !! key = None →
  handle_execution w
  = Ok (Some MENU)
       (let w1 := with_keys rest (with_term (term w ++ [Render MENU]) w) in
        if bool_decide (key ∈ ["+"; "="])
        then with_cli (λ c, set_curr_reward (curr_reward c + 1)%Z c) w1
        else if decide (key = "-")
             then with_cli (λ c, set_curr_reward (curr_reward c - 1)%Z c) w1
             else w1).
Proof.
  intros Hk Hnone. unfold handle_execution, bind, _render, term_op, modify,
    getkey. cbn -[key_to_state lookup]. rewrite Hk.
  cbn -[key_to_state lookup]. rewrite Hnone.
  destruct (bool_decide (key ∈ ["+"; "="])); [done|].
  by destruct (decide (key = "-")).
Qed.

End MenuFacts.

(** ** [AutoSolveState] *)
Section AutoSolveFacts.
Context `{AgentAPI} `{!Tokenizer} `{!Services}.
Import AutoSolveState.

Lemma lstrip_all_whitespace (s : string) :
  all_whitespace s = true → lstrip s = "".
Proof.
  induction s as [|c s IH]; cbn; [done|].
  intros [Hc Hs]%andb_true_iff. rewrite Hc. by apply IH.
Qed.

Lemma rstrip_empty (s : string) : rstrip s = "" → all_whitespace s = true.
Proof.
  induction s as [|c s IH]; cbn; [done|].
  destruct (rstrip s) eqn:E; [|done].
  destruct (is_space c); [|done]. intros _. by apply IH.
Qed.

Lemma lstrip_suffix (s : string) :
  all_whitespace (lstrip s) = true → all_whitespace s = true.
Proof.
  induction s as [|c s IH]; cbn; [done|].
  destruct (is_space c) eqn:E; [done|]. cbn. by rewrite E.
Qed.

Lemma strip_empty_iff (s : string) :
  strip s = "" ↔ all_whitespace s = true.
Proof.
  unfold strip. split.
  - intros Hs. by apply lstrip_suffix, rstrip_empty.
  - intros Hs. by rewrite lstrip_all_whitespace.
Qed.

End AutoSolveFacts.

(** ** [SaveModelState] *)
Section SaveModelFacts.
Context `{AgentAPI} `{!Services}.
Import SaveModelState.

Lemma with_rng_id (w : World) : with_rng (rng w) w = w.
Proof. by destruct w. Qed.

Lemma random_choices_eq (population : list ascii) (k : nat) :
  ∀ w : World,
    random_choices population k w
    = Ok (pick_chars population k (rng w)) (with_rng (drop k (rng w)) w).
Proof.
  induction k as [|k IH]; intros w.
  - cbn [random_choices pick_chars]. unfold ret.
    by rewrite drop_0, with_rng_id.
  - cbn [random_choices]. unfold bind at 1. unfold draw.
    destruct (rng w) as [|d r] eqn:E.
    + unfold bind at 1. rewrite IH, E. cbn [pick_chars ret].
      by rewrite !drop_nil.
    + unfold bind at 1. rewrite IH. cbn [pick_chars drop ret rng with_rng].
      done.
Qed.

Lemma pick_chars_length population k draws :
  length (pick_chars population k draws) = k.
Proof.
  revert draws. induction k as [|k IH]; intros [|d r]; cbn; by rewrite ?IH.
Qed.

Lemma pick_chars_from population k draws :
  population ≠ [] → Forall (λ c, c ∈ population) (pick_chars population k draws).
Proof.
  intros Hne. assert (0 < length population) by (destruct population; cbn; [done|lia]).
  revert draws. induction k as [|k IH]; intros [|d r]; cbn -[Nat.modulo];
    constructor; try apply IH;
    apply list_elem_of_In, nth_In, Nat.mod_upper_bound; lia.
Qed.

Lemma save_no_directory (w : World) (k : string) (rest : list string) :
  keys w = k :: rest → truthy (model_save_dir (cli w)) = false →
  handle_execution w
  = Ok (Some MENU)
       (with_keys rest
          (with_term (term w ++ [Clear;
             AddStr 0 0 "Error: model_save_dir not set in config";
             AddStr 2 0 "Press any key to continue..."; Refresh]) w)).
Proof.
  intros Hk Hdir. unfold handle_execution, getch.
  unfold bind, term_op, modify, gets, getkey. cbn. rewrite Hdir. cbn.
  rewrite Hk. cbn. same_world.
Qed.

Lemma generate_default_model_name_eq (w : World) :
  _generate_default_model_name w
  = Ok ("model_" +:+ string_of_list_ascii (pick_chars alphabet 6 (rng w)))
       (with_rng (drop 6 (rng w)) w).
Proof.
  unfold _generate_default_model_name. unfold bind at 1.
  fold alphabet. by rewrite random_choices_eq.
Qed.

(** Up to the prompt: the default name is computed and offered. *)
Lemma save_prompt (w : World) :
  truthy (model_save_dir (cli w)) = true →
  handle_execution w
  = (match get_text_input (offered_default w) with
     | None => ret (Some MENU)
     | Some model_name =>
         term_op Clear ;;;
         if String.eqb model_name "" then
           term_op (AddStr 0 0 "Error: Model needs a name to save") ;;;
           term_op (AddStr 2 0 "Press any key to try again...") ;;;
           getch ;;;
           ret (Some SAVE_MODEL)
         else
           let full_path :=
             os_path_join (default "" (model_save_dir (cli w))) model_name in
           agent_save full_path ;;;
           update_cli (set_loaded_model_name (Some model_name)) ;;;
           term_op (AddStr 0 0 ("Model saved to: " +:+ full_path)) ;;;
           term_op (AddStr 2 0 "Press any key to continue...") ;;;
           getch ;;;
           ret (Some MENU)
     end) (prompted w).
Proof.
  intros Hdir. unfold handle_execution.
  unfold bind at 1. cbn [term_op modify].
  unfold bind at 1. cbn [gets cli with_term]. rewrite Hdir. cbn [negb].
  do 4 (unfold bind at 1; cbn [term_op modify gets cli with_term]).
  unfold bind at 1. unfold offered_default at 1.
  destruct (truthy (loaded_model_name (cli w))) eqn:L.
  - cbn [ret].
    do 3 (unfold bind at 1; cbn [term_op record_call modify]).
    match goal with |- ?f ?w1 = _ =>
      assert (w1 = prompted w) as ->
        by (unfold prompted, offered_default; rewrite L;
            apply world_eq; cbn; rewrite <- ?app_assoc; done)
    end.
    done.
  - rewrite generate_default_model_name_eq.
    do 3 (unfold bind at 1; cbn [term_op record_call modify]).
    match goal with |- ?f ?w1 = _ =>
      assert (w1 = prompted w) as ->
        by (unfold prompted, offered_default; rewrite L;
            apply world_eq; cbn; rewrite <- ?app_assoc; done)
    end.
    done.
Qed.

Lemma save_cancelled (w : World) :
  truthy (model_save_dir (cli w)) = true →
  get_text_input (offered_default w) = None →
  handle_execution w = Ok (Some MENU) (prompted w).
Proof.
  intros Hdir Hinput. rewrite (save_prompt w Hdir), Hinput. done.
Qed.

Lemma save_unnamed (w : World) (k : string) (rest : list string) :
  truthy (model_save_dir (cli w)) = true →
  get_text_input (offered_default w) = Some "" →
  keys w = k :: rest →
  handle_execution w
  = Ok (Some SAVE_MODEL)
       (with_keys rest
          (with_term (term (prompted w) ++ [Clear;
             AddStr 0 0 "Error: Model needs a name to save";
             AddStr 2 0 "Press any key to try again..."]) (prompted w))).
Proof.
  intros Hdir Hinput Hk.
  rewrite (save_prompt w Hdir), Hinput.
  unfold getch. unfold bind, term_op, modify, getkey, ret.
  cbn. rewrite Hk. same_world.
Qed.

Lemma save_named (w : World) (k name : string) (rest : list string) :
  truthy (model_save_dir (cli w)) = true →
  get_text_input (offered_default w) = Some name →
  name ≠ "" →
  keys w = k :: rest →
  let full_path := os_path_join (default "" (model_save_dir (cli w))) name in
  handle_execution w
  = Ok (Some MENU)
       (with_keys rest
          (with_cli (set_loaded_model_name (Some name))
             (with_saved (saved w ++ [(full_path, agent (cli w))])
                (with_calls (calls (prompted w) ++ [AgentSave full_path])
                   (with_term (term (prompted w) ++ [Clear;
                      AddStr 0 0 ("Model saved to: " +:+ full_path);
                      AddStr 2 0 "Press any key to continue..."])
                      (prompted w)))))).
Proof.
  intros Hdir Hinput Hname Hk full_path.
  rewrite (save_prompt w Hdir), Hinput.
  apply String.eqb_neq in Hname.
  unfold bind at 1. cbn [term_op modify]. rewrite Hname.
  cbn zeta. fold full_path. generalize full_path. clear full_path.
  intros full_path.
  unfold agent_save, getch, record_call, update_cli.
  unfold bind, term_op, modify, getkey, ret.
  cbn. rewrite Hk. same_world.
Qed.

End SaveModelFacts.

(** ** [LoadModelState] *)
Section LoadModelFacts.
Context `{AgentAPI} `{!Services}.
Import LoadModelState.

Lemma load_one_ok (dir m : string) (w : World) :
  (agent_load (agent (cli w)) (os_path_join dir m)).2 = None →
  load_one dir m w
  = Ok tt
      (with_cli (λ c, set_loaded_model_name (Some m)
                   (set_agent (agent_load (agent (cli w))
                                 (os_path_join dir m)).1 c))
         (with_calls (calls w ++ [AgentLoad (os_path_join dir m)])
            (with_term (term w ++ [Clear;
               AddStr 0 0 ("Loading model '" +:+ m +:+ "'..."); Refresh])
               w))).
Proof.
  intros Hr. unfold load_one, load, update_cli, record_call.
  unfold bind, term_op, modify, gets. cbn.
  destruct (agent_load (agent (cli w)) (os_path_join dir m)) as [ag r].
  cbn in Hr. subst r. cbn. same_world.
Qed.

Lemma load_one_failed (dir m : string) (w : World) (e : Exn) k rest :
  (agent_load (agent (cli w)) (os_path_join dir m)).2 = Some e →
  keys w = k :: rest →
  load_one dir m w
  = Ok tt
      (with_keys rest
         (with_cli (set_agent (agent_load (agent (cli w))
                                 (os_path_join dir m)).1)
            (with_calls (calls w ++ [AgentLoad (os_path_join dir m)])
               (with_term (term w ++ [Clear;
                  AddStr 0 0 ("Loading model '" +:+ m +:+ "'..."); Refresh;
                  Clear; load_error_line m e;
                  AddStr 2 0 "Press any key to continue..."; Refresh])
                  w)))).
Proof.
  intros Hr Hk. unfold load_one, load, update_cli, record_call, getch.
  unfold bind, term_op, modify, gets, getkey. cbn.
  destruct (agent_load (agent (cli w)) (os_path_join dir m)) as [ag r].
  cbn in Hr. subst r. cbn. rewrite Hk. cbn. same_world.
Qed.

Lemma for_each_load (dir : string) (selected : list string) :
  ∀ w : World,
    let outcomes := load_outcomes (agent (cli w)) dir selected in
    length (List.filter load_failed outcomes) ≤ length (keys w) →
    ∃ (w' : World) (t : list TermOp),
      for_each selected (load_one dir) w = Ok tt w'
      ∧ calls w' = calls w ++ ((λ m, AgentLoad (os_path_join dir m)) <$> selected)
      ∧ loaded_model_name (cli w')
        = remembered (loaded_model_name (cli w)) outcomes
      ∧ term w' = term w ++ t
      ∧ (∀ m e, (m, Some e) ∈ outcomes → load_error_line m e ∈ t)
      ∧ keys w' = drop (length (List.filter load_failed outcomes)) (keys w).
Proof.
  induction selected as [|m ms IH]; intros w outcomes Hkeys.
  - exists w, []. cbn. rewrite !app_nil_r. repeat split; try done.
    intros m e Hin. by apply elem_of_nil in Hin.
  - subst outcomes. cbn [load_outcomes] in *.
    set (path := os_path_join dir m) in *.
    cbn [for_each]. unfold bind at 1.
    destruct (agent_load (agent (cli w)) path).2 as [e|] eqn:Hr.
    + cbn [List.filter load_failed snd length] in Hkeys.
      destruct (keys w) as [|k rest] eqn:Hk; [cbn in Hkeys; lia|].
      rewrite (load_one_failed dir m w e k rest Hr Hk). fold path.
      match goal with |- context [for_each ms _ ?w1] =>
        destruct (IH w1) as (w' & t & Hrun & Hcalls & Hname & Hterm & Hrep & Hks)
      end.
      { cbn. cbn in Hkeys. lia. }
      cbn in Hrun, Hcalls, Hname, Hterm, Hrep, Hks.
      exists w'. eexists. split; [exact Hrun|].
      split; [rewrite Hcalls, <- app_assoc; done|].
      split; [rewrite Hname; done|].
      split; [rewrite Hterm, <- app_assoc; done|].
      split; [|cbn; rewrite Hks; done].
      intros m' e' [Heq|Hin]%elem_of_cons.
      * injection Heq as Hm He. subst m' e'.
        rewrite elem_of_app, !elem_of_cons. left. do 4 right. by left.
      * rewrite elem_of_app. right. by apply Hrep.
    + rewrite (load_one_ok dir m w Hr). fold path.
      match goal with |- context [for_each ms _ ?w1] =>
        destruct (IH w1) as (w' & t & Hrun & Hcalls & Hname & Hterm & Hrep & Hks)
      end.
      { cbn. cbn in Hkeys. lia. }
      cbn in Hrun, Hcalls, Hname, Hterm, Hrep, Hks.
      exists w'. eexists. split; [exact Hrun|].
      split; [rewrite Hcalls, <- app_assoc; done|].
      split; [rewrite Hname; done|].
      split; [rewrite Hterm, <- app_assoc; done|].
      split; [|cbn; rewrite Hks; done].
      intros m' e' [Heq|Hin]%elem_of_cons; [by injection Heq|].
      rewrite elem_of_app. right. by apply Hrep.
Qed.

Lemma remembered_all_failed old outcomes :
  Forall (λ o, load_failed o = true) outcomes → remembered old outcomes = old.
Proof.
  revert old. induction outcomes as [|o os IH]; intros old; [done|].
  intros [Ho Hos]%Forall_cons. cbn. rewrite Ho. by apply IH.
Qed.

Lemma remembered_last_success old pre m post :
  Forall (λ o, load_failed o = true) post →
  remembered old (pre ++ (m, None) :: post) = Some m.
Proof.
  intros Hpost. unfold remembered. rewrite foldl_app. cbn.
  by apply remembered_all_failed.
Qed.

End LoadModelFacts.

(** ** [EvalState] *)
Section EvalFacts.
Context `{AgentAPI} `{!Services}.
Import EvalState.

Lemma with_term_id (w : World) : with_term (term w) w = w.
Proof. by destruct w. Qed.

Lemma with_term_app (w : World) (a b : list TermOp) :
  with_term (term (with_term (term w ++ a) w) ++ b) (with_term (term w ++ a) w)
  = with_term (term w ++ a ++ b) w.
Proof. unfold with_term. cbn. by rewrite <- app_assoc. Qed.

Lemma eval_one_eq (path item : string) (d : Results) (w : World) :
  let r := run_agent_eval (agent (cli w)) (os_path_join path item) in
  eval_one path d item w
  = Ok (dict_set item (as_result r.2) d)
       (with_cli (set_agent r.1)
          (with_calls (calls w ++ [RunAgentEval (os_path_join path item)])
             (with_term (term w ++ eval_banner item) w))).
Proof.
  cbn zeta. unfold eval_one, run_eval, update_cli, record_call.
  unfold bind, term_op, modify, gets. cbn.
  destruct (run_agent_eval (agent (cli w)) (os_path_join path item))
    as [ag [e|result]]; cbn;
    unfold with_cli, with_calls, with_term, eval_banner; cbn;
    by rewrite <- !app_assoc.
Qed.

Lemma for_fold_eval (path : string) (items : list string) :
  ∀ (d : Results) (w : World),
    ∃ w' : World,
      for_fold items (eval_one path) d w
      = Ok (foldl (λ d o, dict_set o.1 (as_result o.2) d) d
              (eval_outcomes (agent (cli w)) path items)) w'
      ∧ calls w'
        = calls w ++ ((λ item, RunAgentEval (os_path_join path item)) <$> items)
      ∧ term w' = term w ++ concat (eval_banner <$> items)
      ∧ keys w' = keys w.
Proof.
  induction items as [|item items IH]; intros d w.
  - exists w. cbn. by rewrite !app_nil_r.
  - cbn [for_fold]. unfold bind at 1. rewrite eval_one_eq. cbn zeta.
    match goal with |- context [for_fold items _ ?d1 ?w1] =>
      destruct (IH d1 w1) as (w' & Hrun & Hcalls & Hterm & Hkeys)
    end.
    cbn in Hrun, Hcalls, Hterm, Hkeys.
    exists w'. split; [exact Hrun|].
    split; [rewrite Hcalls, <- app_assoc; done|].
    split; [|done].
    rewrite Hterm. cbn [fmap list_fmap concat]. by rewrite <- app_assoc.
Qed.

Lemma for_each_writes {A} (f : A → TermOp) (l : list A) (w : World) :
  for_each l (λ x, term_op (f x)) w = Ok tt (with_term (term w ++ (f <$> l)) w).
Proof.
  revert w. induction l as [|x l IH]; intros w.
  - cbn. unfold ret. by rewrite app_nil_r, with_term_id.
  - cbn [for_each]. unfold bind at 1. cbn [term_op modify].
    rewrite IH. cbn [fmap list_fmap].
    by rewrite (with_term_app w [f x] (f <$> l)).
Qed.

Lemma show_one_eq (entry : string * list (string * string)) (w : World) :
  show_one entry w = Ok tt (with_term (term w ++ result_section entry) w).
Proof.
  destruct entry as [item result]. unfold show_one.
  unfold bind at 1. cbn [term_op modify].
  unfold bind at 1. rewrite for_each_writes.
  unfold term_op, modify, result_section. cbn [fst snd].
  rewrite !with_term_app. done.
Qed.

Lemma for_each_show (results : Results) (w : World) :
  for_each results show_one w
  = Ok tt (with_term (term w ++ concat (result_section <$> results)) w).
Proof.
  revert w. induction results as [|entry results IH]; intros w.
  - cbn. unfold ret. by rewrite app_nil_r, with_term_id.
  - cbn [for_each]. unfold bind at 1. rewrite show_one_eq, IH.
    cbn [fmap list_fmap concat]. by rewrite with_term_app.
Qed.

Lemma dict_set_fresh {V} (k : string) (v : V) (d : list (string * V)) :
  k ∉ d.*1 → dict_set k v d = d ++ [(k, v)].
Proof.
  induction d as [|[k' v'] d IH]; cbn; [done|].
  rewrite not_elem_of_cons. intros [Hne Hnot].
  rewrite decide_False by done. by rewrite IH.
Qed.

Lemma foldl_dict_set_fresh {V O} (f : O → V) (l : list (string * O)) :
  ∀ d : list (string * V),
    NoDup (d.*1 ++ l.*1) →
    foldl (λ d o, dict_set o.1 (f o.2) d) d l
    = d ++ ((λ o, (o.1, f o.2)) <$> l).
Proof.
  induction l as [|[k o] l IH]; intros d Hnd; cbn.
  - by rewrite app_nil_r.
  - cbn in Hnd. apply NoDup_app in Hnd as (Hd & Hdl & Hl).
    apply NoDup_cons in Hl as [Hk Hl].
    rewrite dict_set_fresh by (intros Hin; apply (Hdl k Hin); by left).
    rewrite IH.
    + by rewrite <- app_assoc.
    + rewrite fmap_app. cbn. apply NoDup_app. split_and!.
      * apply NoDup_app. split_and!; [done| |apply NoDup_singleton].
        intros x Hx Hxk%list_elem_of_singleton. subst x.
        apply (Hdl k Hx). by left.
      * intros x [Hx|Hxk%list_elem_of_singleton]%elem_of_app Hin;
          [|by subst x].
        apply (Hdl x Hx). by right.
      * done.
Qed.

Lemma elem_of_concat {A} (x : A) (l : list A) (ls : list (list A)) :
  x ∈ l → l ∈ ls → x ∈ concat ls.
Proof.
  intros Hx Hl. induction ls as [|l' ls IH]; [by apply elem_of_nil in Hl|].
  cbn. apply elem_of_app. apply elem_of_cons in Hl as [->|Hl]; [by left|].
  right. by apply IH.
Qed.

Lemma eval_outcomes_items ag path items :
  (eval_outcomes ag path items).*1 = items.
Proof.
  revert ag. induction items as [|item items IH]; intros ag; cbn; [done|].
  by rewrite IH.
Qed.

End EvalFacts.

(** * The claims *)

(** ** The editing state *)
Section ExampleClaims.
Context `{AgentAPI} `{!Inputs} `{!Tokenizer}.
Import ExampleState.

(** What the editor does when plain text is followed by escape: the encoded
    text is applied once, the buffer is emptied and the state returns to the
    menu; the commit action is the only element of [queued_actions] when the
    loop is left. *)
Lemma example_text_then_escape (w : World) (txt rest : list string) (fuel : nat) :
  keys w = txt ++ ESC :: rest →
  Forall plain_text txt →
  typed txt ≠ "" →
  length txt < fuel →
  ∃ w1 w2,
    edit_loop fuel w = Ok [convert_tokens_to_ids KEY_ENTER_TOKEN] w1
    ∧ handle_execution fuel w = Ok (Some MENU) w2
    ∧ applied w2 = applied w ++ ((λ a, (a, HUMAN)) <$> encode (typed txt))
    ∧ insert_queue (cli w2) = ""
    ∧ keys w2 = rest.
Proof.
  intros Hk Hplain Htyped Hfuel.
  destruct (while_loop_text_then_escape txt rest
              (with_cli (set_insert_queue "")
                 (with_term (term w ++ [Keypad false]) w)) false fuel)
    as (w1 & Hrun & Happ & Hbuf & Hkeys); [done..|].
  cbn [cli with_cli insert_queue set_insert_queue] in Hrun, Happ, Hbuf.
  change ("" +:+ typed txt) with (typed txt) in Hrun, Happ, Hbuf.
  assert ((0 <? String.length (typed txt))%nat = true) as Hlen
    by (destruct (typed txt); done).
  rewrite Hlen in Hrun, Happ, Hbuf.
  exists w1, (with_term (term w1 ++ [Keypad true]) w1).
  assert (edit_loop fuel w = Ok [convert_tokens_to_ids KEY_ENTER_TOKEN] w1)
    as Hedit by exact Hrun.
  split; [done|]. unfold handle_execution, bind. rewrite Hedit.
  by cbn.
Qed.

End ExampleClaims.

Section ExampleScenario.
Import Fixture.

(** C1 — in the editing state, buffered text followed by escape should emit
    [encode(buffer)] and then one commit action, and apply everything still
    queued before leaving.  On the keys "h", "i", escape the handler applies
    the two text actions, empties the buffer and returns to the menu, but the
    commit action is only appended to [queued_actions], which is not read
    after the [break]: it is never applied. *)
Theorem example_escape_drops_commit :
  ∃ w1 w2,
    ExampleState.edit_loop 3 Scenarios.types_hi_then_escape
    = Ok [convert_tokens_to_ids KEY_ENTER_TOKEN] w1
    ∧ ExampleState.handle_execution 3 Scenarios.types_hi_then_escape
      = Ok (Some MENU) w2
    ∧ applied w2 = (λ a, (a, HUMAN)) <$> encode "hi"
    ∧ ((convert_tokens_to_ids KEY_ENTER_TOKEN, HUMAN) ∉ applied w2)
    ∧ insert_queue (cli w2) = ""
    ∧ keys w2 = [].
Proof.
  destruct (example_text_then_escape Scenarios.types_hi_then_escape
              ["h"; "i"] [] 3) as (w1 & w2 & Hedit & Hrun & Happ & Hbuf & Hkeys).
  - reflexivity.
  - unfold plain_text. rewrite !Forall_cons. repeat split; try done;
      try apply Forall_nil; by decide_by_compute.
  - done.
  - cbn. lia.
  - exists w1, w2. repeat split; try done.
    rewrite Happ. by decide_by_compute.
Qed.

End ExampleScenario.

Section ExampleCommandClaim.
Context `{AgentAPI} `{!Inputs} `{!Tokenizer}.
Import ExampleState.

(** C5 — when a command key other than escape and the insert-block key is
    read while the text buffer is not empty, the actions queued are the
    encoded buffer, the commit action and the action of that key, in this
    order, and the buffer is cleared; the next passes of the loop apply
    them in this order before another key is read. *)
Theorem example_command_key_flushes_buffer
    (w : World) (rq : bool) (key : string) (rest : list string) :
  keys w = key :: rest →
  key ∈ COMMAND_TOKENS →
  key ≠ ESC → key ≠ KEY_CTRL_RIGHT_TOKEN → key ≠ "KEY_RESIZE" →
  insert_queue (cli w) ≠ "" →
  let flushed := encode (insert_queue (cli w))
                   ++ [convert_tokens_to_ids KEY_ENTER_TOKEN;
                       convert_tokens_to_ids key] in
  ∃ w1 w2,
    loop_body ([], rq) w = Ok (Continue (flushed, false)) w1
    ∧ insert_queue (cli w1) = ""
    ∧ applied w1 = applied w
    ∧ keys w1 = rest
    ∧ iterations (1 + length flushed) loop_body ([], rq) w
      = Ok (Continue ([], true)) w2
    ∧ applied w2 = applied w ++ ((λ a, (a, HUMAN)) <$> flushed)
    ∧ insert_queue (cli w2) = ""
    ∧ keys w2 = rest.
Proof.
  intros Hk Hcmd Hesc Hright Hres Hbuf flushed.
  pose proof (loop_body_command w rq key rest Hk Hesc Hres Hright Hcmd Hbuf)
    as Hbody. fold flushed in Hbody.
  eexists. exists (drained flushed
    (with_cli (set_insert_queue "") (with_keys rest (redrawn rq w)))).
  split; [exact Hbody|]. split; [done|]. split; [by destruct rq|].
  split; [done|]. split.
  - cbn [Nat.add iterations]. unfold bind at 1. rewrite Hbody.
    rewrite iterations_drain. subst flushed.
    by destruct (encode (insert_queue (cli w))).
  - rewrite applied_drained, cli_drained, keys_drained.
    split; [by destruct rq|]. done.
Qed.

End ExampleCommandClaim.

Section ExampleCommandScenario.
Import Fixture.

Lemma example_command_key_flushes_buffer_witness :
  ∃ w2,
    iterations 5 ExampleState.loop_body ([], false) Scenarios.pending_hi_then_up
    = Ok (Continue ([], true)) w2
    ∧ applied w2 = (λ a, (a, HUMAN)) <$> [104; 105; 256; 258]%Z
    ∧ insert_queue (cli w2) = ""
    ∧ keys w2 = [ESC].
Proof.
  destruct (example_command_key_flushes_buffer Scenarios.pending_hi_then_up
              false "<|KEY_UP|>" [ESC])
    as (w1 & w2 & _ & _ & _ & _ & Hrun & Happ & Hbuf & Hkeys).
  - reflexivity.
  - by decide_by_compute.
  - done.
  - done.
  - done.
  - done.
  - exists w2. split; [exact Hrun|]. split; [exact Happ|]. by split.
Defined.

End ExampleCommandScenario.

(** ** The agent turn *)
Section AgentTurnClaims.
Context `{AgentAPI}.
Import AgentTurnState.

(** C4 — for a maximal generation length N >= 0, one agent turn applies at
    most N actions to the workspace, none when N = 0, all of them tagged as
    the agent's; the end-of-turn marker can only be the last action applied
    (the turn stops right after the first one), and a turn that applies
    fewer than N actions ended on that marker.  The handler returns to the
    menu whenever the fuel exceeds N. *)
Theorem agent_turn_bounded (w : World) (N : Z) (fuel : nat) :
  max_gen_length (agent (cli w)) = N →
  (0 ≤ N)%Z →
  Z.to_nat N < fuel →
  ∃ (w' : World) (acts : list Z),
    handle_execution fuel w = Ok (Some MENU) w'
    ∧ applied w' = applied w ++ ((λ a, (a, AI)) <$> acts)
    ∧ (Z.of_nat (length acts) ≤ N)%Z
    ∧ (N = 0%Z → acts = [])
    ∧ (∀ i a, acts !! i = Some a → a = eos_token (agent (cli w)) →
              S i = length acts)
    ∧ ((Z.of_nat (length acts) < N)%Z →
       last acts = Some (eos_token (agent (cli w)))).
Proof.
  intros HN Hpos Hfuel.
  destruct (while_loop_turn (Z.to_nat N) fuel w None 0%Z)
    as (w' & acts & Hrun & Happ & Hlen & Hlast & Hfull & _ & _).
  { rewrite HN. f_equal. lia. }
  { done. }
  exists w', acts. unfold handle_execution, bind. rewrite Hrun.
  split; [done|]. split; [done|]. split; [lia|]. split.
  - intros ->. destruct acts; [done|]. cbn in Hlen. lia.
  - split; [done|]. intros Hshort. apply Hfull. lia.
Qed.

End AgentTurnClaims.

Section AgentTurnScenario.
Import Fixture.

Lemma agent_turn_bounded_witness :
  ∃ w', AgentTurnState.handle_execution 5 (world0 []) = Ok (Some MENU) w'
      ∧ applied w' = [(7, AI); (8, AI); (9, AI)]%Z.
Proof.
  destruct (agent_turn_bounded (world0 []) 4 5)
    as (w' & acts & Hrun & Happ & _); [reflexivity|lia|cbn; lia|].
  exists w'. split; [exact Hrun|].
  vm_compute in Hrun. injection Hrun as <-. reflexivity.
Defined.

End AgentTurnScenario.

(** ** Training *)
Section TrainClaims.
Context `{AgentAPI}.
Import TrainState.

(** C3 — across any number of training calls, whatever the log holds at
    each call, the checkpoint marker never decreases; a call for which the
    log store returns no row after the marker changes nothing (marker,
    snapshots and agent included); and on a log sorted by sequence id a
    second call right after a first one is such a call. *)
Theorem train_marker_monotone_and_idempotent :
  (∀ (logs : list (list ActionLogEntry)) (w : World),
     ∃ ks w', train_all logs w = Ok ks w'
            ∧ length ks = length logs
            ∧ Sorted Z.le (last_trained_step (cli w) :: ks))
  ∧ (∀ w : World, entries_after w = [] → train_agent w = Ok tt w)
  ∧ (∀ w : World,
       StronglySorted by_sequence_id (db w) →
       ∃ w1, train_agent w = Ok tt w1 ∧ train_agent w1 = Ok tt w1).
Proof.
  split; [|split].
  - intros logs w. apply train_all_markers.
  - apply train_agent_none.
  - apply train_agent_twice.
Qed.

(** C2, as the code has it — when rows follow the checkpoint marker,
    [train_agent] hands them, in log order, to [train_on_actions] together
    with the stored snapshot; the marker becomes the sequence id of the last
    of them; the snapshot that the next call replays against is the
    workspace that [train_on_actions] returned; and a new object holding a
    copy of the live workspace, distinct from it, is stored in
    [last_trained_env_state], which [train_agent] does not read. *)
Theorem train_replays_and_snapshots
    (w : World) (first : ActionLogEntry) (rest : list ActionLogEntry) :
  entries_after w = first :: rest →
  let actions := first :: rest in
  let t := train_on_actions (agent (cli w)) (heap w)
             (last_trained_env (cli w)) actions in
  is_Some (t.1.2 !! env (cli w)) →
  ∃ (w' : World) (l : loc),
    train_agent w = Ok tt w'
    ∧ actions = List.filter (λ e, (last_trained_step (cli w) <? sequence_id e)%Z)
                  (db w)
    ∧ calls w' = calls w ++ [TrainOnActions (last_trained_env (cli w))
                               (sequence_id <$> actions)]
    ∧ agent (cli w') = t.1.1
    ∧ last_trained_step (cli w') = sequence_id (List.last rest first)
    ∧ last_trained_env (cli w') = t.2
    ∧ last_trained_env_state (cli w') = Some l
    ∧ env (cli w') = env (cli w)
    ∧ (l ∉ dom t.1.2)
    ∧ l ≠ env (cli w')
    ∧ heap w' !! l = t.1.2 !! env (cli w)
    ∧ (∀ l', l' ≠ l → heap w' !! l' = t.1.2 !! l')
    ∧ (∀ (d : list ActionLogEntry) (w'' : World),
         entries_after (with_db d w') ≠ [] →
         train_agent (with_db d w') = Ok tt w'' →
         ∃ ids, calls w'' = calls w' ++ [TrainOnActions t.2 ids]).
Proof.
  intros E actions t Hlive.
  pose proof (train_agent_some w first rest E) as Hrun. cbn zeta in Hrun.
  fold actions in Hrun. fold t in Hrun.
  set (l := fresh (dom t.1.2)) in *.
  assert (l ∉ dom t.1.2) as Hfresh by apply is_fresh.
  match type of Hrun with _ = Ok tt ?x => set (w' := x) in * end.
  exists w', l. split; [exact Hrun|].
  split; [exact (eq_sym E)|].
  split; [done|]. split; [done|].
  split.
  { cbn. f_equal. subst actions. rewrite default_last. by destruct rest. }
  split; [done|]. split; [done|]. split; [done|]. split; [done|].
  split.
  { cbn. intros ->. apply Hfresh. by apply elem_of_dom. }
  split.
  { cbn. rewrite lookup_insert_eq. destruct Hlive as [v Hv].
    rewrite Hv. f_equal. by apply lookup_total_correct. }
  split.
  { intros l' Hne. cbn. by rewrite lookup_insert_ne. }
  intros d w'' Hnext Hrun'.
  destruct (entries_after (with_db d w')) as [|first' rest'] eqn:E'; [done|].
  rewrite (train_agent_some _ first' rest' E') in Hrun'.
  injection Hrun' as <-. cbn. eauto.
Qed.

End TrainClaims.

Section TrainScenario.
Import Fixture.

Lemma train_marker_monotone_and_idempotent_witness :
  ∃ w1, TrainState.train_agent (Scenarios.edited_then_logged) = Ok tt w1
      ∧ TrainState.train_agent w1 = Ok tt w1.
Proof.
  apply (proj2 (proj2 train_marker_monotone_and_idempotent)).
  repeat constructor.
Defined.

(** C2 — the snapshot that the next training call replays against is not a
    copy of the live workspace.  With the playback agent, training on one
    logged action leaves [last_trained_env] on the object it already was,
    and that object ("", [5]) differs from the live workspace
    ("demo", [5]); the copy of the live workspace is a third object. *)
Lemma train_baseline_is_not_live_copy :
  ∃ w',
    TrainState.train_agent Scenarios.edited_then_logged = Ok tt w'
    ∧ entries_after Scenarios.edited_then_logged ≠ []
    ∧ last_trained_env (cli w') ∈ dom (heap Scenarios.edited_then_logged)
    ∧ heap w' !! last_trained_env (cli w') = Some ("", [5%Z])
    ∧ heap w' !! env (cli w') = Some ("demo", [5%Z])
    ∧ last_trained_env_state (cli w') = Some 3%positive
    ∧ (baseline_is_copy_of_live Scenarios.edited_then_logged w' → False).
Proof.
  eexists. split; [vm_compute; reflexivity|].
  split; [done|]. split; [by decide_by_compute|].
  split; [by vm_compute|]. split; [by vm_compute|]. split; [by vm_compute|].
  intros (_ & _ & Hcopy). vm_compute in Hcopy. discriminate Hcopy.
Qed.

Lemma train_replays_and_snapshots_witness :
  ∃ w',
    TrainState.train_agent Scenarios.edited_then_logged = Ok tt w'
    ∧ last_trained_step (cli w') = 1%Z
    ∧ last_trained_env (cli w') = 2%positive
    ∧ last_trained_env_state (cli w') = Some 3%positive.
Proof.
  destruct (train_replays_and_snapshots Scenarios.edited_then_logged
              Scenarios.logged_action [])
    as (w' & l & Hrun & _ & _ & _ & Hstep & Henv & Hstate & _);
    [reflexivity|by vm_compute; eexists|].
  exists w'. split; [exact Hrun|]. split; [exact Hstep|].
  split; [exact Henv|].
  vm_compute in Hrun. injection Hrun as <-. reflexivity.
Defined.

End TrainScenario.

(** ** The menu *)
Section MenuClaims.
Context `{AgentAPI} `{!Inputs}.
Import MenuState.


End MenuClaims.

Section MenuScenario.
Import Fixture.


End MenuScenario.

(** ** Automatic solutions *)
Section AutoSolveClaims.
Context `{AgentAPI} `{!Tokenizer} `{!Services}.
Import AutoSolveState.

(** C10 — when the current instruction is empty or made of whitespace only,
    the auto-solve state returns to the menu at once: apart from the redraw,
    the world is unchanged, so the solution generator is not invoked, no
    action is applied and the session context is as before. *)
Theorem auto_solve_blank_instruction (w : World) :
  all_whitespace (get_env_instruction (live_env w)) = true →
  handle_execution w
  = Ok (Some MENU) (with_term (term w ++ [Render AUTO_SOLVE]) w)
  ∧ calls (with_term (term w ++ [Render AUTO_SOLVE]) w) = calls w
  ∧ applied (with_term (term w ++ [Render AUTO_SOLVE]) w) = applied w
  ∧ cli (with_term (term w ++ [Render AUTO_SOLVE]) w) = cli w
  ∧ heap (with_term (term w ++ [Render AUTO_SOLVE]) w) = heap w
  ∧ db (with_term (term w ++ [Render AUTO_SOLVE]) w) = db w.
Proof.
  intros Hblank. apply strip_empty_iff in Hblank.
  split; [|done].
  unfold handle_execution, _render.
  unfold bind at 1. cbn [term_op modify].
  unfold bind at 1. cbn [gets].
  change (live_env (with_term (term w ++ [Render AUTO_SOLVE]) w))
    with (live_env w).
  by rewrite Hblank.
Qed.

(** With any other instruction the generator is invoked. *)
Lemma auto_solve_invokes_generator (w : World) :
  all_whitespace (get_env_instruction (live_env w)) = false →
  ∃ w', handle_execution w = Ok (Some MENU) w'
      ∧ GenerateSolution (get_env_instruction (live_env w))
          (get_env_code (live_env w)) (get_env_exec_output (live_env w))
        ∈ calls w'.
Proof.
  intros Hblank.
  assert (String.eqb (strip (get_env_instruction (live_env w))) "" = false)
    as Hstrip.
  { apply String.eqb_neq. intros Hs%strip_empty_iff. congruence. }
  unfold handle_execution, _render.
  unfold bind at 1. cbn [term_op modify].
  unfold bind at 1. cbn [gets].
  set (w0 := with_term (term w ++ [Render AUTO_SOLVE]) w).
  change (live_env w0) with (live_env w). rewrite Hstrip.
  do 2 (unfold bind at 1; cbn [gets]).
  unfold bind at 1. cbn [record_call modify].
  do 2 (unfold bind at 1; cbn [gets]).
  unfold bind at 1.
  match goal with |- context [for_each ?l ?f ?w1] =>
    assert (∃ w2, for_each l f w1 = Ok tt w2 ∧ calls w2 = calls w1)
      as (w2 & -> & Hcalls)
  end.
  { match goal with |- context [for_each ?l _ ?w1] =>
      generalize l; generalize w1 end.
    intros w1 l. revert w1. induction l as [|a l IH]; intros w1.
    - by exists w1.
    - cbn [for_each]. unfold bind at 1. unfold bind at 1.
      cbn [_env_enact modify term_op].
      destruct (IH (with_term (term (enact_world a AI w1) ++ [Render AUTO_SOLVE])
                      (enact_world a AI w1))) as (w2 & -> & Hc).
      exists w2. split; [done|]. rewrite Hc. cbn. apply calls_enact_world. }
  eexists. split; [done|]. rewrite Hcalls. cbn.
  subst w0. cbn. apply elem_of_app. right. by left.
Qed.

End AutoSolveClaims.

Section AutoSolveScenario.
Import Fixture.

Lemma auto_solve_blank_instruction_witness :
  let _ := services None [] in
  AutoSolveState.handle_execution Scenarios.blank_instruction
  = Ok (Some MENU)
       (with_term [Render AUTO_SOLVE] Scenarios.blank_instruction).
Proof.
  intros S.
  exact (proj1 (auto_solve_blank_instruction
                  Scenarios.blank_instruction eq_refl)).
Defined.

End AutoSolveScenario.

(** ** Saving a model *)
Section SaveModelClaims.
Context `{AgentAPI} `{!Services}.
Import SaveModelState.

(** C8 — in the save-model state, with a key press pending:
    without a configured save directory the error view is shown and the
    state returns to the menu, nothing being saved;
    with a directory, the prompt offers the loaded model name, or, when no
    model is loaded, "model_" followed by six characters drawn from the
    lowercase letters and digits; then an empty name shows the retry view
    and returns to the save-model state itself without saving, a name is
    saved under [os.path.join(directory, name)], becomes the loaded model
    name and leads to the menu, and a cancelled prompt leads to the menu
    without saving. *)
Theorem save_model_cases (w : World) (k : string) (rest : list string) :
  keys w = k :: rest →
  (truthy (model_save_dir (cli w)) = false →
   ∃ w', handle_execution w = Ok (Some MENU) w'
       ∧ AddStr 0 0 "Error: model_save_dir not set in config" ∈ term w'
       ∧ saved w' = saved w ∧ calls w' = calls w ∧ cli w' = cli w)
  ∧ (truthy (model_save_dir (cli w)) = true →
     ((∀ n, loaded_model_name (cli w) = Some n → n ≠ "" →
            offered_default w = n)
      ∧ (truthy (loaded_model_name (cli w)) = false →
         ∃ id, offered_default w = "model_" +:+ string_of_list_ascii id
             ∧ length id = 6
             ∧ Forall (λ c, c ∈ alphabet) id))
     ∧ ∃ w', match get_text_input (offered_default w) with
             | None =>
                 handle_execution w = Ok (Some MENU) w'
                 ∧ saved w' = saved w ∧ cli w' = cli w
             | Some "" =>
                 handle_execution w = Ok (Some SAVE_MODEL) w'
                 ∧ AddStr 0 0 "Error: Model needs a name to save" ∈ term w'
                 ∧ saved w' = saved w ∧ cli w' = cli w
             | Some name =>
                 let full_path :=
                   os_path_join (default "" (model_save_dir (cli w))) name in
                 handle_execution w = Ok (Some MENU) w'
                 ∧ saved w' = saved w ++ [(full_path, agent (cli w))]
                 ∧ loaded_model_name (cli w') = Some name
                 ∧ agent (cli w') = agent (cli w)
                 ∧ calls w' = calls w ++ [GetTextInput (offered_default w);
                                          AgentSave full_path]
             end
           ∧ (∃ c, calls w' = calls w ++ GetTextInput (offered_default w) :: c)).
Proof.
  intros Hk. split.
  - intros Hdir. eexists. split; [exact (save_no_directory w k rest Hk Hdir)|]. cbn.
    split; [|done]. rewrite elem_of_app. right. set_solver.
  - intros Hdir. split; [split|].
    + intros n Hn Hne. unfold offered_default. rewrite Hn. cbn.
      apply String.eqb_neq in Hne. by rewrite Hne.
    + intros Hnone. unfold offered_default. rewrite Hnone.
      eexists. split; [done|]. split; [apply pick_chars_length|].
      by apply pick_chars_from.
    + destruct (get_text_input (offered_default w)) as [name|] eqn:Hinput.
      * destruct (decide (name = "")) as [->|Hname].
        -- eexists. split.
           ++ split; [exact (save_unnamed w k rest Hdir Hinput Hk)|]. cbn.
              split; [|done]. rewrite elem_of_app. right. set_solver.
           ++ cbn. by eexists.
        -- eexists. split.
           ++ pose proof (save_named w k name rest Hdir Hinput Hname Hk)
                as Hrun.
              destruct name as [|c name]; [done|].
              cbn zeta. split; [exact Hrun|]. cbn.
              by rewrite <- app_assoc.
           ++ cbn. rewrite <- app_assoc. by eexists.
      * eexists. split.
        -- split; [exact (save_cancelled w Hdir Hinput)|]. done.
        -- cbn. by eexists.
Qed.

End SaveModelClaims.

Section SaveModelScenario.
Import Fixture.

Lemma save_model_cases_witness :
  let _ := services (Some "m1") [] in
  ∃ w', SaveModelState.handle_execution (world0 ["k"]) = Ok (Some MENU) w'
      ∧ saved w' = [("models/m1", agent0)]
      ∧ loaded_model_name (cli w') = Some "m1"
      ∧ calls w' = [GetTextInput "model_dea90h"; AgentSave "models/m1"].
Proof.
  intros S.
  destruct (proj2 (save_model_cases (world0 ["k"]) "k" [] eq_refl) eq_refl)
    as (_ & w' & Hcase & _).
  exists w'. cbn zeta in Hcase.
  destruct Hcase as (Hrun & Hsaved & Hname & _ & Hcalls).
  split; [exact Hrun|]. split; [exact Hsaved|]. split; [exact Hname|].
  exact Hcalls.
Defined.
(** C8 — a cancelled prompt is not an empty name, and nothing is persisted.
    With a save directory configured and the prompt left with escape,
    [get_text_input] returns [None]: the state returns to the menu, no
    model is saved, no name is remembered and no key is read. *)
Lemma save_cancelled_persists_nothing :
  let _ := services None [] in
  ∃ w',
    SaveModelState.handle_execution (world0 ["k"]) = Ok (Some MENU) w'
    ∧ truthy (model_save_dir (cli (world0 ["k"]))) = true
    ∧ get_text_input (offered_default (world0 ["k"])) = None
    ∧ saved w' = []
    ∧ loaded_model_name (cli w') = None
    ∧ keys w' = ["k"]
    ∧ (persisted_unless_empty (world0 ["k"]) (Some MENU) w' → False).
Proof.
  intros S. eexists. split; [vm_compute; reflexivity|].
  split; [done|]. split; [done|]. split; [done|]. split; [done|].
  split; [done|].
  intros Hclaim. destruct Hclaim as (_ & name & Hsaved & _); [done|].
  vm_compute in Hsaved. discriminate Hsaved.
Qed.

End SaveModelScenario.

(** ** Loading models *)
Section LoadModelClaims.
Context `{AgentAPI} `{!Services}.
Import LoadModelState.

(** C7 — in the load-model state, with a save directory and, unless nothing
    is selected, a key press pending for every report and for the final
    view: [cli.agent.load] is called once per selected model, in selection
    order, whether or not earlier loads raised; every load that raised is
    reported on the screen with its message; and the remembered model name
    is that of the last model whose load returned, or is unchanged when
    every load raised.  The state returns to the menu. *)
Theorem load_models_in_order
    (w : World) (dir : string) (selected : list string) :
  model_save_dir (cli w) = Some dir →
  dir ≠ "" →
  let model_files :=
    List.filter (λ f, isdir (os_path_join dir f)) (listdir dir) in
  model_files ≠ [] →
  select_from_list model_files "Select model to load:" = selected →
  let outcomes := load_outcomes (agent (cli w)) dir selected in
  (selected ≠ [] →
   length (List.filter load_failed outcomes) < length (keys w)) →
  ∃ w',
    handle_execution w = Ok (Some MENU) w'
    ∧ calls w' = calls w ++ ((λ m, AgentLoad (os_path_join dir m)) <$> selected)
    ∧ (∀ m e, (m, Some e) ∈ outcomes → load_error_line m e ∈ term w')
    ∧ (Forall (λ o, load_failed o = true) outcomes →
       loaded_model_name (cli w') = loaded_model_name (cli w))
    ∧ (∀ pre m post,
         outcomes = pre ++ (m, None) :: post →
         Forall (λ o, load_failed o = true) post →
         loaded_model_name (cli w') = Some m).
Proof.
  intros Hdir Hne model_files Hfiles Hsel outcomes Hkeys.
  assert (truthy (Some dir) = true) as Htruthy.
  { cbn. apply String.eqb_neq in Hne. by rewrite Hne. }
  destruct (decide (selected = [])) as [Hempty|Hnonempty].
  - subst outcomes selected. rewrite Hempty. exists w. split.
    + unfold handle_execution. unfold bind at 1. cbn [gets].
      rewrite Hdir, Htruthy. cbn [negb default from_option id].
      subst model_files.
      destruct (List.filter _ (listdir dir)) as [|f fs] eqn:Hmf; [done|].
      by rewrite Hempty.
    + cbn. rewrite app_nil_r. split; [done|]. split.
      * intros m e Hin. by apply elem_of_nil in Hin.
      * split; [done|]. intros pre m post Heq. by destruct pre.
  - specialize (Hkeys Hnonempty). subst selected.
    destruct (select_from_list model_files "Select model to load:")
      as [|first others] eqn:Hsel; [done|].
    set (selected := first :: others) in *.
    destruct (for_each_load dir selected w)
      as (w1 & t & Hrun & Hcalls & Hname & Hterm & Hrep & Hks).
    { exact (Nat.lt_le_incl _ _ Hkeys). }
    cbn zeta in Hname, Hrep, Hks. fold outcomes in Hname, Hrep, Hks.
    assert (∃ k rest, keys w1 = k :: rest) as (k & rest & Hk1).
    { rewrite Hks.
      destruct (drop (length (List.filter load_failed outcomes)) (keys w))
        as [|k rest] eqn:Hdrop; [|by eauto].
      apply (f_equal length) in Hdrop. rewrite length_drop in Hdrop.
      change (length (@nil string)) with 0 in Hdrop. lia. }
    eexists. split.
    + unfold handle_execution. unfold bind at 1. cbn [gets].
      rewrite Hdir, Htruthy. cbn [negb default from_option id].
      subst model_files.
      destruct (List.filter _ (listdir dir)) as [|f fs] eqn:Hmf; [done|].
      rewrite Hsel. unfold selected at 1. unfold bind at 1. rewrite Hrun.
      unfold getch. unfold bind, term_op, modify, getkey, ret. cbn.
      rewrite Hk1. reflexivity.
    + cbn. split; [done|]. split.
      * intros m e Hin. rewrite Hterm, <- !app_assoc, elem_of_app.
        right. rewrite elem_of_app. left. by apply Hrep.
      * rewrite Hname. split.
        -- apply remembered_all_failed.
        -- intros pre m post Heq Hpost.
           pose proof (remembered_last_success (loaded_model_name (cli w))
                         pre m post Hpost) as Hlast.
           rewrite <- Heq in Hlast. exact Hlast.
Qed.

End LoadModelClaims.

Section LoadModelScenario.
Import Fixture.

Lemma load_models_in_order_witness :
  let _ := services None ["a"; "broken"; "c"] in
  ∃ w',
    LoadModelState.handle_execution (world0 ["k"; "k"]) = Ok (Some MENU) w'
    ∧ calls w' = [AgentLoad "models/a"; AgentLoad "models/broken";
                  AgentLoad "models/c"]
    ∧ load_error_line "broken" broken_exn ∈ term w'
    ∧ loaded_model_name (cli w') = Some "c".
Proof.
  intros S.
  destruct (load_models_in_order (world0 ["k"; "k"]) "models"
              ["a"; "broken"; "c"])
    as (w' & Hrun & Hcalls & Hrep & _ & Hname);
    [reflexivity|done|done|reflexivity|intros _; vm_compute; lia|].
  exists w'. split; [exact Hrun|]. split; [exact Hcalls|]. split.
  - apply Hrep. by decide_by_compute.
  - apply (Hname [("a", None); ("broken", Some broken_exn)] "c" []).
    + reflexivity.
    + constructor.
Defined.

End LoadModelScenario.

(** ** Evaluation *)
Section EvalClaims.
Context `{AgentAPI} `{!Services}.
Import EvalState.

(** C9 — in the evaluation state, with an existing evaluation directory, a
    non-empty selection of distinct items and a key press pending:
    [run_agent_eval] is called once per selected item, in selection order,
    whether or not earlier evaluations raised; the results view shows one
    section per selected item, in selection order; the section of an item
    whose evaluation raised holds the message and the stack trace of the
    exception; and the state returns to the menu after the key press. *)
Theorem eval_reports_each_item
    (w : World) (path k : string) (rest : list string) :
  eval_data_path (cli w) = Some path →
  path ≠ "" →
  path_exists path = true →
  let eval_items :=
    List.filter (λ f, path_exists (os_path_join path f)) (listdir path) in
  eval_items ≠ [] →
  let selected :=
    select_multiple_from_list eval_items "Select evals to run:" in
  selected ≠ [] →
  NoDup selected →
  keys w = k :: rest →
  let outcomes := eval_outcomes (agent (cli w)) path selected in
  let results := (λ o, (o.1, as_result o.2)) <$> outcomes in
  ∃ (w' : World) (pre : list TermOp),
    handle_execution w = Ok (Some MENU) w'
    ∧ calls w'
      = calls w ++ ((λ item, RunAgentEval (os_path_join path item)) <$> selected)
    ∧ results.*1 = selected
    ∧ term w'
      = pre ++ concat (result_section <$> results)
            ++ [WriterWrite "Press any key to continue..." A_NORMAL; Refresh]
    ∧ (∀ item e,
         (item, inl e) ∈ outcomes →
         (item, [("error", exn_str e); ("stack_trace", exn_trace e)]) ∈ results
         ∧ WriterWrite ("error: " +:+ exn_str e) A_NORMAL ∈ term w'
         ∧ WriterWrite ("stack_trace: " +:+ exn_trace e) A_NORMAL ∈ term w')
    ∧ keys w' = rest.
Proof.
  intros Hpath Hne Hexists eval_items Hitems selected Hsel Hnodup Hk
    outcomes results.
  assert (truthy (Some path) = true) as Htruthy.
  { cbn. apply String.eqb_neq in Hne. by rewrite Hne. }
  assert (results.*1 = selected) as Hfst.
  { subst results outcomes. rewrite <- list_fmap_compose.
    rewrite <- (eval_outcomes_items (agent (cli w)) path selected) at 2.
    done. }
  set (w0 := with_term (term w ++ [Clear; Refresh; SaveTty; ResetShellMode]) w).
  destruct (for_fold_eval path selected [] w0)
    as (w1 & Hrun & Hcalls & Hterm & Hkeys).
  change (agent (cli w0)) with (agent (cli w)) in Hrun. fold outcomes in Hrun.
  rewrite (foldl_dict_set_fresh as_result outcomes []) in Hrun
    by (cbn [fmap list_fmap app]; subst outcomes;
        by rewrite eval_outcomes_items).
  cbn [app] in Hrun. fold results in Hrun.
  assert (∀ item e, (item, inl e) ∈ outcomes →
            (item, [("error", exn_str e); ("stack_trace", exn_trace e)])
            ∈ results) as Hrec.
  { intros item e Hin. subst results.
    apply (list_elem_of_fmap_2 (λ o, (o.1, as_result o.2)) _ _ Hin). }
  exists (with_keys rest
            (with_term (term w1 ++ [ResetTty; Clear]
                          ++ concat (result_section <$> results)
                          ++ [WriterWrite "Press any key to continue..." A_NORMAL;
                              Refresh]) w1)).
  exists (term w1 ++ [ResetTty; Clear]).
  split.
  - unfold handle_execution. unfold bind at 1. cbn [gets].
    rewrite Hpath. unfold bind at 1. cbn [term_op modify].
    rewrite Htruthy. cbn [negb default from_option id]. rewrite Hexists.
    cbn [negb]. subst eval_items selected.
    destruct (List.filter _ (listdir path)) as [|f fs] eqn:Hf; [done|].
    destruct (select_multiple_from_list (f :: fs) "Select evals to run:")
      as [|s0 ss] eqn:Hs; [done|].
    do 3 (unfold bind at 1; cbn [term_op modify]).
    unfold bind at 1.
    match goal with |- context [for_fold _ _ _ ?w2] =>
      replace w2 with w0 by (subst w0; apply world_eq; cbn;
                             rewrite <- ?app_assoc; done)
    end.
    rewrite Hrun.
    do 2 (unfold bind at 1; cbn [term_op modify]).
    unfold bind at 1. rewrite for_each_show.
    do 2 (unfold bind at 1; cbn [term_op modify]).
    unfold bind at 1.
    rewrite (getch_cons _ k rest)
      by (cbn [keys with_term]; rewrite Hkeys; subst w0; exact Hk).
    unfold ret. f_equal. apply world_eq;
      cbn [cli heap db keys rng term applied calls saved with_term with_keys];
      rewrite <- ?app_assoc; reflexivity.
  - cbn. split; [done|]. split; [done|].
    split; [by rewrite <- !app_assoc|]. split; [|done].
    intros item e Hin. split; [by apply Hrec|].
    assert (∀ op, op ∈ result_section
                         (item, [("error", exn_str e);
                                 ("stack_trace", exn_trace e)]) →
                  op ∈ term w1 ++ [ResetTty; Clear]
                         ++ concat (result_section <$> results)
                         ++ [WriterWrite "Press any key to continue..." A_NORMAL;
                             Refresh]) as Hshown.
    { intros op Hop. rewrite !elem_of_app. right. right. left.
      apply (elem_of_concat _ _ _ Hop).
      apply list_elem_of_fmap_2. by apply Hrec. }
    split; apply Hshown; unfold result_section; cbn; set_solver.
Qed.

End EvalClaims.

Section EvalScenario.
Import Fixture.

Lemma eval_reports_each_item_witness :
  let _ := services None ["good"; "bad"; "fine"] in
  ∃ w',
    EvalState.handle_execution (world0 ["k"]) = Ok (Some MENU) w'
    ∧ calls w' = [RunAgentEval "evals/good"; RunAgentEval "evals/bad";
                  RunAgentEval "evals/fine"]
    ∧ WriterWrite "error: corrupt checkpoint" A_NORMAL ∈ term w'
    ∧ WriterWrite "stack_trace: Traceback: load" A_NORMAL ∈ term w'.
Proof.
  intros S.
  destruct (eval_reports_each_item (world0 ["k"]) "evals" "k" [])
    as (w' & pre & Hrun & Hcalls & _ & _ & Hrec & _);
    [reflexivity|done|reflexivity|done|done|by decide_by_compute|reflexivity|].
  exists w'. split; [exact Hrun|]. split; [exact Hcalls|].
  destruct (Hrec "bad" broken_exn) as (_ & Herr & Htrace);
    [by decide_by_compute|].
  by split.
Defined.

End EvalScenario.

(** * Further properties *)

(** ** The editing state, key by key *)
Section EditorFacts.
Context `{AgentAPI} `{!Inputs} `{!Tokenizer}.
Import ExampleState.

Lemma editor_step_refl (w : World) : editor_step w w.
Proof.
  repeat split; try done.
  - exists []. cbn. by rewrite app_nil_r.
  - by exists [].
Qed.

Lemma editor_step_trans (w1 w2 w3 : World) :
  editor_step w1 w2 → editor_step w2 w3 → editor_step w1 w3.
Proof.
  intros ([a1 Ha1] & Hc1 & Hs1 & Hr1 & Hq1 & [u1 Hu1])
         ([a2 Ha2] & Hc2 & Hs2 & Hr2 & Hq2 & [u2 Hu2]).
  repeat split; try congruence.
  - exists (a1 ++ a2). rewrite Ha2, Ha1, fmap_app, app_assoc. done.
  - exists (u1 ++ u2). rewrite Hu1, Hu2, app_assoc. done.
Qed.

Lemma editor_step_enact (a : Z) (w : World) :
  editor_step w (enact_world a HUMAN w).
Proof.
  repeat split.
  - exists [a]. apply applied_enact_world.
  - apply calls_enact_world.
  - unfold enact_world. by destruct (use_db (cli w)).
  - unfold enact_world. by destruct (use_db (cli w)).
  - by rewrite cli_enact_world.
  - exists []. by rewrite keys_enact_world.
Qed.

Lemma editor_step_enact_all (l : list Z) (w : World) :
  editor_step w (enact_all l HUMAN w).
Proof.
  revert w. induction l as [|a l IH]; intros w; [apply editor_step_refl|].
  rewrite enact_all_cons.
  eapply editor_step_trans; [apply editor_step_enact|apply IH].
Qed.

(** Redrawing, reading one key and rewriting the buffer is an editor
    step. *)
Lemma editor_step_read (w : World) (rq : bool) (key buf : string)
    (rest : list string) :
  keys w = key :: rest →
  editor_step w (with_cli (set_insert_queue buf)
                   (with_keys rest (redrawn rq w))).
Proof.
  intros Hk. repeat split; try done.
  - exists []. cbn. by rewrite app_nil_r.
  - exists [key]. by rewrite Hk.
Qed.

Lemma editor_step_read_only (w : World) (rq : bool) (key : string)
    (rest : list string) :
  keys w = key :: rest → editor_step w (with_keys rest (redrawn rq w)).
Proof.
  intros Hk. repeat split; try done.
  - exists []. cbn. by rewrite app_nil_r.
  - exists [key]. by rewrite Hk.
Qed.

Lemma loop_body_blocked (w : World) (rq : bool) :
  keys w = [] → loop_body ([], rq) w = Blocked (redrawn rq w).
Proof.
  intros Hk.
  unfold loop_body, bind, _render, term_op, modify,
    _query_and_parse_user_key, getkey.
  destruct rq; cbn; rewrite Hk; f_equal; apply world_eq; cbn;
    rewrite <- ?app_assoc; done.
Qed.

Lemma loop_body_resize (w : World) (rq : bool) (rest : list string) :
  keys w = "KEY_RESIZE" :: rest →
  loop_body ([], rq) w = Ok (Continue ([], false)) (with_keys rest (redrawn rq w)).
Proof.
  intros Hk.
  unfold loop_body, bind, _render, term_op, modify,
    _query_and_parse_user_key, getkey.
  destruct rq; cbn; rewrite Hk; cbn;
    rewrite decide_False by done; rewrite decide_True by done;
    f_equal; apply world_eq; cbn; rewrite <- ?app_assoc; done.
Qed.

Lemma loop_body_insert_block (w : World) (rq : bool) (rest : list string) :
  keys w = KEY_CTRL_RIGHT_TOKEN :: rest →
  KEY_CTRL_RIGHT_TOKEN ≠ ESC → KEY_CTRL_RIGHT_TOKEN ≠ "KEY_RESIZE" →
  loop_body ([], rq) w
  = Ok (Continue (encode (insert_queue (cli w))
                    ++ [convert_tokens_to_ids KEY_ENTER_TOKEN], false))
       (with_cli (set_insert_queue "") (with_keys rest (redrawn rq w))).
Proof.
  intros Hk Hesc Hres.
  unfold loop_body, bind, _render, term_op, modify, gets, update_cli,
    _query_and_parse_user_key, getkey.
  destruct rq; cbn; rewrite Hk; cbn;
    rewrite !decide_False by done; rewrite decide_True by done; cbn;
    f_equal; apply world_eq; cbn; rewrite <- ?app_assoc; done.
Qed.

Lemma loop_body_command_now (w : World) (rq : bool) (key : string)
    (rest : list string) :
  keys w = key :: rest →
  key ≠ ESC → key ≠ "KEY_RESIZE" → key ≠ KEY_CTRL_RIGHT_TOKEN →
  key ∈ COMMAND_TOKENS →
  insert_queue (cli w) = "" →
  loop_body ([], rq) w
  = Ok (Continue ([], false))
       (enact_world (convert_tokens_to_ids key) HUMAN
          (with_keys rest (redrawn rq w))).
Proof.
  intros Hk Hesc Hres Hright Hcmd Hbuf.
  unfold loop_body, bind, _render, term_op, modify, gets, update_cli,
    _query_and_parse_user_key, getkey, _env_enact.
  destruct rq; cbn -[enact_world]; rewrite Hk; cbn -[enact_world];
    rewrite !decide_False by done; rewrite bool_decide_true by done;
    cbn -[enact_world]; rewrite Hbuf; cbn -[enact_world];
    unfold modify; do 2 f_equal; apply world_eq; cbn;
    rewrite <- ?app_assoc; done.
Qed.

(** One pass of the loop that returns is an editor step; it leaves the loop
    only on escape, with an empty buffer; and it reads a key only when
    nothing is queued. *)
Lemma loop_body_step (q : list Z) (rq : bool) (w w1 : World)
    (c : Ctl Locals (list Z)) :
  loop_body (q, rq) w = Ok c w1 →
  editor_step w w1
  ∧ (∀ r, c = Break r → insert_queue (cli w1) = "" ∧ ESC ∈ keys w)
  ∧ (q ≠ [] → keys w1 = keys w).
Proof.
  destruct q as [|a q].
  - destruct (keys w) as [|key rest] eqn:Hk.
    { rewrite (loop_body_blocked w rq Hk). done. }
    destruct (decide (key = ESC)) as [->|Hesc].
    { rewrite (loop_body_escape w rq rest Hk).
      destruct (0 <? String.length (insert_queue (cli w)))%nat eqn:Hlen;
        intros [= <- <-]; (split; [|split; [|done]]).
      - eapply editor_step_trans;
          [apply (editor_step_read w rq ESC "" rest Hk)
          |apply editor_step_enact_all].
      - intros r _. rewrite cli_enact_all. split; [done|]. by left.
      - apply (editor_step_read_only w rq ESC rest Hk).
      - intros r _. split; [|by left]. cbn.
        destruct (insert_queue (cli w)); done. }
    destruct (decide (key = "KEY_RESIZE")) as [->|Hres].
    { rewrite (loop_body_resize w rq rest Hk). intros [= <- <-].
      split; [|done]. apply (editor_step_read_only w rq _ rest Hk). }
    destruct (decide (key = KEY_CTRL_RIGHT_TOKEN)) as [->|Hright].
    { rewrite (loop_body_insert_block w rq rest Hk Hesc Hres).
      intros [= <- <-]. split; [|done].
      apply (editor_step_read w rq _ "" rest Hk). }
    destruct (decide (key ∈ COMMAND_TOKENS)) as [Hcmd|Hcmd].
    + destruct (decide (insert_queue (cli w) = "")) as [Hbuf|Hbuf].
      * rewrite (loop_body_command_now w rq key rest Hk Hesc Hres Hright
                   Hcmd Hbuf).
        intros [= <- <-]. split; [|done].
        eapply editor_step_trans;
          [apply (editor_step_read_only w rq key rest Hk)
          |apply editor_step_enact].
      * rewrite (loop_body_command w rq key rest Hk Hesc Hres Hright
                   Hcmd Hbuf).
        intros [= <- <-]. split; [|done].
        apply (editor_step_read w rq key "" rest Hk).
    + rewrite (loop_body_plain w rq key rest Hk); [|done].
      intros [= <- <-]. split; [|done].
      apply (editor_step_read w rq key _ rest Hk).
  - rewrite loop_body_pop. intros [= <- <-]. split; [|split; [done|]].
    + eapply editor_step_trans; [|apply editor_step_enact].
      repeat split; try done.
      * exists []. cbn. by rewrite app_nil_r.
      * by exists [].
    + intros _. by rewrite keys_enact_world.
Qed.

Lemma while_loop_step (fuel : nat) :
  ∀ (q : list Z) (rq : bool) (w w' : World) (r : list Z),
    while_loop fuel loop_body (q, rq) w = Ok r w' →
    editor_step w w' ∧ insert_queue (cli w') = "" ∧ ESC ∈ keys w.
Proof.
  induction fuel as [|fuel IH]; intros q rq w w' r; [done|].
  cbn [while_loop]. unfold bind at 1.
  destruct (loop_body (q, rq) w) as [c w1| |] eqn:Hbody; [|done..].
  apply loop_body_step in Hbody as (Hstep & Hbreak & _).
  destruct c as [[q1 rq1]|r1].
  - intros (Hstep' & Hbuf & Hesc)%IH.
    split; [by eapply editor_step_trans|]. split; [done|].
    destruct Hstep as (_ & _ & _ & _ & _ & [used ->]).
    apply elem_of_app. by right.
  - intros [= <- <-]. destruct (Hbreak r1 eq_refl). done.
Qed.

End EditorFacts.

Section EditorProperties.
Context `{AgentAPI} `{!Inputs} `{!Tokenizer}.
Import ExampleState.

(** X1 — whatever keys arrive, when the editor returns it returns to the
    menu with an empty text buffer; every action it applied is tagged
    [HUMAN]; it invoked no collaborator, saved nothing and changed no field
    of [cli] other than the buffer; and an escape key was among the keys. *)
Theorem editor_returns_clean
    (w w' : World) (fuel : nat) (next : option StateId) :
  handle_execution fuel w = Ok next w' →
  next = Some MENU
  ∧ insert_queue (cli w') = ""
  ∧ (∃ acts, applied w' = applied w ++ ((λ a, (a, HUMAN)) <$> acts))
  ∧ calls w' = calls w
  ∧ saved w' = saved w
  ∧ set_insert_queue "" (cli w') = set_insert_queue "" (cli w)
  ∧ ESC ∈ keys w.
Proof.
  unfold handle_execution, edit_loop.
  unfold bind at 1. unfold bind at 1. cbn [term_op modify].
  unfold bind at 1. cbn [update_cli modify].
  destruct (while_loop _ _ _ _) as [r w1| |] eqn:Hloop; [|done..].
  apply while_loop_step in Hloop
    as (((acts & Happ) & Hcalls & Hsaved & _ & Hcli & _) & Hbuf & Hesc).
  unfold bind at 1. cbn [term_op modify ret]. intros [= <- <-].
  cbn in *. repeat split; try done. by exists acts.
Qed.

(** X2 — without an escape key in the script the editor does not return:
    it is left waiting for a key, or the loop is still running when the
    fuel ends. *)
Theorem editor_left_only_by_escape (w : World) (fuel : nat) :
  ESC ∉ keys w →
  (∃ w', handle_execution fuel w = Blocked w')
  ∨ handle_execution fuel w = OutOfFuel.
Proof.
  intros Hesc.
  destruct (handle_execution fuel w) as [next w'|w'|] eqn:Hrun;
    [|left; by eexists|by right].
  exfalso. apply Hesc. revert Hrun.
  unfold handle_execution, edit_loop.
  unfold bind at 1. unfold bind at 1. cbn [term_op modify].
  unfold bind at 1. cbn [update_cli modify].
  destruct (while_loop _ _ _ _) as [r w1| |] eqn:Hloop; [|done..].
  by apply while_loop_step in Hloop as (_ & _ & Hin).
Qed.

(** X3 — escape as the first key: the editor returns to the menu at once
    and applies nothing; text left in [cli.insert_queue] by an earlier
    activation is discarded on entry, not emitted. *)
Theorem editor_escape_at_once
    (w : World) (rest : list string) (fuel : nat) :
  keys w = ESC :: rest →
  ∃ w', handle_execution (S fuel) w = Ok (Some MENU) w'
      ∧ applied w' = applied w
      ∧ insert_queue (cli w') = ""
      ∧ keys w' = rest
      ∧ db w' = db w.
Proof.
  intros Hk. unfold handle_execution, edit_loop.
  unfold bind at 1. unfold bind at 1. cbn [term_op modify].
  unfold bind at 1. cbn [update_cli modify].
  cbn [while_loop]. unfold bind at 1.
  rewrite (loop_body_escape _ false rest) by exact Hk.
  cbn. eexists. by repeat split.
Qed.

(** X4 — a terminal resize event is consumed and nothing else happens: the
    buffer keeps its text, nothing is queued or applied, whether or not
    the event is listed among the command tokens. *)
Theorem editor_resize_ignored (w : World) (rq : bool) (rest : list string) :
  keys w = "KEY_RESIZE" :: rest →
  ∃ w1, loop_body ([], rq) w = Ok (Continue ([], false)) w1
      ∧ cli w1 = cli w
      ∧ applied w1 = applied w
      ∧ db w1 = db w
      ∧ keys w1 = rest.
Proof.
  intros Hk. rewrite (loop_body_resize w rq rest Hk).
  eexists. split; [done|]. by destruct rq.
Qed.

(** X5 — the insert-block key queues the encoded buffer followed by the
    commit action (the commit action alone after [encode('')] when nothing
    was typed), clears the buffer and applies nothing yet; the next passes
    apply the queue in order before another key is read.  This holds even
    if the key is also listed among the command tokens. *)
Theorem editor_insert_block_key (w : World) (rq : bool) (rest : list string) :
  keys w = KEY_CTRL_RIGHT_TOKEN :: rest →
  KEY_CTRL_RIGHT_TOKEN ≠ ESC →
  KEY_CTRL_RIGHT_TOKEN ≠ "KEY_RESIZE" →
  let flushed := encode (insert_queue (cli w))
                   ++ [convert_tokens_to_ids KEY_ENTER_TOKEN] in
  ∃ w1 w2,
    loop_body ([], rq) w = Ok (Continue (flushed, false)) w1
    ∧ insert_queue (cli w1) = ""
    ∧ applied w1 = applied w
    ∧ keys w1 = rest
    ∧ iterations (1 + length flushed) loop_body ([], rq) w
      = Ok (Continue ([], true)) w2
    ∧ applied w2 = applied w ++ ((λ a, (a, HUMAN)) <$> flushed)
    ∧ keys w2 = rest.
Proof.
  intros Hk Hesc Hres flushed.
  pose proof (loop_body_insert_block w rq rest Hk Hesc Hres) as Hbody.
  fold flushed in Hbody.
  eexists. exists (drained flushed
    (with_cli (set_insert_queue "") (with_keys rest (redrawn rq w)))).
  split; [exact Hbody|]. split; [done|]. split; [by destruct rq|].
  split; [done|]. split.
  - cbn [Nat.add iterations]. unfold bind at 1. rewrite Hbody.
    rewrite iterations_drain. subst flushed.
    by destruct (encode (insert_queue (cli w))).
  - rewrite applied_drained, keys_drained.
    split; [by destruct rq|]. done.
Qed.

(** X6 — a command key that arrives while the buffer is empty is applied
    at once, as exactly one human action, and nothing is queued. *)
Theorem editor_command_applied_at_once
    (w : World) (rq : bool) (key : string) (rest : list string) :
  keys w = key :: rest →
  key ∈ COMMAND_TOKENS →
  key ≠ ESC → key ≠ KEY_CTRL_RIGHT_TOKEN → key ≠ "KEY_RESIZE" →
  insert_queue (cli w) = "" →
  ∃ w1, loop_body ([], rq) w = Ok (Continue ([], false)) w1
      ∧ applied w1 = applied w ++ [(convert_tokens_to_ids key, HUMAN)]
      ∧ insert_queue (cli w1) = ""
      ∧ keys w1 = rest.
Proof.
  intros Hk Hcmd Hesc Hright Hres Hbuf.
  rewrite (loop_body_command_now w rq key rest Hk Hesc Hres Hright Hcmd Hbuf).
  eexists. split; [done|].
  rewrite applied_enact_world, cli_enact_world, keys_enact_world.
  by destruct rq.
Qed.

(** X7 — typing plain text only fills the buffer: after a run of plain
    keys the buffer is the old buffer followed by the keys, in order, and
    nothing has been applied to the workspace or queued. *)
Theorem editor_typing_accumulates (txt : list string) :
  ∀ (w : World) (rq : bool) (rest : list string),
    keys w = txt ++ rest →
    Forall plain_text txt →
    ∃ w1, iterations (length txt) loop_body ([], rq) w
          = Ok (Continue ([], match txt with [] => rq | _ => false end)) w1
        ∧ insert_queue (cli w1) = insert_queue (cli w) +:+ typed txt
        ∧ applied w1 = applied w
        ∧ db w1 = db w
        ∧ keys w1 = rest.
Proof.
  induction txt as [|key txt IH]; intros w rq rest Hk Hplain.
  - exists w. cbn. by rewrite str_app_nil_r.
  - apply Forall_cons in Hplain as [Hkey Hplain].
    cbn [length iterations]. unfold bind at 1.
    rewrite (loop_body_plain w rq key (txt ++ rest) Hk Hkey).
    destruct (IH (with_cli (set_insert_queue (insert_queue (cli w) +:+ key))
                    (with_keys (txt ++ rest) (redrawn rq w))) false rest)
      as (w1 & Hrun & Hbuf & Happ & Hdb & Hkeys); [done..|].
    exists w1. split.
    + rewrite Hrun. by destruct txt.
    + rewrite Hbuf, Happ, Hdb. cbn. rewrite str_app_assoc.
      by destruct rq.
Qed.

End EditorProperties.

Section EditorScenarios.
Import Fixture.

Lemma editor_returns_clean_witness :
  ∃ w', ExampleState.handle_execution 3 Scenarios.types_hi_then_escape
        = Ok (Some MENU) w'
      ∧ insert_queue (cli w') = ""
      ∧ calls w' = [].
Proof.
  destruct (ExampleState.handle_execution 3 Scenarios.types_hi_then_escape)
    as [next w'|w'|] eqn:Hrun; [|vm_compute in Hrun; discriminate..].
  destruct (editor_returns_clean _ _ _ _ Hrun)
    as (-> & Hbuf & _ & Hcalls & _).
  exists w'. split; [reflexivity|]. split; [exact Hbuf|exact Hcalls].
Defined.

Lemma editor_left_only_by_escape_witness :
  (∃ w', ExampleState.handle_execution 9 (world0 ["h"; "<|KEY_UP|>"])
         = Blocked w')
  ∨ ExampleState.handle_execution 9 (world0 ["h"; "<|KEY_UP|>"]) = OutOfFuel.
Proof.
  apply (editor_left_only_by_escape (world0 ["h"; "<|KEY_UP|>"]) 9).
  by decide_by_compute.
Defined.

Lemma editor_escape_at_once_witness :
  ∃ w', ExampleState.handle_execution 1
          (with_cli (set_insert_queue "stale") (world0 [ESC; "x"]))
        = Ok (Some MENU) w'
      ∧ applied w' = []
      ∧ insert_queue (cli w') = ""
      ∧ keys w' = ["x"].
Proof.
  destruct (editor_escape_at_once
              (with_cli (set_insert_queue "stale") (world0 [ESC; "x"]))
              ["x"] 0 eq_refl) as (w' & Hrun & Happ & Hbuf & Hkeys & _).
  exists w'. by repeat split.
Defined.

Lemma editor_resize_ignored_witness :
  ∃ w1, ExampleState.loop_body ([], false)
          (with_cli (set_insert_queue "hi") (world0 ["KEY_RESIZE"; ESC]))
        = Ok (Continue ([], false)) w1
      ∧ insert_queue (cli w1) = "hi"
      ∧ applied w1 = [].
Proof.
  destruct (editor_resize_ignored
              (with_cli (set_insert_queue "hi") (world0 ["KEY_RESIZE"; ESC]))
              false [ESC] eq_refl) as (w1 & Hrun & Hcli & Happ & _).
  exists w1. split; [exact Hrun|]. split; [by rewrite Hcli|exact Happ].
Defined.

Lemma editor_insert_block_key_witness :
  ∃ w2, iterations 4 ExampleState.loop_body ([], false)
          (with_cli (set_insert_queue "hi")
             (world0 ["<|KEY_CTRL_RIGHT|>"; ESC]))
        = Ok (Continue ([], true)) w2
      ∧ applied w2 = (λ a, (a, HUMAN)) <$> [104; 105; 256]%Z.
Proof.
  destruct (editor_insert_block_key
              (with_cli (set_insert_queue "hi")
                 (world0 ["<|KEY_CTRL_RIGHT|>"; ESC])) false [ESC])
    as (w1 & w2 & _ & _ & _ & _ & Hrun & Happ & _); [reflexivity|done|done|].
  exists w2. split; [exact Hrun|exact Happ].
Defined.

Lemma editor_command_applied_at_once_witness :
  ∃ w1, ExampleState.loop_body ([], false) (world0 ["<|KEY_UP|>"; ESC])
        = Ok (Continue ([], false)) w1
      ∧ applied w1 = [(258%Z, HUMAN)].
Proof.
  destruct (editor_command_applied_at_once (world0 ["<|KEY_UP|>"; ESC])
              false "<|KEY_UP|>" [ESC])
    as (w1 & Hrun & Happ & _);
    [reflexivity|by decide_by_compute|done|done|done|reflexivity|].
  exists w1. split; [exact Hrun|exact Happ].
Defined.

Lemma editor_typing_accumulates_witness :
  ∃ w1, iterations 2 ExampleState.loop_body ([], false)
          (world0 ["h"; "i"; ESC])
        = Ok (Continue ([], false)) w1
      ∧ insert_queue (cli w1) = "hi"
      ∧ applied w1 = [].
Proof.
  destruct (editor_typing_accumulates ["h"; "i"] (world0 ["h"; "i"; ESC])
              false [ESC] eq_refl)
    as (w1 & Hrun & Hbuf & Happ & _).
  { unfold plain_text. rewrite !Forall_cons. repeat split; try done;
      try apply Forall_nil; by decide_by_compute. }
  exists w1. split; [exact Hrun|]. split; [exact Hbuf|exact Happ].
Defined.

End EditorScenarios.

(** ** The menu, for every key *)
Section MenuProperties.
Context `{AgentAPI} `{!Inputs}.
Import MenuState.

Lemma menu_bound_key (w : World) (key : string) (rest : list string)
    (st : StateId) :
  keys w = key :: rest → key_to_state !! key = Some st →
  handle_execution w
  = Ok (Some st) (with_keys rest (with_term (term w ++ [Render MENU]) w)).
Proof.
  intros Hk Hsome. unfold handle_execution, bind, _render, term_op, modify,
    getkey. cbn -[key_to_state lookup]. rewrite Hk.
  cbn -[key_to_state lookup]. by rewrite Hsome.
Qed.

Lemma key_to_state_exit (key : string) :
  key = ESC ∨ key = CTRL_C → key_to_state !! key = Some EXIT.
Proof.
  unfold key_to_state. cbn [foldl fst snd].
  intros [-> | ->].
  - do 3 (rewrite lookup_insert_ne by done). apply lookup_insert_eq.
  - do 2 (rewrite lookup_insert_ne by done). apply lookup_insert_eq.
Qed.

(** X8 — for every key event the menu yields a successor state (it never
    ends the session itself), consumes exactly that key, and moves the
    pending reward by at most one, and not at all when the key is bound in
    the dispatch table; no other field of [cli], no workspace object, no
    log row and no applied action changes. *)
Theorem menu_always_continues (w : World) (key : string) (rest : list string) :
  keys w = key :: rest →
  ∃ (st : StateId) (w' : World),
    handle_execution w = Ok (Some st) w'
    ∧ keys w' = rest
    ∧ (Z.abs (curr_reward (cli w') - curr_reward (cli w)) ≤ 1)%Z
    ∧ (is_Some (key_to_state !! key) →
       key_to_state !! key = Some st ∧ cli w' = cli w)
    ∧ (key_to_state !! key = None → st = MENU)
    ∧ set_curr_reward 0 (cli w') = set_curr_reward 0 (cli w)
    ∧ heap w' = heap w ∧ db w' = db w ∧ applied w' = applied w
    ∧ calls w' = calls w ∧ saved w' = saved w.
Proof.
  intros Hk. destruct (key_to_state !! key) as [st|] eqn:Hlookup.
  - exists st. eexists.
    split; [exact (menu_bound_key w key rest st Hk Hlookup)|]. cbn.
    repeat split; try done. lia.
  - exists MENU. eexists.
    split; [exact (menu_unbound_key w key rest Hk Hlookup)|]. cbn zeta.
    destruct (bool_decide (key ∈ ["+"; "="])); [|destruct (decide (key = "-"))];
      cbn; (repeat split; try done; try lia; by intros [? ?]).
Qed.

(** X9 — escape and ctrl-C always lead from the menu to the exit state,
    whatever the two control-key constants are, and the exit state yields
    no successor: the session ends. *)
Theorem menu_exit_keys (w : World) (key : string) (rest : list string) :
  keys w = key :: rest →
  key = ESC ∨ key = CTRL_C →
  ∃ w', handle_execution w = Ok (Some EXIT) w'
      ∧ cli w' = cli w
      ∧ ExitState.handle_execution w' = Ok None w'.
Proof.
  intros Hk Hkey. eexists. split.
  - apply (menu_bound_key w key rest EXIT Hk). by apply key_to_state_exit.
  - done.
Qed.

End MenuProperties.

Section MenuScenarios.
Import Fixture.

Lemma menu_always_continues_witness :
  ∃ w', MenuState.handle_execution (world0 ["e"; "x"]) = Ok (Some EXAMPLE) w'
      ∧ keys w' = ["x"]
      ∧ cli w' = cli0.
Proof.
  destruct (menu_always_continues (world0 ["e"; "x"]) "e" ["x"] eq_refl)
    as (st & w' & Hrun & Hkeys & _ & Hbound & _).
  destruct Hbound as [Hst Hcli]; [by eexists|].
  vm_compute in Hst. injection Hst as <-.
  exists w'. split; [exact Hrun|]. split; [exact Hkeys|exact Hcli].
Defined.

Lemma menu_exit_keys_witness :
  ∃ w', MenuState.handle_execution (world0 [CTRL_C]) = Ok (Some EXIT) w'
      ∧ ExitState.handle_execution w' = Ok None w'.
Proof.
  destruct (menu_exit_keys (world0 [CTRL_C]) CTRL_C [] eq_refl)
    as (w' & Hrun & _ & Hexit); [by right|].
  exists w'. split; [exact Hrun|exact Hexit].
Defined.

End MenuScenarios.

(** ** The agent turn, in full *)
Section AgentTurnTraceFacts.
Context `{AgentAPI}.
Import AgentTurnState.

Lemma live_env_enact (a : Z) (src : ActionSource) (w : World) :
  is_Some (heap w !! env (cli w)) →
  live_env (enact_world a src w) = env_step (live_env w) a
  ∧ is_Some (heap (enact_world a src w) !! env (cli (enact_world a src w))).
Proof.
  intros [e He]. unfold live_env. rewrite cli_enact_world.
  assert (heap (enact_world a src w)
          = alter (λ e, env_step e a) (env (cli w)) (heap w)) as ->
    by (unfold enact_world; by destruct (use_db (cli w))).
  rewrite !lookup_total_alt, lookup_alter, decide_True, He by done. cbn.
  split; [done|]. by eexists.
Qed.

Lemma while_loop_turn_trace (n : nat) :
  ∀ (fuel : nat) (w : World) rs (idx : Z),
    Z.to_nat (max_gen_length (agent (cli w)) - idx) = n →
    n < fuel →
    is_Some (heap w !! env (cli w)) →
    let acts := generated (agent (cli w)) n rs (live_env w) in
    ∃ w' : World,
      while_loop fuel loop_body (rs, idx) w = Ok tt w'
      ∧ applied w' = applied w ++ ((λ a, (a, AI)) <$> acts)
      ∧ live_env w' = foldl env_step (live_env w) acts
      ∧ term w' = term w ++ replicate (length acts) (Render MENU)
      ∧ cli w' = cli w ∧ keys w' = keys w ∧ calls w' = calls w
      ∧ saved w' = saved w.
Proof.
  induction n as [|n IH]; intros fuel w rs idx Hn Hfuel Hlive;
    (destruct fuel as [|fuel]; [lia|]); cbn [while_loop]; unfold bind at 1.
  - rewrite loop_body_done by lia. exists w. cbn.
    rewrite !app_nil_r. by repeat split.
  - rewrite loop_body_turn by lia. cbn zeta. cbn [generated].
    set (w1 := with_term (term w ++ [Render MENU]) w).
    destruct (get_action (agent (cli w)) rs (get_obs (live_env w)))
      as [rs' a] eqn:Hact. cbn [fst snd].
    assert (is_Some (heap w1 !! env (cli w1))) as Hlive1 by exact Hlive.
    destruct (live_env_enact a AI w1 Hlive1) as [Henv Hlive2].
    change (live_env w1) with (live_env w) in Henv.
    destruct (a =? eos_token (agent (cli w)))%Z eqn:Heos.
    + exists (enact_world a AI w1). cbn.
      rewrite applied_enact_world, cli_enact_world, keys_enact_world,
        calls_enact_world, Henv.
      repeat split; try done.
      * unfold enact_world. by destruct (use_db (cli w1)).
      * unfold enact_world. by destruct (use_db (cli w1)).
    + destruct (IH fuel (enact_world a AI w1) rs' (idx + 1)%Z)
        as (w' & Hrun & Happ & Hfold & Hterm & Hcli & Hkeys & Hcalls & Hsaved).
      { rewrite cli_enact_world. cbn. lia. }
      { lia. }
      { exact Hlive2. }
      cbn zeta in Happ, Hfold, Hterm.
      rewrite ?cli_enact_world, ?Henv in Happ, Hfold, Hterm.
      cbn [cli with_term] in Happ, Hfold, Hterm.
      exists w'. split; [exact Hrun|].
      rewrite Happ, Hfold, Hterm, Hcli, Hkeys, Hcalls, Hsaved.
      rewrite applied_enact_world, cli_enact_world, keys_enact_world,
        calls_enact_world.
      cbn. rewrite <- !app_assoc. repeat split; try done.
      * unfold enact_world. destruct (use_db (cli w1)); cbn;
          by rewrite <- app_assoc.
      * unfold enact_world. by destruct (use_db (cli w1)).
Qed.

End AgentTurnTraceFacts.

Section AgentTurnProperties.
Context `{AgentAPI}.
Import AgentTurnState.

(** X10 — a turn with a cap of zero or below does nothing at all: no
    redraw, no call of the agent, no action; the world is unchanged. *)
Theorem agent_turn_without_budget (w : World) (fuel : nat) :
  (max_gen_length (agent (cli w)) ≤ 0)%Z →
  handle_execution (S fuel) w = Ok (Some MENU) w.
Proof.
  intros Hcap. unfold handle_execution. unfold bind at 1.
  cbn [while_loop]. unfold bind at 1.
  by rewrite loop_body_done by lia.
Qed.

(** X11 — the actions of a turn are generated one from another: the first
    call of the agent receives no recurrent state, every later call
    receives the state returned by the call before it, and every call sees
    the workspace as the actions applied so far left it.  The turn redraws
    once per action, reads no key, invokes no other collaborator and
    leaves every field of [cli] as it was. *)
Theorem agent_turn_threads_state (w : World) (fuel : nat) :
  is_Some (heap w !! env (cli w)) →
  Z.to_nat (max_gen_length (agent (cli w))) < fuel →
  let acts := generated (agent (cli w))
                (Z.to_nat (max_gen_length (agent (cli w)))) None (live_env w) in
  ∃ w' : World,
    handle_execution fuel w = Ok (Some MENU) w'
    ∧ applied w' = applied w ++ ((λ a, (a, AI)) <$> acts)
    ∧ live_env w' = foldl env_step (live_env w) acts
    ∧ term w' = term w ++ replicate (length acts) (Render MENU)
    ∧ cli w' = cli w ∧ keys w' = keys w ∧ calls w' = calls w
    ∧ saved w' = saved w.
Proof.
  intros Hlive Hfuel acts.
  destruct (while_loop_turn_trace (Z.to_nat (max_gen_length (agent (cli w))))
              fuel w None 0%Z) as (w' & Hrun & Hrest);
    [f_equal; lia|done|done|].
  exists w'. split; [|exact Hrest].
  unfold handle_execution, bind. by rewrite Hrun.
Qed.

End AgentTurnProperties.

Section AgentTurnScenarios.
Import Fixture.

Lemma agent_turn_without_budget_witness :
  AgentTurnState.handle_execution 1 Scenarios.no_budget
  = Ok (Some MENU) Scenarios.no_budget.
Proof.
  apply (agent_turn_without_budget Scenarios.no_budget 0). by vm_compute.
Defined.

Lemma agent_turn_threads_state_witness :
  ∃ w', AgentTurnState.handle_execution 5 (world0 [])
        = Ok (Some MENU) w'
      ∧ applied w' = [(7, AI); (8, AI); (9, AI)]%Z
      ∧ live_env w' = ("", [7; 8; 9]%Z).
Proof.
  destruct (agent_turn_threads_state (world0 []) 5)
    as (w' & Hrun & Happ & Henv & _);
    [by eexists|vm_compute; lia|].
  exists w'. split; [exact Hrun|]. split; [exact Happ|exact Henv].
Defined.

End AgentTurnScenarios.

(** ** Automatic solving, with an instruction *)
Section AutoSolveProperties.
Context `{AgentAPI} `{!Tokenizer} `{!Services}.
Import AutoSolveState.

Lemma for_each_enact_render (l : list Z) :
  ∀ w : World,
    is_Some (heap w !! env (cli w)) →
    ∃ w' : World,
      for_each l (λ action, _env_enact action AI ;;; _render) w = Ok tt w'
      ∧ applied w' = applied w ++ ((λ a, (a, AI)) <$> l)
      ∧ live_env w' = foldl env_step (live_env w) l
      ∧ term w' = term w ++ replicate (length l) (Render AUTO_SOLVE)
      ∧ cli w' = cli w ∧ keys w' = keys w ∧ calls w' = calls w
      ∧ saved w' = saved w.
Proof.
  induction l as [|a l IH]; intros w Hlive.
  - exists w. cbn. rewrite !app_nil_r. by repeat split.
  - destruct (live_env_enact a AI w Hlive) as [Henv Hlive1].
    set (w1 := with_term (term (enact_world a AI w) ++ [Render AUTO_SOLVE])
                 (enact_world a AI w)).
    destruct (IH w1 Hlive1)
      as (w' & Hrun & Happ & Hfold & Hterm & Hcli & Hkeys & Hcalls & Hsaved).
    exists w'. split.
    { cbn [for_each]. unfold bind at 1. unfold bind at 1.
      unfold _env_enact at 1, _render at 1, term_op at 1, modify. exact Hrun. }
    rewrite Happ, Hfold, Hterm, Hcli, Hkeys, Hcalls, Hsaved.
    change (live_env w1) with (live_env (enact_world a AI w)).
    rewrite Henv. cbn.
    rewrite applied_enact_world, cli_enact_world, keys_enact_world,
      calls_enact_world, <- !app_assoc.
    repeat split; try done.
    + unfold enact_world. by destruct (use_db (cli w)).
    + unfold enact_world. by destruct (use_db (cli w)).
Qed.

(** X12 — with an instruction that is not blank, the generator is invoked
    exactly once, on the instruction, code and output of the workspace as
    it was on entry; the edit actions are computed once, from the code and
    the cursor of that same workspace, and are then applied in order as
    the AI, with one redraw on entry and one after each action.  No key is
    read, no field of [cli] changes and the state returns to the menu. *)
Theorem auto_solve_applies_diff (w : World) :
  all_whitespace (get_env_instruction (live_env w)) = false →
  is_Some (heap w !! env (cli w)) →
  let instruction := get_env_instruction (live_env w) in
  let code := get_env_code (live_env w) in
  let exec_output := get_env_exec_output (live_env w) in
  let actions :=
    get_actions_from_diff (get_dict_obs_code (live_env w))
      (encode (generate_solution instruction code exec_output))
      (cursor_pos (live_env w)) in
  ∃ w' : World,
    handle_execution w = Ok (Some MENU) w'
    ∧ calls w' = calls w ++ [GenerateSolution instruction code exec_output]
    ∧ applied w' = applied w ++ ((λ a, (a, AI)) <$> actions)
    ∧ live_env w' = foldl env_step (live_env w) actions
    ∧ term w' = term w ++ replicate (S (length actions)) (Render AUTO_SOLVE)
    ∧ cli w' = cli w ∧ keys w' = keys w ∧ saved w' = saved w.
Proof.
  intros Hblank Hlive instruction code exec_output actions.
  set (w1 := with_calls
               (calls w ++ [GenerateSolution instruction code exec_output])
               (with_term (term w ++ [Render AUTO_SOLVE]) w)).
  destruct (for_each_enact_render actions w1 Hlive)
    as (w' & Hrun & Happ & Hfold & Hterm & Hcli & Hkeys & Hcalls & Hsaved).
  exists w'. split.
  - unfold handle_execution, _render at 1.
    unfold bind at 1, term_op at 1, modify at 1.
    unfold bind at 1, gets at 1.
    change (live_env (with_term (term w ++ [Render AUTO_SOLVE]) w))
      with (live_env w).
    destruct (String.eqb_spec (strip (get_env_instruction (live_env w))) "")
      as [Hstrip|_].
    { apply strip_empty_iff in Hstrip. congruence. }
    unfold bind at 1, gets at 1. unfold bind at 1, gets at 1.
    unfold bind at 1, record_call at 1, modify at 1.
    unfold bind at 1, gets at 1. unfold bind at 1, gets at 1.
    unfold bind at 1.
    match goal with
    | |- context [for_each ?l ?f ?x] =>
        change (for_each l f x)
          with (for_each actions
                  (λ action, _env_enact action AI ;;; _render) w1)
    end.
    by rewrite Hrun.
  - rewrite Happ, Hfold, Hterm, Hcli, Hkeys, Hcalls, Hsaved. cbn.
    rewrite <- app_assoc. by repeat split.
Qed.

End AutoSolveProperties.

Section AutoSolveScenarios.
Import Fixture.

Lemma auto_solve_applies_diff_witness :
  let _ := services None [] in
  ∃ w', AutoSolveState.handle_execution Scenarios.edited_then_logged
        = Ok (Some MENU) w'
      ∧ calls w' = [GenerateSolution "demo" "" ""]
      ∧ applied w' = (λ a, (a, AI)) <$> encode "x"
      ∧ keys w' = [].
Proof.
  intros S.
  destruct (auto_solve_applies_diff Scenarios.edited_then_logged)
    as (w' & Hrun & Hcalls & Happ & _ & _ & _ & Hkeys & _);
    [by vm_compute|by eexists|].
  exists w'. split; [exact Hrun|]. split; [exact Hcalls|].
  split; [exact Happ|exact Hkeys].
Defined.

End AutoSolveScenarios.

(** ** Training, as a state and over a growing log *)
Section TrainProperties.
Context `{AgentAPI}.
Import TrainState.

Lemma train_agent_frame (w : World) :
  ∃ w', train_agent w = Ok tt w'
      ∧ term w' = term w ∧ keys w' = keys w ∧ db w' = db w
      ∧ applied w' = applied w ∧ saved w' = saved w ∧ rng w' = rng w
      ∧ env (cli w') = env (cli w)
      ∧ (entries_after w = [] → w' = w)
      ∧ (entries_after w ≠ [] →
         ∃ ids, calls w' = calls w ++ [TrainOnActions (last_trained_env (cli w)) ids]
              ∧ ids ≠ []).
Proof.
  destruct (entries_after w) as [|first rest] eqn:Hact.
  - exists w. rewrite train_agent_none by done. by repeat split.
  - eexists. rewrite (train_agent_some w first rest Hact). cbn.
    repeat split; try done. intros _. by eexists.
Qed.

(** X13 — the training state always comes back to the menu: it clears the
    screen, trains, prints the completion banner and only then waits for a
    key, whether or not there was anything to train on.  Training is done
    before the key is awaited (with no key pending the state is blocked
    with the training already done and the banner shown), exactly one key
    is consumed, and neither the log nor the live workspace reference is
    touched. *)
Theorem train_state_trains_before_waiting (w : World) :
  ∃ w1 : World,
    train_agent (with_term (term w ++ [Clear; Refresh]) w) = Ok tt w1
    ∧ (let shown :=
         with_term (term w ++ [Clear; Refresh; Print "";
                      Print (str_repeat "=" 40);
                      Print "";
                      Print "Training complete, press any key to return to the menu..."])
           w1 in
       handle_execution w
       = match keys w with
         | [] => Blocked shown
         | _ :: rest => Ok (Some MENU) (with_keys rest shown)
         end)
    ∧ keys w1 = keys w ∧ db w1 = db w ∧ applied w1 = applied w
    ∧ saved w1 = saved w ∧ env (cli w1) = env (cli w)
    ∧ (entries_after w = [] → calls w1 = calls w ∧ cli w1 = cli w)
    ∧ (entries_after w ≠ [] →
       ∃ ids, calls w1
              = calls w ++ [TrainOnActions (last_trained_env (cli w)) ids]).
Proof.
  destruct (train_agent_frame (with_term (term w ++ [Clear; Refresh]) w))
    as (w1 & Hrun & Hterm & Hkeys & Hdb & Happ & Hsaved & _ & Henv
        & Hnone & Hsome).
  exists w1. split; [exact Hrun|]. split.
  - unfold handle_execution.
    unfold bind at 1, term_op at 1, modify at 1.
    unfold bind at 1, term_op at 1, modify at 1.
    unfold bind at 1.
    match goal with
    | |- context [train_agent ?x] =>
        assert (x = with_term (term w ++ [Clear; Refresh]) w) as ->
          by (apply world_eq; cbn; rewrite <- ?app_assoc; done)
    end.
    rewrite Hrun.
    unfold getch. unfold bind, term_op, modify, getkey, ret.
    cbn -[str_repeat]. rewrite Hkeys. cbn -[str_repeat].
    rewrite Hterm. cbn -[str_repeat].
    destruct (keys w); same_world.
  - split; [exact Hkeys|]. split; [exact Hdb|]. split; [exact Happ|].
    split; [exact Hsaved|]. split; [exact Henv|]. split.
    + intros Hnothing. by rewrite (Hnone Hnothing).
    + intros Hne. destruct (Hsome Hne) as (ids & Hcalls & _). by exists ids.
Qed.

Lemma filter_none_above {A} (p : A → bool) (l : list A) :
  (∀ x, x ∈ l → p x = false) → List.filter p l = [].
Proof.
  induction l as [|a l IH]; intros Hall; [done|]. cbn.
  rewrite (Hall a) by apply list_elem_of_here.
  apply IH. intros x Hx. apply Hall. by apply list_elem_of_further.
Qed.

Lemma filter_all_above {A} (p : A → bool) (l : list A) :
  (∀ x, x ∈ l → p x = true) → List.filter p l = l.
Proof.
  induction l as [|a l IH]; intros Hall; [done|]. cbn.
  rewrite (Hall a) by apply list_elem_of_here. f_equal.
  apply IH. intros x Hx. apply Hall. by apply list_elem_of_further.
Qed.

Lemma sorted_app_inv (l1 l2 : list ActionLogEntry) :
  StronglySorted by_sequence_id (l1 ++ l2) →
  StronglySorted by_sequence_id l1
  ∧ ∀ x y, x ∈ l1 → y ∈ l2 → by_sequence_id x y.
Proof.
  induction l1 as [|a l1 IH]; cbn; intros Hs.
  - split; [constructor|]. intros x y Hx. by apply elem_of_nil in Hx.
  - apply StronglySorted_inv in Hs as [Hs Hall].
    destruct (IH Hs) as [Hl1 Hcross]. split.
    + constructor; [done|]. apply Forall_app in Hall. by destruct Hall.
    + intros x y Hx Hy. apply elem_of_cons in Hx as [->|Hx].
      * rewrite Forall_forall in Hall. apply Hall.
        apply elem_of_app. by right.
      * by apply Hcross.
Qed.

(** X14 — over a log that grows by appending rows with increasing
    sequence ids, two training calls, one before and one after the rows
    [new] arrive, replay every row after the original marker exactly once
    and in log order: nothing is skipped and nothing is replayed twice.
    When the first call had rows to replay, the second call replays
    exactly the new rows. *)
Theorem train_covers_each_row_once (w : World) (new : list ActionLogEntry) :
  StronglySorted by_sequence_id (db w ++ new) →
  ∃ w1 : World,
    train_agent w = Ok tt w1
    ∧ entries_after w ++ entries_after (with_db (db w ++ new) w1)
      = List.filter (λ e, (last_trained_step (cli w) <? sequence_id e)%Z)
          (db w ++ new)
    ∧ (entries_after w ≠ [] →
       entries_after (with_db (db w ++ new) w1) = new).
Proof.
  intros Hsorted.
  destruct (entries_after w) as [|first rest] eqn:Hact.
  - exists w. split; [by apply train_agent_none|]. split; [|done].
    unfold entries_after, get_actions_since_action_id in *. cbn.
    by rewrite List.filter_app.
  - eexists. split; [exact (train_agent_some w first rest Hact)|].
    set (z := default first (last (first :: rest))).
    assert (In z (entries_after w)) as Hz
      by (rewrite Hact; apply default_last_In).
    pose proof (entries_after_gt w z Hz) as Hgt.
    assert (z ∈ db w) as Hzdb.
    { apply list_elem_of_In. unfold entries_after,
        get_actions_since_action_id in Hz.
      by apply List.filter_In in Hz as [? _]. }
    assert (∀ x, x ∈ new → (sequence_id z < sequence_id x)%Z) as Hnew.
    { intros x Hx. exact (proj2 (sorted_app_inv _ _ Hsorted) z x Hzdb Hx). }
    assert (StronglySorted by_sequence_id (db w)) as Hdb
      by exact (proj1 (sorted_app_inv _ _ Hsorted)).
    assert (∀ x, x ∈ db w → (sequence_id x ≤ sequence_id z)%Z) as Hold.
    { intros x Hx.
      destruct (Z.ltb_spec (last_trained_step (cli w)) (sequence_id x))
        as [Hlt|Hle]; [|lia].
      apply (sorted_last_max (entries_after w) z).
      - by apply sorted_filter.
      - rewrite Hact. unfold z.
        destruct (last (first :: rest)) eqn:Hlast; [done|].
        by apply last_None in Hlast.
      - unfold entries_after, get_actions_since_action_id.
        apply List.filter_In. split; [by apply list_elem_of_In|].
        by apply Z.ltb_lt. }
    assert (∀ w1 : World,
              last_trained_step (cli w1) = sequence_id z →
              entries_after (with_db (db w ++ new) w1) = new) as Hsecond.
    { intros w1 Hmarker.
      unfold entries_after, get_actions_since_action_id. cbn.
      rewrite Hmarker.
      rewrite List.filter_app, filter_none_above, filter_all_above; [done|..].
      - intros x Hx. apply Z.ltb_lt. by apply Hnew.
      - intros x Hx. apply Z.ltb_ge. by apply Hold. }
    cbn zeta. rewrite Hsecond by done. split; [|done].
    rewrite List.filter_app. f_equal; [by rewrite <- Hact|].
    symmetry. apply filter_all_above. intros x Hx. apply Z.ltb_lt.
    specialize (Hnew x Hx). lia.
Qed.

End TrainProperties.

Section TrainScenarios.
Import Fixture.

Lemma train_covers_each_row_once_witness :
  let later := {| sequence_id := 2; payload := PAction 6;
                  action_kind := ACTION; source := AI |} in
  ∃ w1, TrainState.train_agent Scenarios.edited_then_logged = Ok tt w1
      ∧ entries_after (with_db [Scenarios.logged_action; later] w1) = [later].
Proof.
  intros later.
  destruct (train_covers_each_row_once Scenarios.edited_then_logged [later])
    as (w1 & Hrun & _ & Hnew).
  - repeat constructor.
  - exists w1. split; [exact Hrun|]. by apply Hnew.
Defined.

End TrainScenarios.

(** ** Saving, visit after visit *)
Section SaveModelProperties.
Context `{AgentAPI} `{!Services}.
Import SaveModelState.

Lemma save_visit (w w' : World) (st : option StateId) :
  truthy (model_save_dir (cli w)) = true →
  handle_execution w = Ok st w' →
  (∃ c, calls w' = calls w ++ GetTextInput (offered_default w) :: c)
  ∧ rng w' = (if truthy (loaded_model_name (cli w)) then rng w
              else drop 6 (rng w))
  ∧ model_save_dir (cli w') = model_save_dir (cli w).
Proof.
  intros Hdir.
  destruct (get_text_input (offered_default w)) as [name|] eqn:Hinput.
  - destruct (keys w) as [|k rest] eqn:Hk.
    + rewrite (save_prompt w Hdir), Hinput.
      unfold agent_save, getch, record_call, update_cli.
      unfold bind, term_op, modify, getkey, ret.
      destruct (String.eqb name ""); cbn; rewrite Hk; discriminate.
    + destruct (decide (name = "")) as [->|Hname].
      * rewrite (save_unnamed w k rest Hdir Hinput Hk). intros [= <- <-].
        cbn. split; [by exists []|done].
      * rewrite (save_named w k name rest Hdir Hinput Hname Hk).
        intros [= <- <-]. cbn. split; [|done].
        rewrite <- app_assoc. by eexists.
  - rewrite (save_cancelled w Hdir Hinput). intros [= <- <-].
    cbn. split; [by exists []|done].
Qed.

(** X15 — after a model was saved under a name, the next visit to the save
    state offers exactly that name: whatever the user answers then, the
    prompt is opened with the saved name as its default, no random
    identifier is drawn, and the save directory is still the same. *)
Theorem save_offers_saved_name_next
    (w : World) (k name : string) (rest : list string) :
  truthy (model_save_dir (cli w)) = true →
  get_text_input (offered_default w) = Some name →
  name ≠ "" →
  keys w = k :: rest →
  ∃ w1 : World,
    handle_execution w = Ok (Some MENU) w1
    ∧ offered_default w1 = name
    ∧ ∀ (st : option StateId) (w2 : World),
        handle_execution w1 = Ok st w2 →
        (∃ c, calls w2 = calls w1 ++ GetTextInput name :: c)
        ∧ rng w2 = rng w1.
Proof.
  intros Hdir Hinput Hname Hk. eexists.
  split; [exact (save_named w k name rest Hdir Hinput Hname Hk)|].
  assert (truthy (Some name) = true) as Htruthy.
  { cbn. apply String.eqb_neq in Hname. by rewrite Hname. }
  match goal with
  | |- offered_default ?x = _ ∧ _ =>
      assert (loaded_model_name (cli x) = Some name) as Hloaded by done;
      assert (model_save_dir (cli x) = model_save_dir (cli w)) as Hsame
        by done;
      generalize dependent x
  end.
  intros w1 Hloaded Hsame.
  assert (offered_default w1 = name) as Hoffer.
  { unfold offered_default. by rewrite Hloaded, Htruthy. }
  split; [exact Hoffer|]. intros st w2 Hrun.
  apply save_visit in Hrun as (Hcalls & Hrng & _); [|by rewrite Hsame].
  rewrite Hoffer in Hcalls. rewrite Hloaded, Htruthy in Hrng. done.
Qed.

(** X16 — an empty answer saves nothing, and the identifier that was
    offered is not kept: with no model loaded, the re-prompt that follows
    draws a new identifier from the next six draws of the generator. *)
Theorem save_reprompt_draws_again
    (w : World) (k : string) (rest : list string) :
  truthy (model_save_dir (cli w)) = true →
  truthy (loaded_model_name (cli w)) = false →
  get_text_input (offered_default w) = Some "" →
  keys w = k :: rest →
  ∃ w1 : World,
    handle_execution w = Ok (Some SAVE_MODEL) w1
    ∧ saved w1 = saved w ∧ cli w1 = cli w ∧ keys w1 = rest
    ∧ rng w1 = drop 6 (rng w)
    ∧ offered_default w
      = "model_" +:+ string_of_list_ascii (pick_chars alphabet 6 (rng w))
    ∧ offered_default w1
      = "model_" +:+ string_of_list_ascii
                       (pick_chars alphabet 6 (drop 6 (rng w))).
Proof.
  intros Hdir Hnone Hinput Hk. eexists.
  split; [exact (save_unnamed w k rest Hdir Hinput Hk)|].
  unfold offered_default. cbn. by rewrite Hnone.
Qed.

End SaveModelProperties.

Section SaveModelScenarios.
Import Fixture.

Lemma save_offers_saved_name_next_witness :
  let _ := services (Some "m1") [] in
  ∃ w1, SaveModelState.handle_execution (world0 ["k"]) = Ok (Some MENU) w1
      ∧ offered_default w1 = "m1".
Proof.
  intros S.
  destruct (save_offers_saved_name_next (world0 ["k"]) "k" "m1" [])
    as (w1 & Hrun & Hoffer & _); [reflexivity|reflexivity|done|reflexivity|].
  exists w1. split; [exact Hrun|exact Hoffer].
Defined.

Lemma save_reprompt_draws_again_witness :
  let _ := services (Some "") [] in
  ∃ w1, SaveModelState.handle_execution
          (with_rng [3; 40; 0; 35; 26; 7; 1; 2; 3; 4; 5; 6]%nat (world0 ["k"]))
        = Ok (Some SAVE_MODEL) w1
      ∧ offered_default
          (with_rng [3; 40; 0; 35; 26; 7; 1; 2; 3; 4; 5; 6]%nat (world0 ["k"]))
        = "model_dea90h"
      ∧ offered_default w1 = "model_bcdefg".
Proof.
  intros S.
  destruct (save_reprompt_draws_again
              (with_rng [3; 40; 0; 35; 26; 7; 1; 2; 3; 4; 5; 6]%nat
                 (world0 ["k"])) "k" [])
    as (w1 & Hrun & _ & _ & _ & _ & Hfirst & Hsecond);
    [reflexivity|reflexivity|reflexivity|reflexivity|].
  exists w1. split; [exact Hrun|]. split; [exact Hfirst|exact Hsecond].
Defined.

End SaveModelScenarios.

(** ** Loading, around the loop *)
Section LoadModelRunFacts.
Context `{AgentAPI} `{!Services}.
Import LoadModelState.

Lemma load_one_frame (dir m : string) (w w' : World) :
  load_one dir m w = Ok tt w' →
  model_save_dir (cli w') = model_save_dir (cli w)
  ∧ rng w' = rng w ∧ saved w' = saved w ∧ applied w' = applied w
  ∧ heap w' = heap w ∧ db w' = db w.
Proof.
  destruct (agent_load (agent (cli w)) (os_path_join dir m)).2
    as [e|] eqn:Hr.
  - destruct (keys w) as [|k rest] eqn:Hk.
    + unfold load_one, load, update_cli, record_call, getch.
      unfold bind, term_op, modify, gets, getkey. cbn.
      destruct (agent_load (agent (cli w)) (os_path_join dir m)) as [ag r].
      cbn in Hr. subst r. cbn. rewrite Hk. discriminate.
    + rewrite (load_one_failed dir m w e k rest Hr Hk). by intros [= <-].
  - rewrite (load_one_ok dir m w Hr). by intros [= <-].
Qed.

Lemma for_each_load_frame (dir : string) (selected : list string) :
  ∀ w w' : World,
    for_each selected (load_one dir) w = Ok tt w' →
    model_save_dir (cli w') = model_save_dir (cli w)
    ∧ rng w' = rng w ∧ saved w' = saved w ∧ applied w' = applied w
    ∧ heap w' = heap w ∧ db w' = db w.
Proof.
  induction selected as [|m ms IH]; intros w w'; cbn [for_each].
  - by intros [= <-].
  - unfold bind at 1.
    destruct (load_one dir m w) as [[] w1| |] eqn:Hone; [|done..].
    intros Hrest. apply load_one_frame in Hone. apply IH in Hrest.
    destruct Hone as (E1 & E2 & E3 & E4 & E5 & E6).
    destruct Hrest as (F1 & F2 & F3 & F4 & F5 & F6).
    repeat split; congruence.
Qed.

Lemma load_run (w w1 : World) (dir first k : string)
    (others rest : list string) :
  model_save_dir (cli w) = Some dir →
  dir ≠ "" →
  let model_files :=
    List.filter (λ f, isdir (os_path_join dir f)) (listdir dir) in
  select_from_list model_files "Select model to load:" = first :: others →
  model_files ≠ [] →
  for_each (first :: others) (load_one dir) w = Ok tt w1 →
  keys w1 = k :: rest →
  handle_execution w
  = Ok (Some MENU)
       (with_keys rest
          (with_term (term w1 ++ closing_view (first :: others)) w1)).
Proof.
  intros Hdir Hne model_files Hsel Hfiles Hrun Hk1.
  assert (truthy (Some dir) = true) as Htruthy.
  { cbn. apply String.eqb_neq in Hne. by rewrite Hne. }
  unfold handle_execution. unfold bind at 1. cbn [gets].
  rewrite Hdir, Htruthy. cbn [negb default from_option id].
  subst model_files.
  destruct (List.filter _ (listdir dir)) as [|f fs] eqn:Hmf; [done|].
  rewrite Hsel. unfold bind at 1. rewrite Hrun.
  unfold getch. unfold bind, term_op, modify, getkey, ret. cbn.
  rewrite Hk1. destruct others; same_world.
Qed.

End LoadModelRunFacts.

Section LoadModelProperties.
Context `{AgentAPI} `{!Services}.
Import LoadModelState.

(** X17 — when there is nothing to load from, nothing is loaded: without a
    configured directory, or with a directory that holds no model
    directory, the state shows its notice, waits for one key and returns
    to the menu; when the user selects nothing in the selection dialog, it
    returns to the menu at once: the handler itself draws nothing and
    reads no key.  In all three cases [cli.agent.load] is not called and
    the session is unchanged. *)
Theorem load_without_selection (w : World) (k : string) (rest : list string) :
  keys w = k :: rest →
  let dir := default "" (model_save_dir (cli w)) in
  let model_files :=
    List.filter (λ f, isdir (os_path_join dir f)) (listdir dir) in
  let notice msg :=
    with_keys rest
      (with_term (term w ++ [Clear; AddStr 0 0 msg;
                    AddStr 2 0 "Press any key to continue..."; Refresh]) w) in
  (truthy (model_save_dir (cli w)) = false →
   handle_execution w
   = Ok (Some MENU) (notice "Error: model_save_dir not set in config"))
  ∧ (truthy (model_save_dir (cli w)) = true → model_files = [] →
     handle_execution w = Ok (Some MENU) (notice "No saved models found."))
  ∧ (truthy (model_save_dir (cli w)) = true → model_files ≠ [] →
     select_from_list model_files "Select model to load:" = [] →
     handle_execution w = Ok (Some MENU) w).
Proof.
  intros Hk dir model_files notice. repeat split.
  - intros Hdir. unfold handle_execution. unfold bind at 1. cbn [gets].
    rewrite Hdir. cbn [negb].
    unfold getch. unfold bind, term_op, modify, getkey, ret. cbn.
    rewrite Hk. subst notice. same_world.
  - intros Hdir Hfiles. unfold handle_execution. unfold bind at 1.
    cbn [gets]. rewrite Hdir. cbn [negb]. fold dir. fold model_files.
    rewrite Hfiles.
    unfold getch. unfold bind, term_op, modify, getkey, ret. cbn.
    rewrite Hk. subst notice. same_world.
  - intros Hdir Hfiles Hsel. unfold handle_execution. unfold bind at 1.
    cbn [gets]. rewrite Hdir. cbn [negb]. fold dir. fold model_files.
    destruct model_files as [|f fs] eqn:Hmf; [done|]. by rewrite Hsel.
Qed.

(** X18 — the closing view reports the selection, not the outcome: after
    the loop the screen is cleared and the message names the only selected
    model, or counts the selected models, whether or not their loads
    raised.  The state reads one key for every load that raised and one
    for the closing view, and touches neither the workspace, the log, the
    saved models nor the random generator. *)
Theorem load_closing_view_reports_selection
    (w : World) (dir first : string) (others : list string) :
  model_save_dir (cli w) = Some dir →
  dir ≠ "" →
  let model_files :=
    List.filter (λ f, isdir (os_path_join dir f)) (listdir dir) in
  model_files ≠ [] →
  select_from_list model_files "Select model to load:" = first :: others →
  let selected := first :: others in
  let failures :=
    length (List.filter load_failed
              (load_outcomes (agent (cli w)) dir selected)) in
  failures < length (keys w) →
  ∃ (w' : World) (shown : list TermOp),
    handle_execution w = Ok (Some MENU) w'
    ∧ term w' = term w ++ shown ++ closing_view selected
    ∧ keys w' = drop (S failures) (keys w)
    ∧ heap w' = heap w ∧ db w' = db w ∧ applied w' = applied w
    ∧ saved w' = saved w ∧ rng w' = rng w.
Proof.
  intros Hdir Hne model_files Hfiles Hsel selected failures Hkeys.
  destruct (for_each_load dir selected w)
    as (w1 & t & Hrun & _ & _ & Hterm & _ & Hks).
  { exact (Nat.lt_le_incl _ _ Hkeys). }
  cbn zeta in Hks. fold failures in Hks.
  assert (∃ k rest, keys w1 = k :: rest) as (k & rest & Hk1).
  { rewrite Hks. destruct (drop failures (keys w)) as [|k rest] eqn:Hdrop;
      [|by eauto].
    apply (f_equal length) in Hdrop. rewrite length_drop in Hdrop.
    change (length (@nil string)) with 0 in Hdrop. lia. }
  destruct (for_each_load_frame dir selected w w1 Hrun)
    as (_ & Hrng & Hsaved & Happ & Hheap & Hdb).
  eexists. exists t. split.
  - exact (load_run w w1 dir first k others rest Hdir Hne Hsel Hfiles
             Hrun Hk1).
  - assert (drop (S failures) (keys w) = rest) as ->.
    { replace (S failures) with (failures + 1) by lia.
      by rewrite <- drop_drop, <- Hks, Hk1. }
    cbn. rewrite Hterm, <- app_assoc. by repeat split.
Qed.

End LoadModelProperties.

Section LoadSaveProperties.
Context `{AgentAPI} `{!Services}.

(** X19 — loading and saving agree on the name: after a visit to the load
    state in which the last load that returned was that of model [m], a
    visit to the save state opens its prompt with [m] as the default,
    whatever the user answers there, and draws no random identifier. *)
Theorem load_then_save_offers_loaded_name
    (w : World) (dir m first : string) (others : list string)
    (pre post : list (string * option Exn)) :
  model_save_dir (cli w) = Some dir →
  dir ≠ "" →
  let model_files :=
    List.filter (λ f, isdir (os_path_join dir f)) (listdir dir) in
  model_files ≠ [] →
  select_from_list model_files "Select model to load:" = first :: others →
  load_outcomes (agent (cli w)) dir (first :: others)
  = pre ++ (m, None) :: post →
  Forall (λ o, load_failed o = true) post →
  m ≠ "" →
  length (List.filter load_failed (pre ++ (m, None) :: post))
  < length (keys w) →
  ∃ w1 : World,
    LoadModelState.handle_execution w = Ok (Some MENU) w1
    ∧ offered_default w1 = m
    ∧ ∀ (st : option StateId) (w2 : World),
        SaveModelState.handle_execution w1 = Ok st w2 →
        (∃ c, calls w2 = calls w1 ++ GetTextInput m :: c)
        ∧ rng w2 = rng w.
Proof.
  intros Hdir Hne model_files Hfiles Hsel Hout Hpost Hm Hkeys.
  destruct (for_each_load dir (first :: others) w)
    as (w1 & t & Hrun & _ & Hname & _ & _ & Hks).
  { cbn zeta. rewrite Hout. exact (Nat.lt_le_incl _ _ Hkeys). }
  cbn zeta in Hname, Hks. rewrite Hout in Hname, Hks.
  rewrite (remembered_last_success _ pre m post Hpost) in Hname.
  assert (∃ k rest, keys w1 = k :: rest) as (k & rest & Hk1).
  { rewrite Hks.
    destruct (drop _ (keys w)) as [|k rest] eqn:Hdrop; [|by eauto].
    apply (f_equal length) in Hdrop. rewrite length_drop in Hdrop.
    change (length (@nil string)) with 0 in Hdrop. lia. }
  destruct (for_each_load_frame dir (first :: others) w w1 Hrun)
    as (Hsame & Hrng & _).
  assert (truthy (Some m) = true) as Htruthy.
  { cbn. apply String.eqb_neq in Hm. by rewrite Hm. }
  assert (truthy (Some dir) = true) as Hdirset.
  { cbn. apply String.eqb_neq in Hne. by rewrite Hne. }
  eexists. split.
  - exact (load_run w w1 dir first k others rest Hdir Hne Hsel Hfiles
             Hrun Hk1).
  - match goal with
    | |- offered_default ?x = _ ∧ _ =>
        assert (loaded_model_name (cli x) = Some m) as Hloaded
          by exact Hname;
        assert (model_save_dir (cli x) = Some dir) as Hdir1
          by (rewrite <- Hdir; exact Hsame);
        assert (rng x = rng w) as Hrng1 by exact Hrng;
        generalize dependent x
    end.
    intros w2 Hloaded Hdir1 Hrng1.
    assert (offered_default w2 = m) as Hoffer.
    { unfold offered_default. by rewrite Hloaded, Htruthy. }
    split; [exact Hoffer|]. intros st w3 Hsave.
    apply save_visit in Hsave as (Hcalls & Hrng3 & _);
      [|by rewrite Hdir1].
    rewrite Hoffer in Hcalls. rewrite Hloaded, Htruthy in Hrng3.
    split; [exact Hcalls|]. by rewrite Hrng3.
Qed.

End LoadSaveProperties.

Section LoadModelScenarios.
Import Fixture.

Lemma load_without_selection_witness :
  let _ := services None [] in
  LoadModelState.handle_execution (world0 ["k"])
  = Ok (Some MENU) (world0 ["k"]).
Proof.
  intros S.
  apply (load_without_selection (world0 ["k"]) "k" [] eq_refl);
    [reflexivity|done|reflexivity].
Defined.

Lemma load_closing_view_reports_selection_witness :
  let _ := services None ["broken"] in
  ∃ w' shown,
    LoadModelState.handle_execution (world0 ["k"; "k"; "x"]) = Ok (Some MENU) w'
    ∧ term w'
      = shown ++ [Clear; AddStr 0 0 "Model 'broken' loaded!";
                  AddStr 2 0 "Press any key to continue..."; Refresh]
    ∧ keys w' = ["x"].
Proof.
  intros S.
  destruct (load_closing_view_reports_selection (world0 ["k"; "k"; "x"])
              "models" "broken" [])
    as (w' & shown & Hrun & Hterm & Hkeys & _);
    [reflexivity|done|done|reflexivity|vm_compute; lia|].
  exists w', shown. split; [exact Hrun|]. split; [exact Hterm|exact Hkeys].
Defined.

Lemma load_then_save_offers_loaded_name_witness :
  let _ := services None ["a"; "broken"] in
  ∃ w1, LoadModelState.handle_execution (world0 ["k"; "k"]) = Ok (Some MENU) w1
      ∧ offered_default w1 = "a".
Proof.
  intros S.
  destruct (load_then_save_offers_loaded_name (world0 ["k"; "k"])
              "models" "a" "a" ["broken"] [] [("broken", Some broken_exn)])
    as (w1 & Hrun & Hoffer & _);
    [reflexivity|done|done|reflexivity|reflexivity
    |by repeat constructor|done|vm_compute; lia|].
  exists w1. split; [exact Hrun|exact Hoffer].
Defined.

End LoadModelScenarios.

(** ** Evaluation, around the loop *)
Section EvalRunFacts.
Context `{AgentAPI} `{!Services}.
Import EvalState.

Lemma for_fold_eval_frame (path : string) (items : list string) :
  ∀ (d r : Results) (w w' : World),
    for_fold items (eval_one path) d w = Ok r w' →
    heap w' = heap w ∧ db w' = db w ∧ applied w' = applied w
    ∧ saved w' = saved w ∧ rng w' = rng w
    ∧ ∀ a, set_agent a (cli w') = set_agent a (cli w).
Proof.
  induction items as [|item items IH]; intros d r w w'; cbn [for_fold].
  - by intros [= _ <-].
  - unfold bind at 1. rewrite eval_one_eq. cbn zeta. intros Hrest.
    apply IH in Hrest. cbn in Hrest. exact Hrest.
Qed.

Lemma eval_run (w : World) (path k first : string)
    (others rest : list string) :
  eval_data_path (cli w) = Some path →
  path ≠ "" →
  path_exists path = true →
  let eval_items :=
    List.filter (λ f, path_exists (os_path_join path f)) (listdir path) in
  eval_items ≠ [] →
  select_multiple_from_list eval_items "Select evals to run:"
  = first :: others →
  keys w = k :: rest →
  let selected := first :: others in
  let outcomes := eval_outcomes (agent (cli w)) path selected in
  ∃ w1 : World,
    handle_execution w
    = Ok (Some MENU)
         (with_keys rest
            (with_term
               (term w ++ [Clear; Refresh; SaveTty; ResetShellMode]
                  ++ concat (eval_banner <$> selected)
                  ++ [ResetTty; Clear]
                  ++ concat (result_section <$> collected outcomes)
                  ++ [WriterWrite "Press any key to continue..." A_NORMAL;
                      Refresh]) w1))
    ∧ calls w1
      = calls w ++ ((λ item, RunAgentEval (os_path_join path item)) <$> selected)
    ∧ heap w1 = heap w ∧ db w1 = db w ∧ applied w1 = applied w
    ∧ saved w1 = saved w ∧ rng w1 = rng w
    ∧ ∀ a, set_agent a (cli w1) = set_agent a (cli w).
Proof.
  intros Hpath Hne Hexists eval_items Hitems Hsel Hk selected outcomes.
  assert (truthy (Some path) = true) as Htruthy.
  { cbn. apply String.eqb_neq in Hne. by rewrite Hne. }
  set (w0 := with_term (term w ++ [Clear; Refresh; SaveTty; ResetShellMode]) w).
  destruct (for_fold_eval path selected [] w0)
    as (w1 & Hrun & Hcalls & Hterm & Hkeys).
  change (agent (cli w0)) with (agent (cli w)) in Hrun.
  fold outcomes in Hrun. fold (collected outcomes) in Hrun.
  destruct (for_fold_eval_frame path selected _ _ w0 w1 Hrun)
    as (Hheap & Hdb & Happ & Hsaved & Hrng & Hcli).
  exists w1. split; [|by repeat split].
  unfold handle_execution. unfold bind at 1. cbn [gets].
  rewrite Hpath. unfold bind at 1. cbn [term_op modify].
  rewrite Htruthy. cbn [negb default from_option id]. rewrite Hexists.
  cbn [negb]. subst eval_items.
  destruct (List.filter _ (listdir path)) as [|f fs] eqn:Hf; [done|].
  rewrite Hsel.
  do 3 (unfold bind at 1; cbn [term_op modify]).
  unfold bind at 1.
  match goal with |- context [for_fold _ _ _ ?w2] =>
    replace w2 with w0 by (subst w0; apply world_eq; cbn;
                           rewrite <- ?app_assoc; done)
  end.
  fold selected. rewrite Hrun.
  do 2 (unfold bind at 1; cbn [term_op modify]).
  unfold bind at 1. rewrite for_each_show.
  do 2 (unfold bind at 1; cbn [term_op modify]).
  unfold bind at 1.
  rewrite (getch_cons _ k rest)
    by (cbn [keys with_term]; rewrite Hkeys; subst w0; exact Hk).
  unfold ret. f_equal. apply world_eq;
    cbn [cli heap db keys rng term applied calls saved with_term with_keys];
    rewrite ?Hterm; subst w0;
    cbn [cli heap db keys rng term applied calls saved with_term with_keys];
    rewrite <- ?app_assoc; reflexivity.
Qed.

Lemma dict_set_keys {V} (k : string) (v : V) (d : list (string * V)) :
  (dict_set k v d).*1 = if decide (k ∈ d.*1) then d.*1 else d.*1 ++ [k].
Proof.
  induction d as [|[k' v'] d IH]; cbn; [done|].
  destruct (decide (k' = k)) as [->|Hneq]; cbn.
  - rewrite decide_True by apply list_elem_of_here. done.
  - rewrite IH. destruct (decide (k ∈ d.*1)) as [Hin|Hout].
    + rewrite decide_True by by apply list_elem_of_further. done.
    + rewrite decide_False; [done|].
      intros [?|?]%elem_of_cons; congruence.
Qed.

Lemma dict_set_NoDup {V} (k : string) (v : V) (d : list (string * V)) :
  NoDup d.*1 → NoDup (dict_set k v d).*1.
Proof.
  intros Hd. rewrite dict_set_keys. destruct (decide (k ∈ d.*1)); [done|].
  apply NoDup_app. split; [done|]. split; [|apply NoDup_singleton].
  intros x Hx ->%list_elem_of_singleton. done.
Qed.

Lemma dict_set_here {V} (k : string) (v : V) (d : list (string * V)) :
  (k, v) ∈ dict_set k v d.
Proof.
  induction d as [|[k' v'] d IH]; cbn; [apply list_elem_of_here|].
  destruct (decide (k' = k)); [apply list_elem_of_here|].
  by apply list_elem_of_further.
Qed.

Lemma dict_set_other {V} (k k' : string) (v v' : V) (d : list (string * V)) :
  k' ≠ k → (k', v') ∈ d → (k', v') ∈ dict_set k v d.
Proof.
  intros Hneq. induction d as [|[k0 v0] d IH]; cbn.
  - intros Hin. by apply elem_of_nil in Hin.
  - intros [Heq|Hin]%elem_of_cons.
    + injection Heq as <- <-. rewrite decide_False by done.
      apply list_elem_of_here.
    + destruct (decide (k0 = k)); apply list_elem_of_further; [|by apply IH].
      (* the entry of [k] is replaced; the one of [k'] is further on *)
      exact Hin.
Qed.

Lemma collect_keys
    (outcomes : list (string * (Exn + list (string * string)))) :
  ∀ d : Results,
    NoDup d.*1 →
    let r := foldl (λ d o, dict_set o.1 (as_result o.2) d) d outcomes in
    NoDup r.*1 ∧ ∀ item, item ∈ r.*1 ↔ item ∈ d.*1 ∨ item ∈ outcomes.*1.
Proof.
  induction outcomes as [|o os IH]; intros d Hd; cbn.
  - split; [done|]. intros item. rewrite elem_of_nil. tauto.
  - destruct (IH (dict_set o.1 (as_result o.2) d)) as [Hnd Hiff];
      [by apply dict_set_NoDup|].
    split; [exact Hnd|]. intros item. cbn zeta in Hiff. rewrite Hiff.
    rewrite dict_set_keys, elem_of_cons.
    destruct (decide (o.1 ∈ d.*1)) as [Hin|Hout].
    + split; [tauto|]. intros [?|[->|?]]; tauto.
    + rewrite elem_of_app, list_elem_of_singleton. tauto.
Qed.

Lemma collect_last
    (post : list (string * (Exn + list (string * string)))) :
  ∀ (d : Results) (item : string) (v : list (string * string)),
    (item, v) ∈ d → item ∉ post.*1 →
    (item, v) ∈ foldl (λ d o, dict_set o.1 (as_result o.2) d) d post.
Proof.
  induction post as [|o os IH]; intros d item v Hin Hout; cbn; [done|].
  cbn in Hout. apply not_elem_of_cons in Hout as [Hneq Hout].
  apply IH; [|done]. by apply dict_set_other.
Qed.

End EvalRunFacts.

Section EvalProperties.
Context `{AgentAPI} `{!Services}.
Import EvalState.

(** X20 — when there is nothing to evaluate, nothing is evaluated: without
    a configured path, with a path that does not exist, or with a
    directory that offers no item, the state shows its notice on a cleared
    screen, waits for one key and returns to the menu; when the user
    selects nothing in the selection dialog, it returns to the menu at
    once, the handler itself having only cleared the screen.  In all four
    cases the evaluator is not called, the terminal never leaves its
    interactive mode and the session is unchanged. *)
Theorem eval_without_selection (w : World) (k : string) (rest : list string) :
  keys w = k :: rest →
  let path := default "" (eval_data_path (cli w)) in
  let eval_items :=
    List.filter (λ f, path_exists (os_path_join path f)) (listdir path) in
  let notice msg :=
    with_keys rest
      (with_term (term w ++ [Clear; AddStr 0 0 msg;
                    AddStr 2 0 "Press any key to continue..."; Refresh]) w) in
  (truthy (eval_data_path (cli w)) = false →
   handle_execution w
   = Ok (Some MENU) (notice "Error: eval_data_path not set in config"))
  ∧ (truthy (eval_data_path (cli w)) = true → path_exists path = false →
     handle_execution w
     = Ok (Some MENU)
          (notice ("Error: Invalid eval_data_path in config: " +:+ path)))
  ∧ (truthy (eval_data_path (cli w)) = true → path_exists path = true →
     eval_items = [] →
     handle_execution w = Ok (Some MENU) (notice "No eval options found."))
  ∧ (truthy (eval_data_path (cli w)) = true → path_exists path = true →
     eval_items ≠ [] →
     select_multiple_from_list eval_items "Select evals to run:" = [] →
     handle_execution w = Ok (Some MENU) (with_term (term w ++ [Clear]) w)).
Proof.
  intros Hk path eval_items notice.
  assert (∀ msg, press_any_key_to_menu msg (with_term (term w ++ [Clear]) w)
                 = Ok (Some MENU) (notice msg)) as Hnotice.
  { intros msg. unfold press_any_key_to_menu, getch.
    unfold bind, term_op, modify, getkey, ret. cbn. rewrite Hk.
    subst notice. same_world. }
  repeat split.
  - intros Hpath. unfold handle_execution. unfold bind at 1. cbn [gets].
    unfold bind at 1. cbn [term_op modify]. rewrite Hpath. cbn [negb].
    apply Hnotice.
  - intros Hpath Hexists. unfold handle_execution. unfold bind at 1.
    cbn [gets]. unfold bind at 1. cbn [term_op modify].
    rewrite Hpath. cbn [negb]. fold path. rewrite Hexists. cbn [negb].
    apply Hnotice.
  - intros Hpath Hexists Hitems. unfold handle_execution. unfold bind at 1.
    cbn [gets]. unfold bind at 1. cbn [term_op modify].
    rewrite Hpath. cbn [negb]. fold path. rewrite Hexists. cbn [negb].
    fold eval_items. rewrite Hitems. apply Hnotice.
  - intros Hpath Hexists Hitems Hsel. unfold handle_execution.
    unfold bind at 1. cbn [gets]. unfold bind at 1. cbn [term_op modify].
    rewrite Hpath. cbn [negb]. fold path. rewrite Hexists. cbn [negb].
    fold eval_items.
    destruct eval_items as [|f fs] eqn:Hf; [done|]. by rewrite Hsel.
Qed.

(** X21 — the terminal is handed to the evaluations and taken back exactly
    once: after the selection the screen is refreshed, the terminal state
    is saved and switched to shell mode; then come the banners of the
    selected items, in selection order, the handler drawing nothing else
    in between; then the terminal state is restored, once, and only after
    that the screen is cleared and the results are drawn.  One key is read, at the
    very end; the workspace, the log, the applied actions, the saved
    models and every field of the session but the agent are unchanged. *)
Theorem eval_shell_mode_bracket
    (w : World) (path k first : string) (others rest : list string) :
  eval_data_path (cli w) = Some path →
  path ≠ "" →
  path_exists path = true →
  let eval_items :=
    List.filter (λ f, path_exists (os_path_join path f)) (listdir path) in
  eval_items ≠ [] →
  select_multiple_from_list eval_items "Select evals to run:"
  = first :: others →
  keys w = k :: rest →
  let selected := first :: others in
  let outcomes := eval_outcomes (agent (cli w)) path selected in
  ∃ w' : World,
    handle_execution w = Ok (Some MENU) w'
    ∧ term w'
      = term w ++ [Clear; Refresh; SaveTty; ResetShellMode]
          ++ concat (eval_banner <$> selected)
          ++ [ResetTty; Clear]
          ++ concat (result_section <$> collected outcomes)
          ++ [WriterWrite "Press any key to continue..." A_NORMAL; Refresh]
    ∧ keys w' = rest
    ∧ heap w' = heap w ∧ db w' = db w ∧ applied w' = applied w
    ∧ saved w' = saved w ∧ rng w' = rng w
    ∧ ∀ a, set_agent a (cli w') = set_agent a (cli w).
Proof.
  intros Hpath Hne Hexists eval_items Hitems Hsel Hk selected outcomes.
  destruct (eval_run w path k first others rest Hpath Hne Hexists Hitems
              Hsel Hk)
    as (w1 & Hrun & _ & Hheap & Hdb & Happ & Hsaved & Hrng & Hcli).
  eexists. split; [exact Hrun|]. cbn. by repeat split.
Qed.

(** X22 — the results view has one section per distinct selected item: an
    item that was selected more than once is evaluated each time, but
    keeps a single section, and that section shows the result of its last
    evaluation. *)
Theorem eval_repeated_item_shows_last
    (w : World) (path k first : string) (others rest : list string) :
  eval_data_path (cli w) = Some path →
  path ≠ "" →
  path_exists path = true →
  let eval_items :=
    List.filter (λ f, path_exists (os_path_join path f)) (listdir path) in
  eval_items ≠ [] →
  select_multiple_from_list eval_items "Select evals to run:"
  = first :: others →
  keys w = k :: rest →
  let selected := first :: others in
  let outcomes := eval_outcomes (agent (cli w)) path selected in
  ∃ (w' : World) (before after : list TermOp),
    handle_execution w = Ok (Some MENU) w'
    ∧ calls w'
      = calls w ++ ((λ item, RunAgentEval (os_path_join path item)) <$> selected)
    ∧ term w'
      = before ++ concat (result_section <$> collected outcomes) ++ after
    ∧ NoDup (collected outcomes).*1
    ∧ (∀ item, item ∈ (collected outcomes).*1 ↔ item ∈ selected)
    ∧ (∀ pre item o post,
         outcomes = pre ++ (item, o) :: post →
         item ∉ post.*1 →
         (item, as_result o) ∈ collected outcomes).
Proof.
  intros Hpath Hne Hexists eval_items Hitems Hsel Hk selected outcomes.
  destruct (eval_run w path k first others rest Hpath Hne Hexists Hitems
              Hsel Hk) as (w1 & Hrun & Hcalls & _).
  destruct (collect_keys outcomes [] (NoDup_nil_2 : NoDup ([] : Results).*1))
    as [Hnd Hiff].
  eexists.
  exists (term w ++ [Clear; Refresh; SaveTty; ResetShellMode]
            ++ concat (eval_banner <$> selected) ++ [ResetTty; Clear]).
  exists [WriterWrite "Press any key to continue..." A_NORMAL; Refresh].
  split; [exact Hrun|]. cbn [calls term with_keys with_term].
  split; [exact Hcalls|]. split; [by rewrite <- !app_assoc|].
  split; [exact Hnd|]. split.
  - intros item. cbn zeta in Hiff. unfold collected. rewrite Hiff.
    subst outcomes. rewrite eval_outcomes_items.
    cbn [fmap list_fmap]. rewrite elem_of_nil. tauto.
  - intros pre item o post Heq Hout. unfold collected. rewrite Heq.
    rewrite foldl_app. cbn [foldl]. apply collect_last; [|done].
    apply dict_set_here.
Qed.

End EvalProperties.

Section EvalScenarios.
Import Fixture.

Lemma eval_without_selection_witness :
  let _ := services None [] in
  EvalState.handle_execution (world0 ["k"])
  = Ok (Some MENU) (with_term [Clear] (world0 ["k"])).
Proof.
  intros S.
  apply (eval_without_selection (world0 ["k"]) "k" [] eq_refl);
    [reflexivity|reflexivity|done|reflexivity].
Defined.

Lemma eval_shell_mode_bracket_witness :
  let _ := services None ["good"] in
  ∃ w', EvalState.handle_execution (world0 ["k"]) = Ok (Some MENU) w'
      ∧ term w'
        = [Clear; Refresh; SaveTty; ResetShellMode]
            ++ eval_banner "good"
            ++ [ResetTty; Clear]
            ++ result_section ("good", [("accuracy", "1.0")])
            ++ [WriterWrite "Press any key to continue..." A_NORMAL; Refresh]
      ∧ keys w' = [].
Proof.
  intros S.
  destruct (eval_shell_mode_bracket (world0 ["k"]) "evals" "k" "good" [] [])
    as (w' & Hrun & Hterm & Hkeys & _);
    [reflexivity|done|reflexivity|done|reflexivity|reflexivity|].
  exists w'. split; [exact Hrun|]. split; [exact Hterm|exact Hkeys].
Defined.

Lemma eval_repeated_item_shows_last_witness :
  let _ := services None ["good"; "bad"; "good"] in
  ∃ w', EvalState.handle_execution (world0 ["k"]) = Ok (Some MENU) w'
      ∧ calls w' = [RunAgentEval "evals/good"; RunAgentEval "evals/bad";
                    RunAgentEval "evals/good"]
      ∧ (collected (eval_outcomes agent0 "evals" ["good"; "bad"; "good"])).*1
        = ["good"; "bad"].
Proof.
  intros S.
  destruct (eval_repeated_item_shows_last (world0 ["k"]) "evals" "k" "good"
              ["bad"; "good"] [])
    as (w' & before & after & Hrun & Hcalls & _);
    [reflexivity|done|reflexivity|done|reflexivity|reflexivity|].
  exists w'. split; [exact Hrun|]. split; [exact Hcalls|]. by vm_compute.
Defined.

End EvalScenarios.

(** ** The transitions of the state machine *)
Section TransitionFacts.
Context `{AgentAPI}.



End TransitionFacts.


Section TransitionProperties.
Context `{AgentAPI} `{!Inputs} `{!Tokenizer} `{!Services}.


End TransitionProperties.

Section TransitionScenarios.
Import Fixture.


End TransitionScenarios.
